(** * Citation matching and graph construction of [reviz_graph_model.py]

    A shallow embedding of [src/utils/reviz_graph_model.py] and the proofs of
    the properties stated about it.

    Conventions of the embedding.
    - Text is ASCII text: a Python [str] is a [string], and the character
      classes of [re] and [str.upper] are those of the code points below 128.
    - [fuzz.ratio], [fuzz.partial_ratio] (package thefuzz), [hashlib.md5],
      the file system and the XML parser are not code of this module; they
      are variables of the sections that use them.
    - The module-level list [user_answers], the console input and the console
      output form the [world] threaded through every effectful function;
      a Python exception is the [Raise] result. *)

From Stdlib Require Import ZArith Ascii String List Lia Bool.
From stdpp Require Import base option list gmap strings.

Local Open Scope string_scope.
Local Open Scope list_scope.
Local Open Scope Z_scope.

(** ** Characters and strings *)

Definition chars (s : string) : list ascii := list_ascii_of_string s.
Definition text (l : list ascii) : string := string_of_list_ascii l.

Definition code (a : ascii) : N := N_of_ascii a.

Definition in_range (lo hi : N) (a : ascii) : bool :=
  (N.leb lo (code a) && N.leb (code a) hi)%bool.

(** [\d] *)
Definition is_digit (a : ascii) : bool := in_range 48 57 a.

(** [\s]: tab, line feed, vertical tab, form feed, carriage return, the four
    separators 0x1c-0x1f and the space. *)
Definition is_space (a : ascii) : bool :=
  (in_range 9 13 a || in_range 28 32 a)%bool.

(** [\S] *)
Definition is_nonspace (a : ascii) : bool := negb (is_space a).

Definition is_upper_letter (a : ascii) : bool := in_range 65 90 a.
Definition is_lower_letter (a : ascii) : bool := in_range 97 122 a.

Definition is_char (c : ascii) (a : ascii) : bool := Ascii.eqb a c.

(** [[A-Za-z\-]] *)
Definition is_name_char (a : ascii) : bool :=
  (is_upper_letter a || is_lower_letter a || is_char "-" a)%bool.

(** [[A-Za-z\- ]] *)
Definition is_name_or_blank (a : ascii) : bool :=
  (is_upper_letter a || is_lower_letter a || is_char "-" a
   || is_char " " a)%bool.

(** [str.upper] on one character *)
Definition upper_char (a : ascii) : ascii :=
  if is_lower_letter a then ascii_of_N (code a - 32) else a.

(** [s.upper()] *)
Definition upper (s : string) : string := text (map upper_char (chars s)).

(** [s.replace(c, "")] for a one-character [c] *)
Definition remove_char (c : ascii) (s : string) : string :=
  text (filter (fun a => a ≠ c) (chars s)).

(** [c in s] for a one-character [c] *)
Definition contains_char (c : ascii) (s : string) : bool :=
  existsb (is_char c) (chars s).

(** ** The fragment of [re] the module uses *)

Module Re.

Inductive re : Type :=
| Cls (c : ascii -> bool)        (* one character of a class *)
| Many1 (c : ascii -> bool)      (* class+ , greedy *)
| Lit (s : string)               (* literal text *)
| Seq (r1 r2 : re)
| Alt (r1 r2 : re)               (* r1|r2, r1 tried first *)
| Bol                            (* ^ *)
| Eol                            (* $ *)
| Group (r : re).                (* the one capturing group *)

(** A position of the matcher: [pos] characters are behind it, [rest] is
    ahead, [grp] is the text captured so far. *)
Record mstate : Type := MState {
  pos : nat;
  rest : list ascii;
  grp : option (list ascii)
}.

Definition cont : Type := mstate -> option mstate.

(** Greedy repetition with backtracking: take as many characters of the
    class as there are, and give them back one by one while the
    continuation fails. *)
Fixpoint many (c : ascii -> bool) (k : cont) (p : nat) (s : list ascii)
    (g : option (list ascii)) : option mstate :=
  match s with
  | a :: s' =>
      if c a then
        match many c k (S p) s' g with
        | Some r => Some r
        | None => k (MState p s g)
        end
      else k (MState p s g)
  | [] => k (MState p [] g)
  end.

Fixpoint lit (l : list ascii) (s : list ascii) : option (list ascii) :=
  match l with
  | [] => Some s
  | a :: l' =>
      match s with
      | b :: s' => if Ascii.eqb a b then lit l' s' else None
      | [] => None
      end
  end.

(** [$] without MULTILINE: the end of the text, or just before a line feed
    that ends the text. *)
Definition at_eol (s : list ascii) : bool :=
  match s with
  | [] => true
  | [a] => Ascii.eqb a "010"
  | _ => false
  end.

Fixpoint rmatch (r : re) (k : cont) (st : mstate) : option mstate :=
  match r with
  | Cls c =>
      match rest st with
      | a :: s' => if c a then k (MState (S (pos st)) s' (grp st)) else None
      | [] => None
      end
  | Many1 c =>
      match rest st with
      | a :: s' => if c a then many c k (S (pos st)) s' (grp st) else None
      | [] => None
      end
  | Lit l =>
      match lit (chars l) (rest st) with
      | Some s' => k (MState (pos st + length (chars l)) s' (grp st))
      | None => None
      end
  | Seq r1 r2 => rmatch r1 (rmatch r2 k) st
  | Alt r1 r2 =>
      match rmatch r1 k st with
      | Some r => Some r
      | None => rmatch r2 k st
      end
  | Bol => if Nat.eqb (pos st) 0 then k st else None
  | Eol => if at_eol (rest st) then k st else None
  | Group r1 =>
      rmatch r1
        (fun st' =>
           k (MState (pos st') (rest st')
                (Some (take (pos st' - pos st) (rest st)))))
        st
  end.

(** One match: where it starts, the matched text, the captured text and
    what is left of the input. *)
Record found : Type := Found {
  m_start : nat;
  m_text : list ascii;
  m_group : option (list ascii);
  m_end : nat;
  m_rest : list ascii
}.

(** [pattern.search]: the first position, from the left, at which the
    pattern matches ([p] characters are behind [s]). *)
Fixpoint search_from (r : re) (p : nat) (s : list ascii) : option found :=
  match rmatch r Some (MState p s None) with
  | Some st => Some (Found p (take (pos st - p) s) (grp st) (pos st) (rest st))
  | None =>
      match s with
      | [] => None
      | _ :: s' => search_from r (S p) s'
      end
  end.

Definition search (r : re) (s : string) : option found :=
  search_from r 0 (chars s).

(** [pattern.findall] for a pattern with one group: the captured texts of
    the successive matches, each search resuming where the previous match
    ended. The patterns of this module never match the empty text; after
    an empty match the scan moves one character on. *)
Fixpoint findall_from (fuel : nat) (r : re) (p : nat) (s : list ascii)
    : list string :=
  match fuel with
  | O => []
  | S fuel' =>
      match search_from r p s with
      | None => []
      | Some m =>
          let g := text (default [] (m_group m)) in
          if Nat.eqb (m_end m) (m_start m) then
            match m_rest m with
            | [] => [g]
            | _ :: s' => g :: findall_from fuel' r (S (m_end m)) s'
            end
          else g :: findall_from fuel' r (m_end m) (m_rest m)
      end
  end.

Definition findall (r : re) (s : string) : list string :=
  findall_from (S (length (chars s))) r 0 (chars s).

End Re.

Import Re.

(** ** Text normaliser *)

(** [(?: +and +| +AND +|$)] *)
Definition plain_separator : re :=
  Alt (Seq (Many1 (is_char " ")) (Seq (Lit "and") (Many1 (is_char " "))))
 (Alt (Seq (Many1 (is_char " ")) (Seq (Lit "AND") (Many1 (is_char " "))))
      Eol).

(** [(?P<name>[A-Za-z\-]+)(?: +and +| +AND +|$)] *)
Definition author_pattern_plain : re :=
  Seq (Group (Many1 is_name_char)) plain_separator.

(** [(?:^|and +|AND +)] *)
Definition comma_separator : re :=
  Alt Bol
 (Alt (Seq (Lit "and") (Many1 (is_char " ")))
      (Seq (Lit "AND") (Many1 (is_char " ")))).

(** [(?:^|and +|AND +)(?P<name>[A-Za-z\- ]+)] *)
Definition author_pattern_comma : re :=
  Seq comma_separator (Group (Many1 is_name_or_blank)).

Definition find_author (author_json : string) : list string :=
  if negb (contains_char "," author_json)
  then findall author_pattern_plain author_json
  else findall author_pattern_comma author_json.

(** *** Author fields of a regular shape *)

(** A name token: letters and hyphens, at least one. *)
Definition is_token (s : string) : bool :=
  match chars s with
  | [] => false
  | l => forallb is_name_char l
  end.

(** A surname as the pattern with a comma takes it: a letter or hyphen, then
    letters, hyphens and blanks. *)
Definition is_surname (s : string) : bool :=
  match chars s with
  | [] => false
  | a :: l => is_name_char a && forallb is_name_or_blank l
  end.

(** The two spellings the patterns name. *)
Definition is_separator (s : string) : bool :=
  String.eqb s "and" || String.eqb s "AND".

(** [s.startswith(l)] *)
Definition starts_with (l : string) (s : list ascii) : bool :=
  match lit (chars l) s with
  | Some _ => true
  | None => false
  end.

(** ["and" in s or "AND" in s] *)
Fixpoint has_separator_word (s : list ascii) : bool :=
  match s with
  | [] => false
  | _ :: s' =>
      starts_with "and" s || starts_with "AND" s || has_separator_word s'
  end.

(** [first sep1 name1 sep2 name2 ...], single blanks between the words. *)
Fixpoint join_names (first : string) (more : list (string * string))
    : string :=
  match more with
  | [] => first
  | (sep, name) :: more' =>
      first +:+ " " +:+ sep +:+ " " +:+ join_names name more'
  end.

(** [surname, given sep1 surname1, given1 sep2 ...] *)
Fixpoint join_entries (surname given : string)
    (more : list (string * (string * string))) : string :=
  match more with
  | [] => surname +:+ ", " +:+ given
  | (sep, (surname', given')) :: more' =>
      surname +:+ ", " +:+ given +:+ " " +:+ sep +:+ " "
        +:+ join_entries surname' given' more'
  end.

(** Every separator is [and] or [AND] and every name is a name token. *)
Definition names_ok (more : list (string * string)) : bool :=
  forallb (fun '(sep, n) => is_separator sep && is_token n) more.

(** Every separator is [and] or [AND], every surname is one, and no given
    name holds [and] or [AND]. *)
Definition entries_ok (more : list (string * (string * string))) : bool :=
  forallb (fun '(sep, (s, g)) =>
             is_separator sep && is_surname s
             && negb (has_separator_word (chars g))) more.

(** The text behind a surname: [", given"] and the further entries. *)
Fixpoint tail_text (given : string)
    (more : list (string * (string * string))) : list ascii :=
  ","%char :: " "%char :: chars given ++
    match more with
    | [] => []
    | (sep, (surname', given')) :: more' =>
        " "%char :: chars sep ++ " "%char :: chars surname'
          ++ tail_text given' more'
    end.

(** The text does not go on with a letter or hyphen. *)
Definition not_name_next (tail : list ascii) : Prop :=
  match tail with [] => True | a :: _ => is_name_char a = false end.

(** The text does not go on with a letter, hyphen or blank. *)
Definition not_blank_next (tail : list ascii) : Prop :=
  match tail with [] => True | a :: _ => is_name_or_blank a = false end.

(** [(\d\d\.\d+\/\S+)] *)
Definition doi_pattern : re :=
  Group (Seq (Cls is_digit) (Seq (Cls is_digit) (Seq (Lit ".")
        (Seq (Many1 is_digit) (Seq (Lit "/") (Many1 is_nonspace)))))).

Definition find_doi (input : option string) : option string :=
  match input with
  | None => None
  | Some s =>
      match search doi_pattern s with
      | Some m => Some (text (m_text m))
      | None => None
      end
  end.

(** ** Exceptions, the world and the monad of effectful code *)

Inductive exn : Type :=
| TypeError | ValueError | AttributeError | EOFError | ParseError.

Inductive res (A : Type) : Type :=
| Ok (a : A)
| Raise (e : exn).
Arguments Ok {A} a.
Arguments Raise {A} e.

(** The key under which an answer of the operator is remembered:
    [(title_art, title_ref, author_art, authors_ref)]. The authors of the
    article are the names [find_author] extracted; those of the reference
    are the texts of its [surname] elements, [None] for an element without
    text. *)
Definition question : Type :=
  string * string * list string * list (option string).

(** What the module writes to the console. [EvPrompt] is the [print] call of
    [ask_user], which shows the two titles and the two author lists. *)
Inductive event : Type :=
| EvDivider (s : string)                       (* msg.divider *)
| EvWarn (s : string)                          (* msg.warn *)
| EvFail (title : string) (body : option string)  (* msg.fail *)
| EvText (s : string)                          (* msg.text *)
| EvPrint (s : string)                         (* print *)
| EvPrompt (q : question).

Record world : Type := World {
  user_answers : list (question * bool);   (* the global list *)
  stdin : list string;                      (* the lines input() will read *)
  console : list event                      (* written so far, oldest first *)
}.

Definition M (A : Type) : Type := world -> res A * world.

Definition ret {A} (a : A) : M A := fun w => (Ok a, w).
Definition raise {A} (e : exn) : M A := fun w => (Raise e, w).
Definition bind {A B} (c : M A) (k : A -> M B) : M B :=
  fun w =>
    match c w with
    | (Ok a, w') => k a w'
    | (Raise e, w') => (Raise e, w')
    end.
Definition lift {A} (r : res A) : M A := fun w => (r, w).

Notation "x <- c ;; k" := (bind c (fun x => k))
  (at level 100, c at next level, right associativity).
Notation "c ;;; k" := (bind c (fun _ => k))
  (at level 100, right associativity).

Definition emit (e : event) : M unit :=
  fun w => (Ok tt, World (user_answers w) (stdin w) (console w ++ [e])).

(** [input()]: the next line, [EOFError] when there is none. *)
Definition input : M string :=
  fun w =>
    match stdin w with
    | [] => (Raise EOFError, w)
    | l :: ls => (Ok l, World (user_answers w) ls (console w))
    end.

Definition get_user_answers : M (list (question * bool)) :=
  fun w => (Ok (user_answers w), w).

(** [user_answers.append({"question": q, "answer": a})] *)
Definition append_answer (q : question) (a : bool) : M unit :=
  fun w => (Ok tt, World (user_answers w ++ [(q, a)]) (stdin w) (console w)).

(** ** Author matcher and match decision *)

Section Matching.

(** [fuzz.ratio] and [fuzz.partial_ratio] *)
Variable ratio : string -> string -> Z.
Variable partial_ratio : string -> string -> Z.

(** [next((a for a in otherauthors if fuzz.ratio(author.upper(),
    a.upper()) >= 95), None) is not None]: the generator is run up to its
    first hit, and [a.upper()] is an [AttributeError] when it comes to an
    [a] that is [None]. *)
Fixpoint fuzzy_author_in (author : string)
    (otherauthors : list (option string)) : res bool :=
  match otherauthors with
  | [] => Ok false
  | Some a :: otherauthors' =>
      if 95 <=? ratio (upper author) (upper a) then Ok true
      else fuzzy_author_in author otherauthors'
  | None :: _ => Raise AttributeError
  end.

(** The body of the loop [for author in artauthors]; [first] is
    [artauthors[0]] and [other_first] is [otherauthors[0]]. A name is never
    equal to [None]. *)
Definition match_one_author (first : string) (other_first : option string)
    (otherauthors : list (option string)) (acc : Z * Z) (author : string)
    : res (Z * Z) :=
  let '(counter, number) := acc in
  if String.eqb author first then
    if bool_decide (other_first = Some author)
    then Ok (counter + 5, number - 1)
    else
      match fuzzy_author_in author otherauthors with
      | Ok true => Ok (counter + 3, number - 1)
      | Ok false => Ok (counter, number)
      | Raise e => Raise e
      end
  else if bool_decide (other_first = Some author)
  then Ok (counter + 3, number - 1)
  else
    match fuzzy_author_in author otherauthors with
    | Ok true => Ok (counter + 1, number - 1)
    | Ok false => Ok (counter, number)
    | Raise e => Raise e
    end.

Fixpoint match_authors (first : string) (other_first : option string)
    (otherauthors : list (option string)) (acc : Z * Z)
    (authors : list string) : res (Z * Z) :=
  match authors with
  | [] => Ok acc
  | author :: authors' =>
      match match_one_author first other_first otherauthors acc author with
      | Ok acc' => match_authors first other_first otherauthors acc' authors'
      | Raise e => Raise e
      end
  end.

Definition find_matching_authors (artauthors : list string)
    (otherauthors : list (option string)) : res (Z * Z) :=
  let counter := 0 in
  let number :=
    Z.of_nat (length artauthors) + Z.of_nat (length otherauthors) in
  match artauthors, otherauthors with
  | first :: _, other_first :: _ =>
      match_authors first other_first otherauthors (counter, number)
        artauthors
  | _, _ => Ok (counter, number)
  end.

(** The scan of [user_answers] for an earlier answer. *)
Fixpoint lookup_answer (q : question) (answers : list (question * bool))
    : option bool :=
  match answers with
  | [] => None
  | (q', a) :: answers' =>
      if decide (q' = q) then Some a else lookup_answer q answers'
  end.

(** The console writes of [ask_user] before it reads the answer. *)
Definition prompt_events (q : question) : list event :=
  [ EvWarn "Unsure whether the entries belong together or not:";
    EvPrompt q;
    EvText "Do both entries belong to the same article?";
    EvText "Please enter 'y' or 'n'..." ].

Definition ask_user (without_interactive_queries : bool)
    (title_art title_ref : string) (author_art : list string)
    (authors_ref : list (option string)) : M bool :=
  if without_interactive_queries then ret false
  else
    let q : question := (title_art, title_ref, author_art, authors_ref) in
    answers <- get_user_answers ;;
    match lookup_answer q answers with
    | Some a => ret a
    | None =>
        emit (EvWarn "Unsure whether the entries belong together or not:") ;;;
        emit (EvPrompt q) ;;;
        emit (EvText "Do both entries belong to the same article?") ;;;
        emit (EvText "Please enter 'y' or 'n'...") ;;;
        line <- input ;;
        if String.eqb line "y"
        then append_answer q true ;;; ret true
        else append_answer q false ;;; ret false
    end.

(** [title.replace("{", "").replace("}", "").upper()] *)
Definition clean_title (title : string) : string :=
  upper (remove_char "}" (remove_char "{" title)).

(** [doi_art == doi_ref and doi_art is not None and doi_ref is not None] *)
Definition doi_match (doi_art doi_ref : option string) : bool :=
  bool_decide (doi_art = doi_ref) && bool_decide (doi_art ≠ None)
    && bool_decide (doi_ref ≠ None).

(** [lev > 90 or (lev_partial > 95 and lev > 70)] *)
Definition titles_match (lev lev_partial : Z) : bool :=
  (90 <? lev) || ((95 <? lev_partial) && (70 <? lev)).

(** [lev_partial > 90 and lev > 60] *)
Definition titles_unsure (lev lev_partial : Z) : bool :=
  (90 <? lev_partial) && (60 <? lev).

(** A title is [Some s] when it is a [str], [None] for any other value. *)
Definition citation_matching (doi_art doi_ref : option string)
    (title_art title_ref : option string)
    (author_art : list string) (authors_ref : list (option string))
    (without_interactive_queries : bool) : M bool :=
  let doi_art := find_doi doi_art in
  let doi_ref := find_doi doi_ref in
  if doi_match doi_art doi_ref then ret true
  else
    match title_art, title_ref with
    | Some title_art, Some title_ref =>
        let clean_title_art := clean_title title_art in
        let clean_title_ref := clean_title title_ref in
        let lev := ratio clean_title_art clean_title_ref in
        let lev_partial := partial_ratio clean_title_art clean_title_ref in
        if titles_match lev lev_partial then
          score <- lift (find_matching_authors author_art authors_ref) ;;
          let '(counter, number) := score in
          if 2 <=? counter then ret true
          else ask_user without_interactive_queries
                 clean_title_art clean_title_ref author_art authors_ref
        else if titles_unsure lev lev_partial then
          ask_user without_interactive_queries
            clean_title_art clean_title_ref author_art authors_ref
        else ret false
    | _, _ => ret false
    end.

End Matching.

(** ** Values of the bibliography and of the parsed documents *)

(** The [year] field of a bibliography entry as [json.load] gives it:
    [null], a number or a string. *)
Inductive jyear : Type :=
| YNull
| YInt (z : Z)
| YStr (s : string).

(** A title value together with the identity of the Python object that holds
    it; [is] compares identities. [tval] is [None] when the value is not a
    [str]. *)
Record title_obj : Type := TitleObj {
  tid : nat;
  tval : option string
}.

Definition py_is (a b : title_obj) : bool := Nat.eqb (tid a) (tid b).

(** One entry of ["final selection articles"]; [None] is JSON [null]. *)
Record Article : Type := mkArticle {
  bibtex_key : string;
  title : title_obj;
  author : option string;
  year : jyear;
  doi : option string;
  file : option string
}.

(** One [biblStruct] element of a parsed document. [bs_title] is [None] when
    the element has no [title] descendant, and holds that element's [.text]
    otherwise; [bs_doi] likewise for [idno[@type="doi"]]; [bs_surnames] are
    the [.text] of the [surname] descendants, [None] for an element without
    text. *)
Record biblStruct : Type := BiblStruct {
  bs_title : option (option string);
  bs_doi : option (option string);
  bs_surnames : list (option string)
}.

Record article_dict : Type := ArticleDict {
  a_title : option string;
  a_author : list string;
  a_key : string;
  a_year : jyear
}.

Record edge : Type := Edge {
  e_from : string;
  e_to : string
}.

Record graph : Type := Graph {
  g_years : list Z;
  g_year_arts : gmap Z (list string);
  g_articles : list article_dict;
  g_edges : list edge
}.

(** ** [int] on a year value *)

(** The blanks [int] strips: tab, line feed, vertical tab, form feed,
    carriage return and the space. *)
Definition is_int_blank (a : ascii) : bool :=
  (in_range 9 13 a || is_char " " a)%bool.

Fixpoint lstrip (l : list ascii) : list ascii :=
  match l with
  | a :: l' => if is_int_blank a then lstrip l' else l
  | [] => []
  end.

Definition strip (l : list ascii) : list ascii :=
  rev (lstrip (rev (lstrip l))).

Definition digit_value (a : ascii) : Z := Z.of_N (code a) - 48.

(** Decimal digits, single underscores allowed between two digits.
    [sep] says that a digit must come next. *)
Fixpoint digits_value (acc : Z) (sep : bool) (l : list ascii) : option Z :=
  match l with
  | [] => if sep then None else Some acc
  | a :: l' =>
      if is_digit a then digits_value (10 * acc + digit_value a) false l'
      else if is_char "_" a then
        if sep then None else digits_value acc true l'
      else None
  end.

(** [sys.get_int_max_str_digits()] of Python 3.11 and later, which the
    module leaves at its default. *)
Definition int_max_str_digits : nat := 4300.

(** [int(s)] for a string: blanks around, an optional sign, digits; a text
    with more than [int_max_str_digits] digits is refused. *)
Definition int_of_string (s : string) : option Z :=
  let l := strip (chars s) in
  if (int_max_str_digits <? length (List.filter is_digit l))%nat then None
  else
    match l with
    | a :: l' =>
        if is_char "-" a then Z.opp <$> digits_value 0 true l'
        else if is_char "+" a then digits_value 0 true l'
        else digits_value 0 true (a :: l')
    | [] => None
    end.

Definition py_int (y : jyear) : res Z :=
  match y with
  | YNull => Raise TypeError
  | YInt z => Ok z
  | YStr s =>
      match int_of_string s with
      | Some z => Ok z
      | None => Raise ValueError
      end
  end.

(** [min(l)] and [max(l)]: [ValueError] on the empty list. *)
Definition py_min (l : list Z) : res Z :=
  match l with
  | [] => Raise ValueError
  | z :: l' => Ok (fold_left Z.min l' z)
  end.

Definition py_max (l : list Z) : res Z :=
  match l with
  | [] => Raise ValueError
  | z :: l' => Ok (fold_left Z.max l' z)
  end.

(** [range(lo, hi)] *)
Definition py_range (lo hi : Z) : list Z := seqZ lo (hi - lo).

(** ** Paths *)

(** [os.path.basename] *)
Fixpoint basename_chars (acc : list ascii) (l : list ascii) : list ascii :=
  match l with
  | [] => acc
  | a :: l' =>
      if is_char "/" a then basename_chars [] l'
      else basename_chars (acc ++ [a]) l'
  end.

Definition basename (p : string) : string := text (basename_chars [] (chars p)).

(** [s[:-4]] *)
Definition drop_last4 (s : string) : string :=
  let l := chars s in text (take (length l - 4)%nat l).

(** [os.path.join(a, b)] for a [b] that does not start with a slash *)
Definition path_join (a b : string) : string :=
  match rev (chars a) with
  | [] => b
  | c :: _ => if is_char "/" c then a +:+ b else a +:+ "/" +:+ b
  end.

(** [os.path.join(tei, "{}.tei.xml".format(os.path.basename(f)[:-4]))] *)
Definition tei_path (tei f : string) : string :=
  path_join tei (drop_last4 (basename f) +:+ ".tei.xml").

Definition no_blocks : string :=
  "[NO_BLOCKS] PDF parsing resulted in empty content".
Definition bad_input_data : string :=
  "[BAD_INPUT_DATA] PDF to XML conversion failed with error code: 1".

(** ** Graph builder *)

Section Builder.

Variable ratio : string -> string -> Z.
Variable partial_ratio : string -> string -> Z.

(** [hashlib.md5(key.encode("utf-8")).hexdigest()] *)
Variable md5_hexdigest : string -> string.

(** The regular files of the system, by path, with their text. *)
Variable files : gmap string string.

(** [et.parse(path).findall(".//{ns}biblStruct")] as a function of the
    text of the file; [Raise ParseError] when the text is not XML. *)
Variable biblStructs : string -> res (list biblStruct).

(** [s.isdigit()] *)
Definition isdigit (s : string) : bool :=
  match chars s with
  | [] => false
  | l => forallb is_digit l
  end.

Definition key_to_md5 (key : string) : string :=
  let hd := md5_hexdigest key in
  let shorthd := text (take 6 (chars hd)) in
  if isdigit shorthd then shorthd +:+ "a" else shorthd.

Definition convert_key (original_bibtex_keys : bool) (a : Article)
    : Article :=
  if original_bibtex_keys then a
  else mkArticle (key_to_md5 (bibtex_key a)) (title a) (author a) (year a)
         (doi a) (file a).

(** The list [years]: the years of the articles that have one. *)
Fixpoint collect_years (articles : list Article) : res (list Z) :=
  match articles with
  | [] => Ok []
  | a :: articles' =>
      match year a with
      | YNull => collect_years articles'
      | y =>
          match py_int y with
          | Ok z =>
              match collect_years articles' with
              | Ok zs => Ok (z :: zs)
              | Raise e => Raise e
              end
          | Raise e => Raise e
          end
      end
  end.

(** [this_year_arts] of one [year]: the keys of the articles of that year,
    [int] being applied to the year of every article. *)
Fixpoint this_year_arts (y : Z) (articles : list Article)
    : res (list string) :=
  match articles with
  | [] => Ok []
  | a :: articles' =>
      match py_int (year a) with
      | Ok z =>
          match this_year_arts y articles' with
          | Ok ks => Ok (if Z.eqb z y then bibtex_key a :: ks else ks)
          | Raise e => Raise e
          end
      | Raise e => Raise e
      end
  end.

(** The loop over [range(min(years), max(years) + 1)]. *)
Fixpoint fill_year_arts (articles : list Article) (ys : list Z)
    (year_arts : gmap Z (list string)) : res (gmap Z (list string)) :=
  match ys with
  | [] => Ok year_arts
  | y :: ys' =>
      match this_year_arts y articles with
      | Ok ks => fill_year_arts articles ys' (<[y := ks]> year_arts)
      | Raise e => Raise e
      end
  end.

Definition build_year_arts (articles : list Article) (years : list Z)
    : res (gmap Z (list string)) :=
  match py_min years with
  | Ok lo =>
      match py_max years with
      | Ok hi => fill_year_arts articles (py_range lo (hi + 1)) ∅
      | Raise e => Raise e
      end
  | Raise e => Raise e
  end.

(** [find_author] on a field that may be [null]: the test for a comma in
    [None] is a [TypeError]. *)
Definition find_author_field (a : option string) : res (list string) :=
  match a with
  | Some s => Ok (find_author s)
  | None => Raise TypeError
  end.

Fixpoint build_articles (articles : list Article) : res (list article_dict) :=
  match articles with
  | [] => Ok []
  | a :: articles' =>
      match find_author_field (author a) with
      | Ok authors =>
          match build_articles articles' with
          | Ok ds =>
              Ok (ArticleDict (tval (title a)) authors (bibtex_key a) (year a)
                    :: ds)
          | Raise e => Raise e
          end
      | Raise e => Raise e
      end
  end.

(** The loop [for art in articles] for one reference of [article]: the
    first candidate that matches, if any. *)
Fixpoint scan_candidates (article : Article)
    (ref_doi ref_title : option string)
    (ref_authors : list (option string))
    (without_interactive_queries : bool) (candidates : list Article)
    : M (option Article) :=
  match candidates with
  | [] => ret None
  | art :: candidates' =>
      art_authors <- lift (find_author_field (author art)) ;;
      let art_doi := doi art in
      if py_is (title art) (title article) then
        scan_candidates article ref_doi ref_title ref_authors
          without_interactive_queries candidates'
      else
        matched <- citation_matching ratio partial_ratio art_doi ref_doi
                     (tval (title art)) ref_title art_authors ref_authors
                     without_interactive_queries ;;
        if matched : bool then ret (Some art)
        else
          scan_candidates article ref_doi ref_title ref_authors
            without_interactive_queries candidates'
  end.

(** [ref.find(".//{ns}title").text]: an [AttributeError] when there is no
    such element. *)
Definition ref_title_of (ref : biblStruct) : res (option string) :=
  match bs_title ref with
  | Some t => Ok t
  | None => Raise AttributeError
  end.

(** The text of the DOI element, [None] when there is no such element. *)
Definition ref_doi_of (ref : biblStruct) : option string :=
  match bs_doi ref with
  | Some t => t
  | None => None
  end.

(** The body of [for ref in xml.findall(...)]. *)
Definition process_ref (articles : list Article) (article : Article)
    (without_interactive_queries : bool) (edges : list edge)
    (ref : biblStruct) : M (list edge) :=
  ref_title <- lift (ref_title_of ref) ;;
  let ref_doi := ref_doi_of ref in
  let ref_authors := bs_surnames ref in
  found <- scan_candidates article ref_doi ref_title ref_authors
             without_interactive_queries articles ;;
  match found with
  | Some art => ret (edges ++ [Edge (bibtex_key article) (bibtex_key art)])
  | None => ret edges
  end.

Fixpoint process_refs (articles : list Article) (article : Article)
    (without_interactive_queries : bool) (edges : list edge)
    (refs : list biblStruct) : M (list edge) :=
  match refs with
  | [] => ret edges
  | ref :: refs' =>
      edges' <- process_ref articles article without_interactive_queries
                  edges ref ;;
      process_refs articles article without_interactive_queries edges' refs'
  end.

(** The body of the loop [for article in articles] that adds the edges. *)
Definition process_article (tei : string) (articles : list Article)
    (without_interactive_queries : bool) (edges : list edge)
    (article : Article) : M (list edge) :=
  match file article with
  | None => ret edges
  | Some f =>
      let tei_file := tei_path tei f in
      match files !! tei_file with
      | None =>
          match tval (title article) with
          | Some t =>
              emit (EvFail ("tei-file not found for " +:+ t) (Some "")) ;;;
              ret edges
          | None => raise TypeError
          end
      | Some tei_content =>
          if bool_decide (tei_content = no_blocks)
             || bool_decide (tei_content = bad_input_data)
          then
            emit (EvFail "tei-file is empty for" (tval (title article))) ;;;
            ret edges
          else
            emit (EvPrint "") ;;;
            emit (EvText ("Processing " +:+ tei_file)) ;;;
            refs <- lift (biblStructs tei_content) ;;
            process_refs articles article without_interactive_queries
              edges refs
      end
  end.

Fixpoint add_edges (tei : string) (articles : list Article)
    (without_interactive_queries : bool) (edges : list edge)
    (todo : list Article) : M (list edge) :=
  match todo with
  | [] => ret edges
  | article :: todo' =>
      edges' <- process_article tei articles without_interactive_queries
                  edges article ;;
      add_edges tei articles without_interactive_queries edges' todo'
  end.

(** [build_graph_model], from the loaded bibliography to the graph that is
    written to [graph_filename]. *)
Definition build_graph_model (bib : list Article) (tei : string)
    (original_bibtex_keys without_interactive_queries : bool) : M graph :=
  emit (EvDivider "Build citation graph model from references in PDFs") ;;;
  let articles := map (convert_key original_bibtex_keys) bib in
  years <- lift (collect_years articles) ;;
  year_arts <- lift (build_year_arts articles years) ;;
  dicts <- lift (build_articles articles) ;;
  edges <- add_edges tei articles without_interactive_queries [] articles ;;
  ret (Graph years year_arts dicts edges).

(** The article has the year [y]. *)
Definition has_year (y : Z) (a : Article) : bool :=
  match py_int (year a) with
  | Ok z => Z.eqb z y
  | Raise _ => false
  end.

(** [int] accepts the year of the article. *)
Definition year_converts (a : Article) : Prop :=
  exists z, py_int (year a) = Ok z.

(** The world once the build has written its opening divider. *)
Definition started (w : world) : world :=
  World (user_answers w) (stdin w)
    (console w ++
       [EvDivider "Build citation graph model from references in PDFs"]).

(** The world after one more console write. *)
Definition wrote (e : event) (w : world) : world :=
  World (user_answers w) (stdin w) (console w ++ [e]).

(** The [msg.fail] records of a console. *)
Definition warnings (es : list event) : list event :=
  List.filter (fun e => match e with EvFail _ _ => true | _ => false end) es.

(** The edge goes from one article of the list to another one, whose
    title is not the same object. *)
Definition joins_two_articles (articles : list Article) (e : edge) : Prop :=
  exists i j a b,
    i <> j /\ articles !! i = Some a /\ articles !! j = Some b
    /\ e_from e = bibtex_key a /\ e_to e = bibtex_key b
    /\ py_is (title b) (title a) = false.

(** *** The edge loop, as a relation *)

(** The candidates that the scan for a reference of [article] passed over,
    from the world [w] to the world [w']. Each of them has an author field
    and either is the article itself (same title object) or was decided, in
    the world that the scan had reached and in the mode of the build, to be
    no match. *)
Inductive passed_over (article : Article) (rd rt : option string)
    (ra : list (option string)) (flag : bool)
    : list Article -> world -> world -> Prop :=
| passed_none (w : world) : passed_over article rd rt ra flag [] w w
| passed_self (c : Article) (l : list Article) (au : list string)
    (w w' : world) :
    find_author_field (author c) = Ok au ->
    py_is (title c) (title article) = true ->
    passed_over article rd rt ra flag l w w' ->
    passed_over article rd rt ra flag (c :: l) w w'
| passed_other (c : Article) (l : list Article) (au : list string)
    (w w1 w' : world) :
    find_author_field (author c) = Ok au ->
    py_is (title c) (title article) = false ->
    citation_matching ratio partial_ratio (doi c) rd (tval (title c)) rt au
      ra flag w = (Ok false, w1) ->
    passed_over article rd rt ra flag l w1 w' ->
    passed_over article rd rt ra flag (c :: l) w w'.

(** What one reference of [article] adds to the edges, from the world [w]
    to the world [w']: nothing when every candidate was passed over, and
    otherwise one edge, to the first candidate that is decided a match; the
    candidates behind that one play no part. *)
Inductive ref_adds (articles : list Article) (article : Article)
    (flag : bool) (ref : biblStruct) : world -> list edge -> world -> Prop :=
| ref_adds_none (rt : option string) (w w' : world) :
    ref_title_of ref = Ok rt ->
    passed_over article (ref_doi_of ref) rt (bs_surnames ref) flag articles
      w w' ->
    ref_adds articles article flag ref w [] w'
| ref_adds_one (rt : option string) (pre post : list Article)
    (art : Article) (au : list string) (w w1 w' : world) :
    ref_title_of ref = Ok rt ->
    articles = pre ++ art :: post ->
    passed_over article (ref_doi_of ref) rt (bs_surnames ref) flag pre
      w w1 ->
    find_author_field (author art) = Ok au ->
    py_is (title art) (title article) = false ->
    citation_matching ratio partial_ratio (doi art) (ref_doi_of ref)
      (tval (title art)) rt au (bs_surnames ref) flag w1 = (Ok true, w') ->
    ref_adds articles article flag ref w
      [Edge (bibtex_key article) (bibtex_key art)] w'.

(** The items of a list take their steps one after the other, each from the
    world the one before it left, and what they add is put end to end. *)
Inductive in_turn {X : Type}
    (step : X -> world -> list edge -> world -> Prop)
    : list X -> world -> list edge -> world -> Prop :=
| in_turn_nil (w : world) : in_turn step [] w [] w
| in_turn_cons (x : X) (xs : list X) (es es' : list edge)
    (w w1 w' : world) :
    step x w es w1 ->
    in_turn step xs w1 es' w' ->
    in_turn step (x :: xs) w (es ++ es') w'.

(** What one article adds to the edges: nothing, and nothing or one
    [msg.fail] record on the console, when it has no file field, no TEI
    file or a TEI file that holds a failure text; otherwise, after the two
    console writes, what the references of its document add in turn. *)
Inductive article_adds (tei : string) (articles : list Article)
    (flag : bool) (article : Article) : world -> list edge -> world -> Prop :=
| article_no_file (w : world) :
    file article = None ->
    article_adds tei articles flag article w [] w
| article_no_tei (f t : string) (w : world) :
    file article = Some f ->
    files !! tei_path tei f = None ->
    tval (title article) = Some t ->
    article_adds tei articles flag article w []
      (wrote (EvFail ("tei-file not found for " +:+ t) (Some "")) w)
| article_empty (f c : string) (w : world) :
    file article = Some f ->
    files !! tei_path tei f = Some c ->
    c = no_blocks \/ c = bad_input_data ->
    article_adds tei articles flag article w []
      (wrote (EvFail "tei-file is empty for" (tval (title article))) w)
| article_parsed (f c : string) (refs : list biblStruct) (es : list edge)
    (w w' : world) :
    file article = Some f ->
    files !! tei_path tei f = Some c ->
    c <> no_blocks -> c <> bad_input_data ->
    biblStructs c = Ok refs ->
    in_turn (ref_adds articles article flag) refs
      (wrote (EvText ("Processing " +:+ tei_path tei f))
         (wrote (EvPrint "") w)) es w' ->
    article_adds tei articles flag article w es w'.

(** *** The rest of a session *)

(** Any sequence of console writes and of calls of the functions of the
    module that touch the world, whatever they are called with and whatever
    they return or raise. *)
Inductive later : world -> world -> Prop :=
| later_now (w : world) : later w w
| later_write (e : event) (w w' : world) :
    later (wrote e w) w' -> later w w'
| later_ask (ta tr : string) (aa : list string) (ar : list (option string))
    (flag : bool) (r : res bool) (w w' w'' : world) :
    ask_user flag ta tr aa ar w = (r, w') ->
    later w' w'' -> later w w''
| later_match (da dr ta tr : option string) (aa : list string)
    (ar : list (option string)) (flag : bool) (r : res bool)
    (w w' w'' : world) :
    citation_matching ratio partial_ratio da dr ta tr aa ar flag w
    = (r, w') ->
    later w' w'' -> later w w''
| later_scan (article : Article) (rd rt : option string)
    (ra : list (option string)) (flag : bool) (candidates : list Article)
    (r : res (option Article)) (w w' w'' : world) :
    scan_candidates article rd rt ra flag candidates w = (r, w') ->
    later w' w'' -> later w w''
| later_refs (articles : list Article) (article : Article) (flag : bool)
    (edges : list edge) (refs : list biblStruct) (r : res (list edge))
    (w w' w'' : world) :
    process_refs articles article flag edges refs w = (r, w') ->
    later w' w'' -> later w w''
| later_edges (tei : string) (articles todo : list Article) (flag : bool)
    (edges : list edge) (r : res (list edge)) (w w' w'' : world) :
    add_edges tei articles flag edges todo w = (r, w') ->
    later w' w'' -> later w w''
| later_build (bib : list Article) (tei : string) (okeys flag : bool)
    (r : res graph) (w w' w'' : world) :
    build_graph_model bib tei okeys flag w = (r, w') ->
    later w' w'' -> later w w''.

End Builder.

(** ** A small bibliography to run the definitions on *)

Module Sample.

(** A stand-in for the two similarity functions: 100 on equal texts, 0
    otherwise. *)
Definition ratio (a b : string) : Z := if String.eqb a b then 100 else 0.

(** A stand-in for the digest. *)
Definition md5_hexdigest (key : string) : string :=
  "0cc175b9c0f1b6a831c399e269772661".

Definition saha : Article :=
  mkArticle "Saha et al (2013)"
    (TitleObj 1 (Some "Bootstrapping for {Numerical} {Open} {IE}"))
    (Some "Saha, Swarnadeep and Pal, Harinder")
    (YStr "2013") (Some "https://doi.org/10.1000/saha") (Some "pdfs/saha.pdf").

Definition madaan : Article :=
  mkArticle "Madaan and Mittal (2010)"
    (TitleObj 2 (Some "Numerical Relation Extraction with Minimal Supervision"))
    (Some "Madaan, Aman and Mittal, Ashish")
    (YStr "2010") None None.

(** An article whose TEI file does not exist. *)
Definition lost : Article :=
  mkArticle "Lost (2011)" (TitleObj 3 (Some "A Lost Paper"))
    (Some "Lost, Anna") (YStr "2011") None (Some "pdfs/lost.pdf").

(** An article whose TEI file holds a failure text. *)
Definition blank : Article :=
  mkArticle "Blank (2012)" (TitleObj 4 (Some "A Blank Paper"))
    (Some "Blank, Ben") (YStr "2012") None (Some "pdfs/blank.pdf").

(** An article without a year. *)
Definition undated : Article :=
  mkArticle "Undated" (TitleObj 5 (Some "An Undated Paper"))
    (Some "Nemo, Nina") YNull None None.

Definition bib : list Article := [saha; madaan].

Definition saha_tei : string := "<TEI>saha</TEI>".

Definition files : gmap string string :=
  <["tei/saha.tei.xml" := saha_tei]>
    (<["tei/blank.tei.xml" := no_blocks]> ∅).

(** The reference list of [saha]: one entry, which is [madaan]. *)
Definition madaan_ref : biblStruct :=
  BiblStruct (Some (Some "Numerical relation extraction with minimal supervision"))
    None [Some "Madaan"; Some "Mittal"].

Definition biblStructs (content : string) : res (list biblStruct) :=
  if String.eqb content saha_tei then Ok [madaan_ref] else Raise ParseError.

Definition w0 : world := World [] [] [].

Definition build (bib : list Article) (flag : bool) : M graph :=
  build_graph_model ratio ratio md5_hexdigest files biblStructs bib "tei"
    true flag.

Definition divider : event :=
  EvDivider "Build citation graph model from references in PDFs".

Definition the_graph : graph :=
  Graph [2013; 2010]
    (<[2013 := ["Saha et al (2013)"]]>
       (<[2012 := []]> (<[2011 := []]>
          (<[2010 := ["Madaan and Mittal (2010)"]]> ∅))))
    [ ArticleDict (Some "Bootstrapping for {Numerical} {Open} {IE}")
        ["Saha"; "Pal"] "Saha et al (2013)" (YStr "2013");
      ArticleDict
        (Some "Numerical Relation Extraction with Minimal Supervision")
        ["Madaan"; "Mittal"] "Madaan and Mittal (2010)" (YStr "2010") ]
    [ Edge "Saha et al (2013)" "Madaan and Mittal (2010)" ].

Definition the_world : world :=
  World [] []
    [ divider; EvPrint ""; EvText "Processing tei/saha.tei.xml" ].

(** A question, and a world in which the operator will answer [y]. *)
Definition q_title_art : string := "DEEP LEARNING FOR NLP".
Definition q_title_ref : string := "DEEP LEARNING FOR NLP: A SURVEY".
Definition w_yes : world := World [] ["y"; "n"] [].

End Sample.

(** ** Notions used to state further properties *)

(** The length of the longest prefix of [s] made of characters of the
    class. *)
Fixpoint run_length (c : ascii -> bool) (s : list ascii) : nat :=
  match s with
  | a :: s' => if c a then S (run_length c s') else 0%nat
  | [] => 0%nat
  end.

(** The pattern has no capturing group. *)
Fixpoint no_group (r : re) : bool :=
  match r with
  | Group _ => false
  | Seq r1 r2 | Alt r1 r2 => no_group r1 && no_group r2
  | _ => true
  end.

(** The text that [doi_pattern] describes: two digits, a dot, digits, a
    slash, characters that are not blanks. *)
Definition doi_shaped (d : list ascii) : Prop :=
  exists c1 c2 ds ns,
    d = c1 :: c2 :: "."%char :: ds ++ "/"%char :: ns
    /\ is_digit c1 = true /\ is_digit c2 = true
    /\ ds <> [] /\ forallb is_digit ds = true
    /\ ns <> [] /\ forallb is_nonspace ns = true.

(** The text ends here or goes on with a blank. *)
Definition blank_next (tail : list ascii) : Prop :=
  match tail with [] => True | a :: _ => is_space a = true end.

(** What the code can do to the world, one step after the other: write to
    the console or, when it may ask, take the next line of the input as the
    answer to a question that has no answer yet and record it. *)
Inductive runs (may_ask : bool) : world -> world -> Prop :=
| runs_done (w : world) : runs may_ask w w
| runs_write (e : event) (w w' : world) :
    runs may_ask (wrote e w) w' -> runs may_ask w w'
| runs_answer (q : question) (line : string) (lines : list string)
    (w w' : world) :
    may_ask = true ->
    lookup_answer q (user_answers w) = None ->
    stdin w = line :: lines ->
    runs may_ask
      (World (user_answers w ++ [(q, String.eqb line "y")]) lines (console w))
      w' ->
    runs may_ask w w'.

(** A computation that changes the world by such steps only, whether it
    returns or raises. *)
Definition steady {A : Type} (may_ask : bool) (c : M A) : Prop :=
  forall w r w', c w = (r, w') -> runs may_ask w w'.

Section Documents.

Variable files : gmap string string.
Variable biblStructs : string -> res (list biblStruct).

(** The references of the parsed document of an article: those of its TEI
    file when the article names a file, the TEI file exists, does not hold a
    failure text and parses; none otherwise. *)
Definition references_of (tei : string) (a : Article) : list biblStruct :=
  match file a with
  | None => []
  | Some f =>
      match files !! tei_path tei f with
      | None => []
      | Some c =>
          if bool_decide (c = no_blocks) || bool_decide (c = bad_input_data)
          then []
          else match biblStructs c with
               | Ok refs => refs
               | Raise _ => []
               end
      end
  end.

(** What the edge loop needs of an article in order not to raise: when the
    article names a file, either the TEI file is missing and the title is a
    string, or it holds a failure text, or it parses and every reference in
    it has a title element. *)
Definition document_ok (tei : string) (a : Article) : Prop :=
  forall f, file a = Some f ->
    match files !! tei_path tei f with
    | None => tval (title a) <> None
    | Some c =>
        c = no_blocks \/ c = bad_input_data
        \/ exists refs,
             biblStructs c = Ok refs
             /\ Forall (fun ref => bs_title ref <> None) refs
    end.

(** Every surname element in the parsed document of the article has
    text. *)
Definition surnames_ok (tei : string) (a : Article) : Prop :=
  Forall (fun ref => None ∉ bs_surnames ref) (references_of tei a).

End Documents.

(** The entry of the graph for an article. *)
Definition mirrors (a : Article) (d : article_dict) : Prop :=
  a_key d = bibtex_key a /\ a_title d = tval (title a) /\ a_year d = year a
  /\ exists s, author a = Some s /\ a_author d = find_author s.

(** A result with [f] applied to the value, an exception as it is. *)
Definition on_ok {A B : Type} (f : A -> B) (r : res A) : res B :=
  match r with
  | Ok a => Ok (f a)
  | Raise e => Raise e
  end.

Definition rename_dict (f : string -> string) (d : article_dict)
    : article_dict :=
  ArticleDict (a_title d) (a_author d) (f (a_key d)) (a_year d).

Definition rename_edge (f : string -> string) (e : edge) : edge :=
  Edge (f (e_from e)) (f (e_to e)).

(** The graph with every key passed through [f]. *)
Definition rename_graph (f : string -> string) (g : graph) : graph :=
  Graph (g_years g) (map f <$> g_year_arts g)
    (map (rename_dict f) (g_articles g)) (map (rename_edge f) (g_edges g)).

(** ** A second sample: a reference the operator is asked about *)

Module Desk.

(** An article whose document cites [Sample.madaan] under another
    surname. *)
Definition review : Article :=
  mkArticle "Review (2014)" (TitleObj 6 (Some "A Review"))
    (Some "Roe, Ria") (YStr "2014") None (Some "pdfs/review.pdf").

Definition review_tei : string := "<TEI>review</TEI>".

Definition files : gmap string string :=
  <["tei/review.tei.xml" := review_tei]> Sample.files.

Definition doubtful_ref : biblStruct :=
  BiblStruct
    (Some (Some "Numerical Relation Extraction with Minimal Supervision"))
    None [Some "Smith"].

(** A reference whose title element is empty and that has no DOI. *)
Definition untitled_ref : biblStruct :=
  BiblStruct (Some None) None [Some "Smith"].

Definition biblStructs (content : string) : res (list biblStruct) :=
  if String.eqb content review_tei then Ok [untitled_ref; doubtful_ref]
  else Sample.biblStructs content.

Definition bib : list Article := [review; Sample.madaan; Sample.blank].

(** A second entry for the paper of [Sample.madaan], under another key. *)
Definition twin : Article :=
  mkArticle "Twin (2010)" (TitleObj 9 (tval (title Sample.madaan)))
    (author Sample.madaan) (YStr "2010") None None.


Definition build (flag : bool) : M graph :=
  build_graph_model Sample.ratio Sample.ratio Sample.md5_hexdigest files
    biblStructs bib "tei" true flag.

End Desk.

(** * Properties *)

(** ** Match decision *)

Section MatchingFacts.

Variable ratio : string -> string -> Z.
Variable partial_ratio : string -> string -> Z.

Lemma doi_match_same (d : string) : doi_match (Some d) (Some d) = true.
Proof.
  unfold doi_match.
  rewrite !bool_decide_eq_true_2; [reflexivity | discriminate ..| reflexivity].
Qed.

Lemma doi_match_true (a b : option string) :
  doi_match a b = true <-> exists d, a = Some d /\ b = Some d.
Proof.
  unfold doi_match. split.
  - intros H. apply andb_prop in H as [H Hb]. apply andb_prop in H as [He Ha].
    apply bool_decide_eq_true_1 in He, Ha, Hb.
    destruct a as [d|]; [|congruence]. exists d. split; congruence.
  - intros (d & -> & ->). apply doi_match_same.
Qed.

Lemma ask_user_auto (ta tr : string) (aa : list string)
    (ar : list (option string)) (w : world) :
  ask_user true ta tr aa ar w = (Ok false, w).
Proof. reflexivity. Qed.

(** What [ask_user] does in the interactive mode, by the state of the
    answers. *)
Lemma ask_user_cached (ta tr : string) (aa : list string)
    (ar : list (option string)) (w : world) (a : bool) :
  lookup_answer (ta, tr, aa, ar) (user_answers w) = Some a ->
  ask_user false ta tr aa ar w = (Ok a, w).
Proof.
  intros H. unfold ask_user, bind, get_user_answers. rewrite H. reflexivity.
Qed.

Lemma ask_user_fresh (ta tr : string) (aa : list string)
    (ar : list (option string)) (w : world) :
  lookup_answer (ta, tr, aa, ar) (user_answers w) = None ->
  ask_user false ta tr aa ar w =
    match stdin w with
    | [] =>
        (Raise EOFError,
         World (user_answers w) []
           (console w ++ prompt_events (ta, tr, aa, ar)))
    | line :: lines =>
        (Ok (String.eqb line "y"),
         World (user_answers w ++ [((ta, tr, aa, ar), String.eqb line "y")])
           lines (console w ++ prompt_events (ta, tr, aa, ar)))
    end.
Proof.
  intros H. unfold ask_user, bind, get_user_answers. rewrite H.
  unfold emit, input, append_answer, ret, prompt_events. cbn.
  rewrite <- !app_assoc. cbn.
  destruct (stdin w) as [|line lines]; [reflexivity|].
  destruct (String.eqb line "y"); reflexivity.
Qed.

Lemma lookup_answer_app (q : question) (l1 l2 : list (question * bool))
    (a : bool) :
  lookup_answer q l1 = Some a -> lookup_answer q (l1 ++ l2) = Some a.
Proof.
  induction l1 as [|[q' b] l1 IH]; cbn; [discriminate|].
  destruct (decide (q' = q)); auto.
Qed.

Lemma lookup_answer_snoc (q : question) (l : list (question * bool))
    (a : bool) :
  lookup_answer q l = None -> lookup_answer q (l ++ [(q, a)]) = Some a.
Proof.
  induction l as [|[q' b] l IH]; cbn.
  - intros _. destruct (decide (q = q)); congruence.
  - destruct (decide (q' = q)); [discriminate | auto].
Qed.

(** [ask_user] only ever appends to [user_answers]. *)
Lemma ask_user_answers_grow (flag : bool) (ta tr : string)
    (aa : list string) (ar : list (option string)) (w w' : world)
    (r : res bool) :
  ask_user flag ta tr aa ar w = (r, w') ->
  exists more, user_answers w' = user_answers w ++ more.
Proof.
  destruct flag.
  - rewrite ask_user_auto. intros [= _ <-]. exists []. by rewrite app_nil_r.
  - destruct (lookup_answer (ta, tr, aa, ar) (user_answers w)) as [a|] eqn:E.
    + rewrite (ask_user_cached _ _ _ _ _ _ E). intros [= _ <-].
      exists []. by rewrite app_nil_r.
    + rewrite (ask_user_fresh _ _ _ _ _ E).
      destruct (stdin w); intros [= _ <-]; cbn; eauto.
      exists []. by rewrite app_nil_r.
Qed.

Lemma citation_matching_answers_grow (da dr ta tr : option string)
    (aa : list string) (ar : list (option string)) (flag : bool)
    (w w' : world) (r : res bool) :
  citation_matching ratio partial_ratio da dr ta tr aa ar flag w = (r, w') ->
  exists more, user_answers w' = user_answers w ++ more.
Proof.
  unfold citation_matching.
  assert (Hret : forall x : res bool, (x, w) = (r, w') ->
            exists more, user_answers w' = user_answers w ++ more).
  { intros x [= _ <-]. exists []. by rewrite app_nil_r. }
  destruct (doi_match _ _); [by apply (Hret (Ok true))|].
  destruct ta as [ta|], tr as [tr|]; try by apply (Hret (Ok false)).
  destruct (titles_match _ _).
  - unfold bind, lift.
    destruct (find_matching_authors _ _ _) as [[counter number]|e];
      [|by apply (Hret (Raise e))].
    destruct (2 <=? counter);
      [by apply (Hret (Ok true)) | apply ask_user_answers_grow].
  - destruct (titles_unsure _ _);
      [apply ask_user_answers_grow | by apply (Hret (Ok false))].
Qed.

(** C1. When [find_doi] succeeds on the DOI field of the article and on
    that of the reference and gives the same DOI, [citation_matching]
    returns [True] and leaves the world as it is, whatever the titles, the
    author lists, the mode and the similarity functions are. *)
Theorem doi_equality_decides (da dr ta tr : option string)
    (aa : list string) (ar : list (option string)) (flag : bool)
    (w : world) (d : string) :
  find_doi da = Some d ->
  find_doi dr = Some d ->
  citation_matching ratio partial_ratio da dr ta tr aa ar flag w
    = (Ok true, w).
Proof.
  intros Ha Hr. unfold citation_matching. rewrite Ha, Hr, doi_match_same.
  reflexivity.
Qed.

(** C2. When the DOI step does not match and both titles are strings, the
    decision follows the two ratios of the cleaned titles and the author
    score: a match when the titles match and the score is at least 2; the
    answer of [ask_user] when the titles match with a lower score, and when
    they do not match but the partial ratio exceeds 90 and the full ratio
    60; no match otherwise. When the titles match and the author matcher
    raises, at a surname without text, the exception is passed on. *)
Theorem title_decision_table (da dr : option string) (ta tr : string)
    (aa : list string) (ar : list (option string)) (flag : bool) (w : world) :
  doi_match (find_doi da) (find_doi dr) = false ->
  let ca := upper (remove_char "}" (remove_char "{" ta)) in
  let cr := upper (remove_char "}" (remove_char "{" tr)) in
  let full := ratio ca cr in
  let partial := partial_ratio ca cr in
  let authors := find_matching_authors ratio aa ar in
  let result :=
    citation_matching ratio partial_ratio da dr (Some ta) (Some tr) aa ar
      flag w in
  let title_ok := full > 90 \/ (partial > 95 /\ full > 70) in
  (title_ok -> forall score number, authors = Ok (score, number) ->
     score >= 2 -> result = (Ok true, w)) /\
  (title_ok -> forall score number, authors = Ok (score, number) ->
     score < 2 -> result = ask_user flag ca cr aa ar w) /\
  (title_ok -> forall e, authors = Raise e -> result = (Raise e, w)) /\
  (~ title_ok -> partial > 90 /\ full > 60 ->
     result = ask_user flag ca cr aa ar w) /\
  (~ title_ok -> ~ (partial > 90 /\ full > 60) -> result = (Ok false, w)).
Proof.
  intros Hdoi ca cr full partial authors result title_ok.
  assert (Ht : titles_match full partial = true <-> title_ok).
  { unfold titles_match, title_ok.
    rewrite orb_true_iff, andb_true_iff, !Z.ltb_lt. lia. }
  assert (Hu : titles_unsure full partial = true <->
               partial > 90 /\ full > 60).
  { unfold titles_unsure. rewrite andb_true_iff, !Z.ltb_lt. lia. }
  assert (Hres : result =
    if titles_match full partial then
      match authors with
      | Ok (score, _) =>
          if 2 <=? score then (Ok true, w) else ask_user flag ca cr aa ar w
      | Raise e => (Raise e, w)
      end
    else if titles_unsure full partial then ask_user flag ca cr aa ar w
    else (Ok false, w)).
  { unfold result, citation_matching. rewrite Hdoi.
    fold (clean_title ta) (clean_title tr).
    change (clean_title ta) with ca. change (clean_title tr) with cr.
    fold full partial. fold authors.
    destruct (titles_match full partial).
    - unfold bind, lift. destruct authors as [[counter number]|e];
        [|reflexivity].
      destruct (2 <=? counter); reflexivity.
    - destruct (titles_unsure full partial); reflexivity. }
  rewrite Hres. repeat split.
  - intros H1 score number -> H2. apply Ht in H1. rewrite H1.
    destruct (Z.leb_spec 2 score); [reflexivity | lia].
  - intros H1 score number -> H2. apply Ht in H1. rewrite H1.
    destruct (Z.leb_spec 2 score); [lia | reflexivity].
  - intros H1 e ->. apply Ht in H1. by rewrite H1.
  - intros H1 H2. destruct (titles_match full partial).
    + exfalso. apply H1, Ht. reflexivity.
    + apply Hu in H2. rewrite H2. reflexivity.
  - intros H1 H2. destruct (titles_match full partial).
    + exfalso. apply H1, Ht. reflexivity.
    + destruct (titles_unsure full partial); [|reflexivity].
      exfalso. apply H2, Hu. reflexivity.
Qed.

(** C3. In the automated mode [ask_user] answers [False] to every question
    and touches nothing: no prompt is written, no line is read, no answer
    is stored. Hence [citation_matching] never changes the world in that
    mode, and it reports a match only for equal DOIs or for matching titles
    with an author score of at least 2: every pair it would have asked
    about is no match. The one exception it can raise is that of the author
    matcher, at a surname without text. *)
Theorem automated_mode_never_asks (da dr ta tr : option string)
    (aa : list string) (ar : list (option string)) (w : world) :
  (forall (qa qr : string) (la : list string) (lr : list (option string)),
     ask_user true qa qr la lr w = (Ok false, w)) /\
  citation_matching ratio partial_ratio da dr ta tr aa ar true w =
    (if doi_match (find_doi da) (find_doi dr) then Ok true
     else
       match ta, tr with
       | Some ta, Some tr =>
           if titles_match (ratio (clean_title ta) (clean_title tr))
                (partial_ratio (clean_title ta) (clean_title tr))
           then
             match find_matching_authors ratio aa ar with
             | Ok (counter, _) => Ok (2 <=? counter)
             | Raise e => Raise e
             end
           else Ok false
       | _, _ => Ok false
       end, w).
Proof.
  split; [intros; apply ask_user_auto|].
  unfold citation_matching.
  destruct (doi_match _ _); [reflexivity|].
  destruct ta as [ta|], tr as [tr|]; try reflexivity.
  destruct (titles_match _ _).
  - unfold bind, lift.
    destruct (find_matching_authors ratio aa ar) as [[counter number]|e];
      [|reflexivity].
    destruct (2 <=? counter); reflexivity.
  - destruct (titles_unsure _ _); reflexivity.
Qed.

End MatchingFacts.

(** ** Year index *)

Section YearFacts.

Lemma collect_years_elem (articles : list Article) (years : list Z) :
  collect_years articles = Ok years ->
  forall z, z ∈ years <->
    exists a, a ∈ articles /\ year a <> YNull /\ py_int (year a) = Ok z.
Proof.
  revert years. induction articles as [|a l IH]; cbn; intros years H z.
  - injection H as <-. split; [intros Hz; inversion Hz|].
    intros (a & Ha & _). inversion Ha.
  - destruct (year a) eqn:Ey.
    + rewrite (IH _ H z). split.
      * intros (b & Hb & Hn & Hi). exists b. split; [by right | done].
      * intros (b & Hb & Hn & Hi). exists b.
        apply elem_of_cons in Hb as [-> | Hb]; [congruence | done].
    + cbn in H. destruct (collect_years l) as [zs|e]; [|discriminate].
      injection H as <-. rewrite elem_of_cons, (IH zs eq_refl z). split.
      * intros [-> | (b & Hb & Hn & Hi)].
        -- exists a. rewrite Ey. repeat split; [by left | discriminate].
        -- exists b. split; [by right | done].
      * intros (b & Hb & Hn & Hi).
        apply elem_of_cons in Hb as [-> | Hb]; [|right; by exists b].
        left. rewrite Ey in Hi. cbn in Hi. congruence.
    + cbn in H. destruct (int_of_string s) as [z0|] eqn:Es; [|discriminate].
      destruct (collect_years l) as [zs|e]; [|discriminate].
      injection H as <-. rewrite elem_of_cons, (IH zs eq_refl z). split.
      * intros [-> | (b & Hb & Hn & Hi)].
        -- exists a. rewrite Ey. cbn. rewrite Es.
           repeat split; [by left | discriminate].
        -- exists b. split; [by right | done].
      * intros (b & Hb & Hn & Hi).
        apply elem_of_cons in Hb as [-> | Hb]; [|right; by exists b].
        left. rewrite Ey in Hi. cbn in Hi. rewrite Es in Hi. congruence.
Qed.

Lemma this_year_arts_ok (y : Z) (articles : list Article)
    (ks : list string) :
  this_year_arts y articles = Ok ks ->
  ks = map bibtex_key (List.filter (has_year y) articles)
  /\ Forall year_converts articles.
Proof.
  revert ks. induction articles as [|a l IH]; cbn; intros ks H.
  - injection H as <-. split; [reflexivity | constructor].
  - unfold has_year at 1.
    destruct (py_int (year a)) as [z|e] eqn:Ei; [|discriminate].
    destruct (this_year_arts y l) as [ks'|e]; [|discriminate].
    injection H as <-. destruct (IH ks' eq_refl) as [-> Hall].
    split; [|constructor; [by exists z | done]].
    destruct (z =? y); reflexivity.
Qed.

Lemma this_year_arts_total (y : Z) (articles : list Article) :
  Forall year_converts articles ->
  this_year_arts y articles
    = Ok (map bibtex_key (List.filter (has_year y) articles)).
Proof.
  induction 1 as [|a l [z Hz] _ IH]; cbn; [reflexivity|].
  unfold has_year at 1. rewrite Hz, IH. destruct (z =? y); reflexivity.
Qed.

Lemma this_year_arts_fails (y : Z) (articles : list Article) :
  ~ Forall year_converts articles ->
  exists e, this_year_arts y articles = Raise e
            /\ (e = TypeError \/ e = ValueError).
Proof.
  induction articles as [|a l IH]; intros Hn.
  - exfalso. apply Hn. constructor.
  - cbn. destruct (py_int (year a)) as [z|e] eqn:Ei.
    + destruct IH as (e & -> & He).
      { intros Hl. apply Hn. constructor; [by exists z | done]. }
      by exists e.
    + exists e. split; [reflexivity|].
      destruct (year a) as [| |s]; cbn in Ei; try discriminate.
      * left. congruence.
      * destruct (int_of_string s); [discriminate|]. right. congruence.
Qed.

Lemma fill_year_arts_lookup (articles : list Article) (ys : list Z)
    (m m' : gmap Z (list string)) :
  fill_year_arts articles ys m = Ok m' ->
  forall y,
    m' !! y =
      if decide (y ∈ ys)
      then Some (map bibtex_key (List.filter (has_year y) articles))
      else m !! y.
Proof.
  revert m. induction ys as [|y0 ys IH]; cbn; intros m H y.
  - injection H as <-. destruct (decide (y ∈ [])) as [Hin|]; [|reflexivity].
    inversion Hin.
  - destruct (this_year_arts y0 articles) as [ks|e] eqn:Ek; [|discriminate].
    apply this_year_arts_ok in Ek as [-> _].
    rewrite (IH _ H y).
    destruct (decide (y ∈ ys)) as [Hin|Hnin].
    + rewrite decide_True; [reflexivity | by right].
    + destruct (decide (y = y0)) as [->|Hne].
      * rewrite decide_True by (by left). by rewrite lookup_insert_eq.
      * rewrite decide_False.
        -- by rewrite lookup_insert_ne.
        -- intros Hin. apply elem_of_cons in Hin as [?|?]; done.
Qed.

Lemma fill_year_arts_total (articles : list Article) (ys : list Z)
    (m : gmap Z (list string)) :
  Forall year_converts articles ->
  exists m', fill_year_arts articles ys m = Ok m'.
Proof.
  intros Hall. revert m. induction ys as [|y ys IH]; cbn; intros m.
  - by exists m.
  - rewrite (this_year_arts_total _ _ Hall). apply IH.
Qed.

Lemma fold_min_spec (l : list Z) (z : Z) :
  let lo := fold_left Z.min l z in
  lo ∈ z :: l /\ forall x, x ∈ z :: l -> lo <= x.
Proof.
  revert z. induction l as [|y l IH]; cbn; intros z.
  - split; [by left|]. intros x Hx. apply list_elem_of_singleton in Hx. lia.
  - destruct (IH (Z.min z y)) as [Hin Hle]. split.
    + apply elem_of_cons in Hin as [Heq | Hin].
      * rewrite Heq. destruct (Z.min_spec z y) as [[_ ->] | [_ ->]];
          [by left | right; by left].
      * right. by right.
    + intros x Hx. apply elem_of_cons in Hx as [-> | Hx].
      * specialize (Hle (Z.min z y) ltac:(by left)). lia.
      * apply elem_of_cons in Hx as [-> | Hx].
        -- specialize (Hle (Z.min z y) ltac:(by left)). lia.
        -- apply Hle. by right.
Qed.

Lemma fold_max_spec (l : list Z) (z : Z) :
  let hi := fold_left Z.max l z in
  hi ∈ z :: l /\ forall x, x ∈ z :: l -> x <= hi.
Proof.
  revert z. induction l as [|y l IH]; cbn; intros z.
  - split; [by left|]. intros x Hx. apply list_elem_of_singleton in Hx. lia.
  - destruct (IH (Z.max z y)) as [Hin Hle]. split.
    + apply elem_of_cons in Hin as [Heq | Hin].
      * rewrite Heq. destruct (Z.max_spec z y) as [[_ ->] | [_ ->]];
          [right; by left | by left].
      * right. by right.
    + intros x Hx. apply elem_of_cons in Hx as [-> | Hx].
      * specialize (Hle (Z.max z y) ltac:(by left)). lia.
      * apply elem_of_cons in Hx as [-> | Hx].
        -- specialize (Hle (Z.max z y) ltac:(by left)). lia.
        -- apply Hle. by right.
Qed.

Lemma py_range_elem (lo hi y : Z) :
  y ∈ py_range lo (hi + 1) <-> lo <= y <= hi.
Proof. unfold py_range. rewrite elem_of_seqZ. lia. Qed.

End YearFacts.

(** ** The build as a whole *)

Section BuildFacts.

Variable ratio : string -> string -> Z.
Variable partial_ratio : string -> string -> Z.
Variable md5_hexdigest : string -> string.
Variable files : gmap string string.
Variable biblStructs : string -> res (list biblStruct).

Abbreviation build := (build_graph_model ratio partial_ratio md5_hexdigest files
                     biblStructs).
Abbreviation convert := (convert_key md5_hexdigest).

Lemma year_convert_key (b : bool) (a : Article) :
  year (convert b a) = year a.
Proof. destruct b; reflexivity. Qed.

Lemma year_converts_convert (b : bool) (bib : list Article) :
  Forall year_converts (map (convert b) bib) <-> Forall year_converts bib.
Proof.
  rewrite Forall_map. apply Forall_iff. intros a. unfold year_converts. cbn.
  by rewrite year_convert_key.
Qed.

(** The phases of a build that returns a graph. *)
Lemma build_ok (bib : list Article) (tei : string) (okeys flag : bool)
    (w w' : world) (g : graph) :
  build bib tei okeys flag w = (Ok g, w') ->
  let articles := map (convert okeys) bib in
  exists years year_arts dicts edges,
    collect_years articles = Ok years
    /\ build_year_arts articles years = Ok year_arts
    /\ build_articles articles = Ok dicts
    /\ add_edges ratio partial_ratio files biblStructs tei articles flag []
         articles (started w) = (Ok edges, w')
    /\ g = Graph years year_arts dicts edges.
Proof.
  unfold build_graph_model, bind, emit, lift, ret. cbn. fold (started w).
  destruct (collect_years _) as [years|e] eqn:Ey; [|discriminate].
  destruct (build_year_arts _ years) as [ya|e] eqn:Eya; [|discriminate].
  destruct (build_articles _) as [dicts|e] eqn:Ed; [|discriminate].
  destruct (add_edges _ _ _ _ _ _ _ _ _ _) as [[edges|e] w1] eqn:Ee;
    [|discriminate].
  intros [= <- <-]. by exists years, ya, dicts, edges.
Qed.

Lemma build_year_arts_ok (articles : list Article) (years : list Z)
    (m : gmap Z (list string)) :
  build_year_arts articles years = Ok m ->
  exists lo hi,
    (lo ∈ years /\ forall z, z ∈ years -> lo <= z)
    /\ (hi ∈ years /\ forall z, z ∈ years -> z <= hi)
    /\ Forall year_converts articles
    /\ forall y,
         m !! y =
           if decide (lo <= y <= hi)
           then Some (map bibtex_key (List.filter (has_year y) articles))
           else None.
Proof.
  unfold build_year_arts. destruct years as [|z0 zs]; [discriminate|]. cbn.
  set (lo := fold_left Z.min zs z0). set (hi := fold_left Z.max zs z0).
  intros H. exists lo, hi.
  split; [apply fold_min_spec|]. split; [apply fold_max_spec|].
  assert (Hlohi : lo <= hi).
  { destruct (fold_min_spec zs z0) as [Hin Hle].
    destruct (fold_max_spec zs z0) as [_ Hge].
    apply Hge, Hin. }
  split.
  - unfold py_range in H.
    destruct (seqZ lo (hi + 1 - lo)) as [|y ys] eqn:Es.
    + apply (f_equal length) in Es. rewrite length_seqZ in Es. cbn in Es. lia.
    + cbn in H. destruct (this_year_arts y articles) as [ks|e] eqn:Ek;
        [|discriminate].
      by apply this_year_arts_ok in Ek as [_ ?].
  - intros y. rewrite (fill_year_arts_lookup _ _ _ _ H y), lookup_empty.
    destruct (decide (lo <= y <= hi)) as [Hy|Hy].
    + rewrite decide_True; [reflexivity | by apply py_range_elem].
    + rewrite decide_False; [reflexivity | by rewrite py_range_elem].
Qed.

(** C7. In the graph of a completed build the year index has an entry for
    exactly the years from the smallest to the largest year of the
    articles, the entry of a year lists the keys of the articles of that
    year, and a year of the range without articles has the empty list. *)
Theorem year_index_covers_range (bib : list Article) (tei : string)
    (okeys flag : bool) (w w' : world) (g : graph) :
  build bib tei okeys flag w = (Ok g, w') ->
  let articles := map (convert okeys) bib in
  exists y_min y_max : Z,
    (forall z, z ∈ g_years g <->
               exists a, a ∈ articles /\ py_int (year a) = Ok z)
    /\ (y_min ∈ g_years g /\ forall z, z ∈ g_years g -> y_min <= z)
    /\ (y_max ∈ g_years g /\ forall z, z ∈ g_years g -> z <= y_max)
    /\ (forall y, is_Some (g_year_arts g !! y) <-> y_min <= y <= y_max)
    /\ (forall y, y_min <= y <= y_max ->
          g_year_arts g !! y
            = Some (map bibtex_key (List.filter (has_year y) articles)))
    /\ (forall y, y_min <= y <= y_max ->
          (forall a, a ∈ articles -> py_int (year a) <> Ok y) ->
          g_year_arts g !! y = Some []).
Proof.
  intros H articles.
  apply build_ok in H as (years & ya & dicts & edges & Hy & Hya & _ & _ & ->).
  fold articles in Hy, Hya. cbn.
  apply build_year_arts_ok in Hya as (lo & hi & Hlo & Hhi & Hall & Hlook).
  exists lo, hi. split; [|split; [done|split; [done|]]].
  - intros z. rewrite (collect_years_elem _ _ Hy z). split.
    + intros (a & Ha & _ & Hi). by exists a.
    + intros (a & Ha & Hi). exists a. repeat split; try done.
      intros Hn. rewrite Hn in Hi. discriminate.
  - assert (Hin : forall y, lo <= y <= hi ->
              ya !! y
                = Some (map bibtex_key (List.filter (has_year y) articles))).
    { intros y Hr. rewrite Hlook. by rewrite decide_True. }
    split; [|split; [exact Hin|]].
    + intros y. rewrite Hlook. destruct (decide (lo <= y <= hi)) as [Hr|Hr].
      * split; [done | by eexists].
      * split; [intros [? ?]; discriminate | done].
    + intros y Hr Hnone. rewrite (Hin y Hr). f_equal.
      assert (E : List.filter (has_year y) articles = []); [|by rewrite E].
      assert (Hsub : forall a, a ∈ articles -> has_year y a = false).
      { intros a Ha. unfold has_year. specialize (Hnone a Ha).
        destruct (py_int (year a)) as [z|]; [|reflexivity].
        destruct (Z.eqb_spec z y); [congruence | reflexivity]. }
      clear -Hsub. induction articles as [|a l IH]; [reflexivity|]. cbn.
      rewrite (Hsub a) by (by left). apply IH. intros b Hb. apply Hsub.
      by right.
Qed.

Lemma collect_years_null (articles : list Article) :
  Forall (fun a => year a = YNull) articles -> collect_years articles = Ok [].
Proof. induction 1 as [|a l Ha _ IH]; cbn; [done|]. by rewrite Ha. Qed.

Lemma collect_years_fails (articles : list Article) (e : exn) :
  collect_years articles = Raise e -> e = ValueError.
Proof.
  induction articles as [|a l IH]; cbn; [discriminate|].
  destruct (year a) as [|z|s]; [exact IH| |]; cbn.
  - destruct (collect_years l); [discriminate|]. intros [= <-]. by apply IH.
  - destruct (int_of_string s); [|congruence].
    destruct (collect_years l); [discriminate|]. intros [= <-]. by apply IH.
Qed.

Lemma build_year_arts_fails (articles : list Article) (years : list Z) :
  ~ Forall year_converts articles ->
  exists e, build_year_arts articles years = Raise e
            /\ (e = TypeError \/ e = ValueError).
Proof.
  intros Hn. unfold build_year_arts. destruct years as [|z0 zs]; cbn.
  - exists ValueError. by split; [|right].
  - set (lo := fold_left Z.min zs z0). set (hi := fold_left Z.max zs z0).
    assert (Hlohi : lo <= hi).
    { destruct (fold_min_spec zs z0) as [Hin Hle].
      destruct (fold_max_spec zs z0) as [_ Hge].
      apply Hge, Hin. }
    unfold py_range. destruct (seqZ lo (hi + 1 - lo)) as [|y ys] eqn:Es.
    + apply (f_equal length) in Es. rewrite length_seqZ in Es. cbn in Es. lia.
    + cbn. destruct (this_year_arts_fails y articles Hn) as (e & -> & He).
      by exists e.
Qed.

(** C10. The build returns only for a non-empty bibliography in which
    [int] accepts the year of every article. An article whose year is
    [None] makes it raise, with a [TypeError] or a [ValueError], and so
    does a bibliography without any year, with the [ValueError] of [min] on
    an empty list; in both cases nothing but the opening divider has
    happened. *)
Theorem build_needs_every_year (bib : list Article) (tei : string)
    (okeys flag : bool) (w : world) :
  (forall g w', build bib tei okeys flag w = (Ok g, w') ->
     bib <> [] /\ Forall year_converts bib)
  /\ (Exists (fun a => year a = YNull) bib ->
      exists e, build bib tei okeys flag w = (Raise e, started w)
                /\ (e = TypeError \/ e = ValueError))
  /\ (Forall (fun a => year a = YNull) bib ->
      build bib tei okeys flag w = (Raise ValueError, started w)).
Proof.
  split; [|split].
  - intros g w' H.
    apply build_ok in H as (years & ya & _ & _ & Hy & Hya & _).
    apply build_year_arts_ok in Hya as (lo & _ & [Hlo _] & _ & Hall & _).
    split; [|by apply year_converts_convert in Hall].
    intros ->. cbn in Hy. injection Hy as <-. inversion Hlo.
  - intros Hex.
    assert (Hn : ~ Forall year_converts (map (convert okeys) bib)).
    { rewrite year_converts_convert. intros Hall.
      apply Exists_exists in Hex as (a & Ha & Hnull).
      rewrite Forall_forall in Hall. destruct (Hall a) as [z Hz].
      - done.
      - rewrite Hnull in Hz. discriminate. }
    unfold build_graph_model, bind, emit, lift. cbn. fold (started w).
    destruct (collect_years _) as [years|e] eqn:Ey.
    + destruct (build_year_arts_fails _ years Hn) as (e & -> & He).
      by exists e.
    + exists e. split; [reflexivity|]. right. by eapply collect_years_fails.
  - intros Hall.
    unfold build_graph_model, bind, emit, lift. cbn. fold (started w).
    rewrite collect_years_null; [reflexivity|].
    rewrite Forall_map. eapply Forall_impl; [exact Hall|].
    intros a Ha. cbn. by rewrite year_convert_key.
Qed.

End BuildFacts.

(** ** Edges *)

Section EdgeFacts.

Variable ratio : string -> string -> Z.
Variable partial_ratio : string -> string -> Z.
Variable files : gmap string string.
Variable biblStructs : string -> res (list biblStruct).

Abbreviation scan := (scan_candidates ratio partial_ratio).
Abbreviation matching := (citation_matching ratio partial_ratio).

Lemma scan_app (article : Article) (rd rt : option string)
    (ra : list (option string)) (flag : bool) (l1 l2 : list Article)
    (w : world) :
  scan article rd rt ra flag (l1 ++ l2) w =
    match scan article rd rt ra flag l1 w with
    | (Ok None, w1) => scan article rd rt ra flag l2 w1
    | r => r
    end.
Proof.
  revert w. induction l1 as [|c l1 IH]; intros w; [reflexivity|].
  cbn. unfold bind, lift.
  destruct (find_author_field (author c)) as [au|e]; [|reflexivity].
  destruct (py_is (title c) (title article)); [apply IH|].
  destruct (matching _ _ _ _ _ _ _ w) as [[[|]|e] w1]; try reflexivity.
  apply IH.
Qed.

Abbreviation passed := (passed_over ratio partial_ratio).

(** The scan finds nothing exactly when every candidate is passed over. *)
Lemma scan_none (article : Article) (rd rt : option string)
    (ra : list (option string)) (flag : bool) (l : list Article)
    (w w' : world) :
  scan article rd rt ra flag l w = (Ok None, w') <->
  passed article rd rt ra flag l w w'.
Proof.
  split.
  - revert w. induction l as [|c l IH]; intros w.
    + intros [= <-]. constructor.
    + cbn. unfold bind, lift.
      destruct (find_author_field (author c)) as [au|e] eqn:Ea;
        [|discriminate].
      destruct (py_is (title c) (title article)) eqn:Ei.
      * intros H. eapply passed_self; [done..|by apply IH].
      * destruct (matching _ _ _ _ _ _ _ w) as [[[|]|e] w1] eqn:Em;
          try discriminate.
        intros H. eapply passed_other; [done..|by apply IH].
  - induction 1 as [w | c l au w w' Ea Ei _ IH
                      | c l au w w1 w' Ea Ei Em _ IH]; [done|..];
      cbn; unfold bind, lift; rewrite Ea, Ei; [done|]. by rewrite Em.
Qed.

Lemma scan_found (article : Article) (rd rt : option string)
    (ra : list (option string)) (flag : bool) (l : list Article) (w w' : world)
    (art : Article) :
  scan article rd rt ra flag l w = (Ok (Some art), w') ->
  exists pre post w1 au,
    l = pre ++ art :: post
    /\ scan article rd rt ra flag pre w = (Ok None, w1)
    /\ py_is (title art) (title article) = false
    /\ find_author_field (author art) = Ok au
    /\ matching (doi art) rd (tval (title art)) rt au ra flag w1
         = (Ok true, w').
Proof.
  revert w. induction l as [|c l IH]; intros w; [discriminate|].
  cbn. unfold bind, lift.
  destruct (find_author_field (author c)) as [au|e] eqn:Ea; [|discriminate].
  destruct (py_is (title c) (title article)) eqn:Ei.
  - intros H. destruct (IH _ H) as (pre & post & w1 & au' & -> & Hs & Hr).
    exists (c :: pre), post, w1, au'. split; [reflexivity|]. split; [|done].
    cbn. unfold bind, lift. by rewrite Ea, Ei.
  - destruct (matching _ _ _ _ _ _ _ w) as [[[|]|e] w1] eqn:Em;
      try discriminate.
    + intros [= <- <-]. exists [], l, w, au. by repeat split.
    + intros H. destruct (IH _ H) as (pre & post & w2 & au' & -> & Hs & Hr).
      exists (c :: pre), post, w2, au'. split; [reflexivity|]. split; [|done].
      cbn. unfold bind, lift. by rewrite Ea, Ei, Em.
Qed.

(** The scan does not look past the first match. *)
Lemma scan_stops (article : Article) (rd rt : option string)
    (ra : list (option string)) (flag : bool) (pre post : list Article)
    (w w1 w' : world) (art : Article) (au : list string) :
  scan article rd rt ra flag pre w = (Ok None, w1) ->
  py_is (title art) (title article) = false ->
  find_author_field (author art) = Ok au ->
  matching (doi art) rd (tval (title art)) rt au ra flag w1 = (Ok true, w') ->
  scan article rd rt ra flag (pre ++ art :: post) w = (Ok (Some art), w').
Proof.
  intros Hs Hi Ha Hm. rewrite scan_app, Hs. cbn. unfold bind, lift.
  by rewrite Ha, Hi, Hm.
Qed.

Abbreviation one_ref := (process_ref ratio partial_ratio).
Abbreviation one_article :=
  (process_article ratio partial_ratio files biblStructs).
Abbreviation all_articles :=
  (add_edges ratio partial_ratio files biblStructs).

(** The four loops and the relations that describe them. *)
Lemma process_ref_rel (articles : list Article) (article : Article)
    (flag : bool) (edges edges' : list edge) (ref : biblStruct)
    (w w' : world) :
  one_ref articles article flag edges ref w = (Ok edges', w') <->
  exists es,
    edges' = edges ++ es
    /\ ref_adds ratio partial_ratio articles article flag ref w es w'.
Proof.
  unfold process_ref, bind, lift. split.
  - destruct (ref_title_of ref) as [rt|e] eqn:Et; [|discriminate].
    destruct (scan _ _ _ _ _ _ w) as [[[art|]|e] w1] eqn:Es;
      try discriminate; intros [= <- <-].
    + destruct (scan_found _ _ _ _ _ _ _ _ _ Es)
        as (pre & post & w2 & au & -> & Hpre & Hi & Ha & Hm).
      eexists. split; [reflexivity|].
      eapply ref_adds_one; [done..| |done|done|done]. by apply scan_none.
    + exists []. split; [by rewrite app_nil_r|].
      eapply ref_adds_none; [done|]. by apply scan_none.
  - intros (es & -> & H).
    destruct H
      as [rt u u' Et Hp | rt pre post art au u u1 u' Et -> Hp Ha Hi Hm];
      rewrite Et.
    + apply scan_none in Hp. rewrite Hp. by rewrite app_nil_r.
    + apply scan_none in Hp.
      by rewrite (scan_stops _ _ _ _ _ _ _ _ _ _ _ _ Hp Hi Ha Hm).
Qed.

Lemma process_refs_rel (articles : list Article) (article : Article)
    (flag : bool) (refs : list biblStruct) (edges edges' : list edge)
    (w w' : world) :
  process_refs ratio partial_ratio articles article flag edges refs w
    = (Ok edges', w') <->
  exists es,
    edges' = edges ++ es
    /\ in_turn (ref_adds ratio partial_ratio articles article flag) refs w
         es w'.
Proof.
  split.
  - revert edges w. induction refs as [|ref refs IH]; cbn; intros edges w.
    + intros [= <- <-]. exists []. split; [by rewrite app_nil_r | constructor].
    + unfold bind.
      destruct (one_ref _ _ _ _ _ w) as [[e1|e] w1] eqn:E1; [|discriminate].
      intros H. apply IH in H as (es2 & -> & H2).
      apply process_ref_rel in E1 as (es1 & -> & H1).
      exists (es1 ++ es2). split; [by rewrite app_assoc|].
      by econstructor.
  - intros (es & -> & H). revert edges.
    induction H as [u | ref refs es1 es2 u u1 u' H1 _ IH]; intros edges; cbn.
    + by rewrite app_nil_r.
    + unfold bind.
      assert (E1 : one_ref articles article flag edges ref u
                   = (Ok (edges ++ es1), u1)).
      { apply process_ref_rel. by exists es1. }
      rewrite E1, app_assoc. apply IH.
Qed.

Lemma failure_text (c : string) :
  bool_decide (c = no_blocks) || bool_decide (c = bad_input_data) = true
  <-> c = no_blocks \/ c = bad_input_data.
Proof. by rewrite orb_true_iff, !bool_decide_eq_true. Qed.

Lemma process_article_rel (tei : string) (articles : list Article)
    (article : Article) (flag : bool) (edges edges' : list edge)
    (w w' : world) :
  one_article tei articles flag edges article w = (Ok edges', w') <->
  exists es,
    edges' = edges ++ es
    /\ article_adds ratio partial_ratio files biblStructs tei articles flag
         article w es w'.
Proof.
  unfold process_article. split.
  - destruct (file article) as [f|] eqn:Ef.
    + destruct (files !! tei_path tei f) as [c|] eqn:Ec.
      * destruct (_ || _) eqn:Es.
        -- unfold bind, emit, ret. intros [= <- <-]. exists [].
           split; [by rewrite app_nil_r|].
           eapply article_empty; [done..|]. by apply failure_text.
        -- unfold bind, emit, lift. cbn.
           destruct (biblStructs c) as [refs|e] eqn:Eb; [|discriminate].
           intros H. apply process_refs_rel in H as (es & -> & H).
           exists es. split; [done|].
           eapply article_parsed; [done..| | |done|done];
             intros ->; by rewrite (proj2 (failure_text _)) in Es; auto.
      * destruct (tval (title article)) as [t|] eqn:Et; [|discriminate].
        unfold bind, emit, ret. intros [= <- <-]. exists [].
        split; [by rewrite app_nil_r|]. by eapply article_no_tei.
    + intros [= <- <-]. exists []. split; [by rewrite app_nil_r|].
      by apply article_no_file.
  - intros (es & -> & H).
    destruct H as [u Ef | f t u Ef Ec Et | f c u Ef Ec Hc
                   | f c refs es u u' Ef Ec Hn Hb Eb H]; rewrite Ef.
    + by rewrite app_nil_r.
    + rewrite Ec, Et. by rewrite app_nil_r.
    + rewrite Ec, (proj2 (failure_text c) Hc). by rewrite app_nil_r.
    + rewrite Ec.
      destruct (_ || _) eqn:Es.
      { apply failure_text in Es as [?|?]; done. }
      unfold bind, emit, lift. cbn. rewrite Eb.
      apply process_refs_rel. by exists es.
Qed.

Lemma add_edges_rel (tei : string) (articles todo : list Article)
    (flag : bool) (edges edges' : list edge) (w w' : world) :
  all_articles tei articles flag edges todo w = (Ok edges', w') <->
  exists es,
    edges' = edges ++ es
    /\ in_turn
         (article_adds ratio partial_ratio files biblStructs tei articles
            flag) todo w es w'.
Proof.
  split.
  - revert edges w. induction todo as [|a todo IH]; cbn; intros edges w.
    + intros [= <- <-]. exists []. split; [by rewrite app_nil_r | constructor].
    + unfold bind.
      destruct (one_article _ _ _ _ _ w) as [[e1|e] w1] eqn:E1;
        [|discriminate].
      intros H. apply IH in H as (es2 & -> & H2).
      apply process_article_rel in E1 as (es1 & -> & H1).
      exists (es1 ++ es2). split; [by rewrite app_assoc|].
      by econstructor.
  - intros (es & -> & H). revert edges.
    induction H as [u | a todo es1 es2 u u1 u' H1 _ IH]; intros edges; cbn.
    + by rewrite app_nil_r.
    + unfold bind.
      assert (E1 : one_article tei articles flag edges a u
                   = (Ok (edges ++ es1), u1)).
      { apply process_article_rel. by exists es1. }
      rewrite E1, app_assoc. apply IH.
Qed.

Lemma py_is_refl (t : title_obj) : py_is t t = true.
Proof. apply Nat.eqb_refl. Qed.

Abbreviation joins := joins_two_articles.

Lemma process_ref_joins (articles : list Article) (article : Article)
    (flag : bool) (edges edges' : list edge) (ref : biblStruct)
    (w w' : world) :
  article ∈ articles ->
  Forall (joins articles) edges ->
  one_ref articles article flag edges ref w = (Ok edges', w') ->
  Forall (joins articles) edges'.
Proof.
  intros Hin Hall. unfold process_ref, bind, lift.
  destruct (ref_title_of ref) as [rt|e]; [|discriminate].
  destruct (scan _ _ _ _ _ _ w) as [[[art|]|e] w1] eqn:Es; try discriminate;
    intros [= <- <-]; [|done].
  destruct (scan_found _ _ _ _ _ _ _ _ _ Es)
    as (pre & post & w2 & au & Harts & _ & Hi & _).
  apply Forall_app. split; [done|]. constructor; [|constructor].
  apply list_elem_of_lookup in Hin as [i Hi'].
  exists i, (length pre), article, art. cbn. repeat split; try done.
  - intros ->. rewrite Harts, list_lookup_middle in Hi' by done.
    injection Hi' as ->. by rewrite py_is_refl in Hi.
  - rewrite Harts. by apply list_lookup_middle.
Qed.

Lemma process_refs_joins (articles : list Article) (article : Article)
    (flag : bool) (refs : list biblStruct) (edges edges' : list edge)
    (w w' : world) :
  article ∈ articles ->
  Forall (joins articles) edges ->
  process_refs ratio partial_ratio articles article flag edges refs w
    = (Ok edges', w') ->
  Forall (joins articles) edges'.
Proof.
  intros Hin. revert edges w.
  induction refs as [|ref refs IH]; cbn; intros edges w Hall.
  - by intros [= <- _].
  - unfold bind.
    destruct (one_ref _ _ _ _ _ w) as [[e1|e] w1] eqn:E1; [|discriminate].
    apply IH. by eapply process_ref_joins.
Qed.

Lemma process_article_joins (tei : string) (articles : list Article)
    (article : Article) (flag : bool) (edges edges' : list edge)
    (w w' : world) :
  article ∈ articles ->
  Forall (joins articles) edges ->
  one_article tei articles flag edges article w = (Ok edges', w') ->
  Forall (joins articles) edges'.
Proof.
  intros Hin Hall. unfold process_article.
  destruct (file article) as [f|]; [|by intros [= <- _]].
  destruct (files !! tei_path tei f) as [c|].
  - destruct (_ || _).
    + unfold bind, emit, ret. by intros [= <- _].
    + unfold bind, emit, lift. cbn.
      destruct (biblStructs c) as [refs|e]; [|discriminate].
      by apply process_refs_joins.
  - destruct (tval (title article)); [|discriminate].
    unfold bind, emit, ret. by intros [= <- _].
Qed.

Lemma add_edges_joins (tei : string) (articles todo : list Article)
    (flag : bool) (edges edges' : list edge) (w w' : world) :
  todo ⊆ articles ->
  Forall (joins articles) edges ->
  all_articles tei articles flag edges todo w = (Ok edges', w') ->
  Forall (joins articles) edges'.
Proof.
  revert edges w. induction todo as [|a todo IH]; cbn; intros edges w Hsub Hall.
  - by intros [= <- _].
  - unfold bind.
    destruct (one_article _ _ _ _ _ w) as [[e1|e] w1] eqn:E1; [|discriminate].
    apply IH.
    + intros x Hx. apply Hsub. by right.
    + eapply process_article_joins; [|done..]. apply Hsub. by left.
Qed.

(** C9, as the code has it. An article without a file field is passed over
    without a word. An article whose TEI file does not exist, when its
    title is a string, and an article whose TEI file holds one of the two
    failure texts, are passed over with one [msg.fail] record. In each case
    the article adds no edge, the answers and the input are untouched, and
    the loop goes on with the next article from the same edges. *)
Theorem skipped_article_adds_nothing (tei : string)
    (articles rest : list Article) (flag : bool) (edges : list edge)
    (article : Article) (w : world) :
  (file article = None ->
     one_article tei articles flag edges article w = (Ok edges, w)
     /\ all_articles tei articles flag edges (article :: rest) w
          = all_articles tei articles flag edges rest w)
  /\ (forall f t,
        file article = Some f ->
        files !! tei_path tei f = None ->
        tval (title article) = Some t ->
        let w' :=
          wrote (EvFail ("tei-file not found for " +:+ t) (Some "")) w in
        one_article tei articles flag edges article w = (Ok edges, w')
        /\ all_articles tei articles flag edges (article :: rest) w
             = all_articles tei articles flag edges rest w')
  /\ (forall f c,
        file article = Some f ->
        files !! tei_path tei f = Some c ->
        c = no_blocks \/ c = bad_input_data ->
        let w' :=
          wrote (EvFail "tei-file is empty for" (tval (title article))) w in
        one_article tei articles flag edges article w = (Ok edges, w')
        /\ all_articles tei articles flag edges (article :: rest) w
             = all_articles tei articles flag edges rest w').
Proof.
  split; [|split].
  - intros Hf.
    assert (H : one_article tei articles flag edges article w = (Ok edges, w)).
    { unfold process_article. by rewrite Hf. }
    split; [exact H|]. cbn. unfold bind. by rewrite H.
  - intros f t Hf Hnone Ht w'.
    assert (H : one_article tei articles flag edges article w = (Ok edges, w')).
    { unfold process_article. by rewrite Hf, Hnone, Ht. }
    split; [exact H|]. cbn. unfold bind. by rewrite H.
  - intros f c Hf Hsome Hc w'.
    assert (H : one_article tei articles flag edges article w = (Ok edges, w')).
    { unfold process_article. rewrite Hf, Hsome.
      assert (E : bool_decide (c = no_blocks)
                  || bool_decide (c = bad_input_data) = true).
      { destruct Hc as [-> | ->]; [reflexivity|].
        apply orb_true_iff. right. by apply bool_decide_eq_true_2. }
      by rewrite E. }
    split; [exact H|]. cbn. unfold bind. by rewrite H.
Qed.

End EdgeFacts.

(** ** The edges of a built graph *)

Section GraphFacts.

Variable ratio : string -> string -> Z.
Variable partial_ratio : string -> string -> Z.
Variable md5_hexdigest : string -> string.
Variable files : gmap string string.
Variable biblStructs : string -> res (list biblStruct).

Lemma same_key_same_article (articles : list Article) (i j : nat)
    (a b : Article) :
  NoDup (map bibtex_key articles) ->
  articles !! i = Some a -> articles !! j = Some b ->
  bibtex_key a = bibtex_key b -> i = j.
Proof.
  intros Hnd Ha Hb Hk.
  eapply NoDup_lookup; [exact Hnd | |].
  - by rewrite list_lookup_fmap, Ha.
  - by rewrite list_lookup_fmap, Hb, Hk.
Qed.

(** C5. The scan of the candidates for a reference of a source article
    never returns the source itself: a candidate whose title is the same
    object is passed over. Hence every edge of a built graph goes from one
    article of the bibliography to another one, at another place of the
    list, and, when no two articles share a key, no edge has the same key at
    both ends. *)
Theorem no_edge_to_itself (bib : list Article) (tei : string)
    (okeys flag : bool) (w w' : world) (g : graph) :
  build_graph_model ratio partial_ratio md5_hexdigest files biblStructs
    bib tei okeys flag w = (Ok g, w') ->
  let articles := map (convert_key md5_hexdigest okeys) bib in
  (forall article rd rt ra candidates u u' art,
     scan_candidates ratio partial_ratio article rd rt ra flag candidates u
       = (Ok (Some art), u') ->
     art <> article)
  /\ Forall (joins_two_articles articles) (g_edges g)
  /\ (NoDup (map bibtex_key articles) ->
      Forall (fun e => e_from e <> e_to e) (g_edges g)).
Proof.
  intros H articles.
  apply build_ok in H as (years & ya & dicts & edges & _ & _ & _ & He & ->).
  fold articles in He. cbn.
  assert (Hall : Forall (joins_two_articles articles) edges).
  { eapply add_edges_joins; [| |exact He]; [done | constructor]. }
  split; [|split; [exact Hall|]].
  - intros article rd rt ra candidates u u' art Hs ->.
    apply scan_found in Hs as (_ & _ & _ & _ & _ & _ & Hi & _).
    by rewrite py_is_refl in Hi.
  - intros Hnd. eapply Forall_impl; [exact Hall|].
    intros e (i & j & a & b & Hij & Ha & Hb & Hf & Ht & _) Heq.
    apply Hij.
    eapply same_key_same_article; [exact Hnd | exact Ha | exact Hb|].
    congruence.
Qed.

(** C6. The edges of a built graph are what the articles add in turn, and
    an article with a parsed document adds what its references add in turn,
    each from the world the one before it left. A reference adds at most
    one edge: none when every candidate was passed over, in the order of
    the list, and otherwise one edge from the source to the first candidate
    for which [citation_matching] returned [True], in the world the scan
    had reached; the candidates behind that one are not looked at, since
    the outcome is the same whatever follows it in the list. The edge loop
    returns exactly when its articles can take their steps in this way. *)
Theorem first_match_wins (bib : list Article) (tei : string)
    (okeys flag : bool) (w w' : world) (g : graph) :
  build_graph_model ratio partial_ratio md5_hexdigest files biblStructs
    bib tei okeys flag w = (Ok g, w') ->
  let articles := map (convert_key md5_hexdigest okeys) bib in
  let adds :=
    article_adds ratio partial_ratio files biblStructs tei articles flag in
  in_turn adds articles (started w) (g_edges g) w'
  /\ (forall todo edges edges' u u',
        add_edges ratio partial_ratio files biblStructs tei articles flag
          edges todo u = (Ok edges', u')
        <-> exists es, edges' = edges ++ es /\ in_turn adds todo u es u')
  /\ (forall article ref u es u',
        ref_adds ratio partial_ratio articles article flag ref u es u' ->
        (length es <= 1)%nat)
  /\ (forall article ref rt pre art post au u u1 u',
        ref_title_of ref = Ok rt ->
        passed_over ratio partial_ratio article (ref_doi_of ref) rt
          (bs_surnames ref) flag pre u u1 ->
        find_author_field (author art) = Ok au ->
        py_is (title art) (title article) = false ->
        citation_matching ratio partial_ratio (doi art) (ref_doi_of ref)
          (tval (title art)) rt au (bs_surnames ref) flag u1
        = (Ok true, u') ->
        forall edges,
          process_ref ratio partial_ratio (pre ++ art :: post) article flag
            edges ref u
          = (Ok (edges ++ [Edge (bibtex_key article) (bibtex_key art)]), u')).
Proof.
  intros H articles adds.
  apply build_ok in H as (years & ya & dicts & edges & _ & _ & _ & He & ->).
  fold articles in He. cbn [g_edges].
  split; [|split; [|split]].
  - apply add_edges_rel in He as (es & -> & He). exact He.
  - intros todo e e' u u'. apply add_edges_rel.
  - intros article ref u es u' Hr. destruct Hr; cbn; lia.
  - intros article ref rt pre art post au u u1 u' Ht Hp Ha Hi Hm e.
    apply process_ref_rel. eexists. split; [reflexivity|].
    by eapply ref_adds_one.
Qed.

End GraphFacts.

(** ** Author fields *)

Section AuthorFacts.

Lemma chars_text (l : list ascii) : chars (text l) = l.
Proof. apply list_ascii_of_string_of_list_ascii. Qed.

Lemma text_chars (s : string) : text (chars s) = s.
Proof. apply string_of_list_ascii_of_string. Qed.

Lemma chars_app (s t : string) : chars (s +:+ t) = chars s ++ chars t.
Proof.
  unfold chars. induction s as [|a s IH]; [reflexivity|].
  change (String a s +:+ t) with (String a (s +:+ t)). cbn. by f_equal.
Qed.

Lemma name_char_facts (a : ascii) :
  is_name_char a = true ->
  is_char " " a = false /\ Ascii.eqb a "010" = false
  /\ is_char "," a = false /\ is_name_or_blank a = true.
Proof.
  destruct a as [[] [] [] [] [] [] [] []]; vm_compute; intros H;
    try discriminate H; repeat split.
Qed.

Lemma name_or_blank_not_comma (a : ascii) :
  is_name_or_blank a = true -> is_char "," a = false.
Proof.
  destruct a as [[] [] [] [] [] [] [] []]; vm_compute; intros H;
    try discriminate H; reflexivity.
Qed.

Lemma forallb_drop (c : ascii -> bool) (l : list ascii) (i : nat) :
  forallb c l = true -> forallb c (drop i l) = true.
Proof.
  revert i. induction l as [|a l IH]; intros [|i] H; try done.
  cbn in H. apply andb_prop in H as [_ H]. by apply IH.
Qed.

(** *** The greedy repetition *)

(** Over a maximal run of the class, when the continuation fails at every
    position inside the run, the repetition is the continuation at the end
    of the run. *)
Lemma many_maximal (c : ascii -> bool) (k : cont) (run tail : list ascii)
    (p : nat) (g : option (list ascii)) :
  forallb c run = true ->
  match tail with [] => True | a :: _ => c a = false end ->
  (forall i, (i < length run)%nat ->
     k (MState (p + i) (drop i run ++ tail) g) = None) ->
  many c k p (run ++ tail) g = k (MState (p + length run) tail g).
Proof.
  revert p. induction run as [|a run IH]; intros p Hrun Htail Hfail.
  - cbn. rewrite Nat.add_0_r. destruct tail as [|b tail]; [reflexivity|].
    cbn in *. by rewrite Htail.
  - cbn in Hrun. apply andb_prop in Hrun as [Ha Hrun]. cbn. rewrite Ha.
    rewrite (IH (S p) Hrun Htail).
    + replace (S p + length run)%nat with (p + S (length run))%nat by lia.
      destruct (k _) as [r|] eqn:Ek; [reflexivity|].
      specialize (Hfail 0%nat ltac:(cbn; lia)).
      rewrite Nat.add_0_r in Hfail. exact Hfail.
    + intros i Hi. specialize (Hfail (S i) ltac:(cbn; lia)).
      replace (S p + i)%nat with (p + S i)%nat by lia. exact Hfail.
Qed.

(** When the continuation accepts whatever it is given, the repetition
    takes the whole run. *)
Lemma many_all (c : ascii -> bool) (run tail : list ascii) (p : nat)
    (g : option (list ascii)) (k : cont) (r : mstate) :
  forallb c run = true ->
  match tail with [] => True | a :: _ => c a = false end ->
  k (MState (p + length run) tail g) = Some r ->
  many c k p (run ++ tail) g = Some r.
Proof.
  revert p. induction run as [|a run IH]; intros p Hrun Htail Hk.
  - cbn in *. rewrite Nat.add_0_r in Hk. destruct tail as [|b tail]; [done|].
    cbn. by rewrite Htail.
  - cbn in Hrun. apply andb_prop in Hrun as [Ha Hrun]. cbn. rewrite Ha.
    rewrite (IH (S p) Hrun Htail); [reflexivity|].
    by replace (S p + length run)%nat with (p + length (a :: run))%nat
      by (cbn; lia).
Qed.

Lemma search_from_eq (r : re) (p : nat) (s : list ascii) :
  search_from r p s =
    match rmatch r Some (MState p s None) with
    | Some st =>
        Some (Found p (take (pos st - p) s) (grp st) (pos st) (rest st))
    | None =>
        match s with
        | [] => None
        | _ :: s' => search_from r (S p) s'
        end
    end.
Proof. destruct s; reflexivity. Qed.

(** *** The pattern for a field without a comma *)

(** The separator part does not match in front of a name character. *)
Lemma plain_separator_at_name (k : cont) (q : nat) (a : ascii)
    (l : list ascii) (g : option (list ascii)) :
  is_name_char a = true ->
  rmatch plain_separator k (MState q (a :: l) g) = None.
Proof.
  intros Ha. destruct (name_char_facts a Ha) as (Hs & Hn & _).
  cbn. rewrite Hs. destruct l; [by rewrite Hn | reflexivity].
Qed.

(** At the start of a name token the pattern takes the whole token and
    then tries the separator part once, behind the token. *)
Lemma plain_at_token (p : nat) (a : ascii) (tok tail : list ascii) :
  forallb is_name_char (a :: tok) = true ->
  not_name_next tail ->
  rmatch author_pattern_plain Some (MState p (a :: tok ++ tail) None)
  = rmatch plain_separator Some
      (MState (p + S (length tok)) tail (Some (a :: tok))).
Proof.
  intros Htok Htail. cbn in Htok. apply andb_prop in Htok as [Ha Htok].
  unfold author_pattern_plain.
  change (rmatch (Seq (Group (Many1 is_name_char)) plain_separator) Some
            (MState p (a :: tok ++ tail) None))
    with (if is_name_char a
          then many is_name_char
                 (fun st' =>
                    rmatch plain_separator Some
                      (MState (pos st') (rest st')
                         (Some (take (pos st' - p) (a :: tok ++ tail)))))
                 (S p) (tok ++ tail) None
          else None).
  rewrite Ha, many_maximal; try done.
  - cbn [pos rest]. replace (S p + length tok - p)%nat with (S (length tok)) by lia.
    replace (S p + length tok)%nat with (p + S (length tok))%nat by lia.
    cbn [take]. by rewrite take_app_length.
  - intros i Hi. cbn [pos rest].
    destruct (drop i tok) as [|b l] eqn:Ed.
    + apply (f_equal length) in Ed. rewrite length_drop in Ed. cbn in Ed. lia.
    + apply plain_separator_at_name.
      apply (forallb_drop _ _ i) in Htok. rewrite Ed in Htok. cbn in Htok.
      by apply andb_prop in Htok as [? _].
Qed.

Lemma plain_separator_at_end (q : nat) (g : option (list ascii)) :
  rmatch plain_separator Some (MState q [] g) = Some (MState q [] g).
Proof. reflexivity. Qed.

(** Behind [" and "] or [" AND "] and in front of a name the separator
    part matches and stops in front of the name. *)
Lemma plain_separator_at_word (sep : string) (q : nat) (b : ascii)
    (l : list ascii) (g : option (list ascii)) :
  is_separator sep = true ->
  is_name_char b = true ->
  rmatch plain_separator Some
    (MState q (" "%char :: chars sep ++ " "%char :: b :: l) g)
  = Some (MState (q + 5) (b :: l) g).
Proof.
  intros Hsep Hb. destruct (name_char_facts b Hb) as (Hs & _).
  apply orb_prop in Hsep as [H | H]; apply String.eqb_eq in H; subst sep;
    cbn; rewrite Hs; do 2 f_equal; lia.
Qed.

Lemma lit_Some (l s s' : list ascii) : lit l s = Some s' <-> s = l ++ s'.
Proof.
  revert s. induction l as [|a l IH]; intros s; cbn.
  - split; congruence.
  - destruct s as [|b s]; [split; discriminate|].
    destruct (Ascii.eqb_spec a b) as [->|Hne].
    + rewrite IH. split; congruence.
    + split; [discriminate | congruence].
Qed.

Lemma rmatch_lit_many1 (l : string) (c : ascii -> bool) (k : cont)
    (q : nat) (s : list ascii) (g : option (list ascii)) :
  (forall s', s = chars l ++ s' ->
     match s' with [] => True | x :: _ => c x = false end) ->
  rmatch (Seq (Lit l) (Many1 c)) k (MState q s g) = None.
Proof.
  intros H. cbn [rmatch rest pos grp].
  destruct (lit (chars l) s) as [s'|] eqn:E; [|reflexivity].
  apply lit_Some in E. specialize (H s' E). cbn [rmatch rest].
  destruct s' as [|x s']; [reflexivity | by rewrite H].
Qed.

(** [and +] and [AND +] do not match at a name token that ends the text,
    nor at a name token other than the word itself. *)
Lemma separator_word_fails (sep : string) (k : cont) (q : nat)
    (w t : list ascii) (g : option (list ascii)) :
  is_separator sep = true ->
  forallb is_name_char w = true ->
  w <> [] ->
  t = [] \/ (w <> chars sep /\ exists t', t = " "%char :: t') ->
  rmatch (Seq (Lit sep) (Many1 (is_char " "))) k (MState q (w ++ t) g) = None.
Proof.
  intros Hsep Hw Hne Ht. apply rmatch_lit_many1. intros s' E.
  assert (Hblank : forall x, is_name_char x = true -> is_char " " x = false).
  { intros x Hx. by destruct (name_char_facts x Hx) as (? & _). }
  assert (Hsuffix : forall n,
            match drop n w with
            | [] => True
            | x :: _ => is_char " " x = false
            end).
  { intros n. apply (forallb_drop _ _ n) in Hw.
    destruct (drop n w) as [|x l]; [done|]. cbn in Hw.
    apply andb_prop in Hw as [Hx _]. by apply Hblank. }
  assert (Hthree : exists c1 c2 c3, chars sep = [c1; c2; c3]
            /\ c1 <> " "%char /\ c2 <> " "%char /\ c3 <> " "%char).
  { apply orb_prop in Hsep as [H | H]; apply String.eqb_eq in H; subst sep;
      cbn; eexists _, _, _; repeat split; discriminate. }
  destruct Hthree as (c1 & c2 & c3 & Es & H1 & H2 & H3). rewrite Es in *.
  destruct Ht as [-> | [Hw' [t' ->]]].
  - rewrite app_nil_r in E. specialize (Hsuffix 3%nat). rewrite E in Hsuffix.
    exact Hsuffix.
  - destruct w as [|a [|b [|c w']]]; try done; cbn in E.
    + congruence.
    + congruence.
    + injection E as -> -> -> <-. destruct w' as [|x w']; [done|].
      exact (Hsuffix 3%nat).
Qed.

Lemma plain_separator_at_other (k : cont) (q : nat) (w t : list ascii)
    (g : option (list ascii)) :
  forallb is_name_char w = true ->
  w <> [] ->
  t = []
  \/ (w <> chars "and" /\ w <> chars "AND" /\ exists t', t = " "%char :: t') ->
  rmatch plain_separator k (MState q (" "%char :: w ++ t) g) = None.
Proof.
  intros Hw Hne Ht.
  assert (Ha : is_char " " (hd " "%char w) = false /\ exists x w', w = x :: w').
  { destruct w as [|x w']; [done|]. cbn in Hw. apply andb_prop in Hw as [Hx _].
    destruct (name_char_facts x Hx) as (? & _). split; [done | by eauto]. }
  destruct Ha as [Hx (x & w' & Ew)].
  assert (H1 : rmatch (Seq (Lit "and") (Many1 (is_char " "))) k
                 (MState (S q) (w ++ t) g) = None).
  { apply separator_word_fails; try done. destruct Ht as [-> | (? & ? & ?)];
      [by left | by right]. }
  assert (H2 : rmatch (Seq (Lit "AND") (Many1 (is_char " "))) k
                 (MState (S q) (w ++ t) g) = None).
  { apply separator_word_fails; try done. destruct Ht as [-> | (? & ? & ?)];
      [by left | by right]. }
  unfold plain_separator.
  change (rmatch (Alt ?a (Alt ?b Eol)) k ?st)
    with (match rmatch a k st with
          | Some r => Some r
          | None => match rmatch b k st with
                    | Some r => Some r
                    | None => rmatch Eol k st
                    end
          end).
  assert (Hstep : forall l,
    rmatch (Seq (Many1 (is_char " ")) (Seq (Lit l) (Many1 (is_char " ")))) k
      (MState q (" "%char :: w ++ t) g)
    = rmatch (Seq (Lit l) (Many1 (is_char " "))) k (MState (S q) (w ++ t) g)).
  { intros l.
    change (rmatch (Seq (Many1 (is_char " ")) ?r) k
              (MState q (" "%char :: w ++ t) g))
      with (many (is_char " ") (rmatch r k) (S q) (w ++ t) g).
    subst w. cbn [app many]. cbn in Hx. by rewrite Hx. }
  rewrite !Hstep, H1, H2. subst w. reflexivity.
Qed.

Lemma search_plain_nil (p : nat) : search_from author_pattern_plain p [] = None.
Proof. reflexivity. Qed.

Lemma search_plain_skip_char (p : nat) (b : ascii) (l : list ascii) :
  is_name_char b = false ->
  search_from author_pattern_plain p (b :: l)
  = search_from author_pattern_plain (S p) l.
Proof. intros Hb. cbn. by rewrite Hb. Qed.

(** A name token behind which the separator part does not match is
    passed over as a whole. *)
Lemma search_plain_skip_token (p : nat) (a : ascii) (tok tail : list ascii) :
  forallb is_name_char (a :: tok) = true ->
  not_name_next tail ->
  (forall q g, rmatch plain_separator Some (MState q tail g) = None) ->
  search_from author_pattern_plain p (a :: tok ++ tail)
  = search_from author_pattern_plain (p + S (length tok)) tail.
Proof.
  intros Htok Htail Hfail. revert p a Htok.
  induction tok as [|b tok IH]; intros p a Htok.
  - rewrite search_from_eq, (plain_at_token p a [] tail Htok Htail), Hfail.
    cbn [app length]. by replace (p + 1)%nat with (S p) by lia.
  - rewrite search_from_eq, (plain_at_token p a (b :: tok) tail Htok Htail), Hfail.
    cbn [app]. rewrite IH.
    + f_equal. cbn. lia.
    + cbn in Htok. by apply andb_prop in Htok as [_ ?].
Qed.

(** *** [findall], one match at a time *)

Lemma findall_nothing (fuel : nat) (r : re) (p : nat) (s : list ascii) :
  search_from r p s = None -> findall_from fuel r p s = [].
Proof. intros H. destruct fuel; [reflexivity|]. cbn. by rewrite H. Qed.

Lemma findall_found (fuel : nat) (r : re) (p : nat) (s : list ascii)
    (m : found) :
  search_from r p s = Some m ->
  m_end m <> m_start m ->
  findall_from (S fuel) r p s
  = text (default [] (m_group m)) :: findall_from fuel r (m_end m) (m_rest m).
Proof.
  intros H Hne. cbn [findall_from]. rewrite H.
  apply Nat.eqb_neq in Hne. by rewrite Hne.
Qed.

Lemma token_chars (n : string) :
  is_token n = true ->
  exists a tok, chars n = a :: tok /\ forallb is_name_char (a :: tok) = true.
Proof.
  unfold is_token. destruct (chars n) as [|a tok]; [discriminate|]. eauto.
Qed.

Lemma chars_join_names_cons (first sep n : string)
    (more : list (string * string)) :
  chars (join_names first ((sep, n) :: more))
  = chars first
      ++ " "%char :: chars sep ++ " "%char :: chars (join_names n more).
Proof. cbn [join_names]. by rewrite !chars_app. Qed.

Lemma chars_join_names_head (first : string) (more : list (string * string)) :
  exists l, chars (join_names first more) = chars first ++ l.
Proof.
  destruct more as [|[sep n] more].
  - exists []. by rewrite app_nil_r.
  - rewrite chars_join_names_cons. eauto.
Qed.

(** Name tokens joined by [and] or [AND] are all found, in order. *)
Lemma findall_plain_names (more : list (string * string)) (first : string)
    (p fuel : nat) :
  is_token first = true ->
  names_ok more = true ->
  (length (chars (join_names first more)) < fuel)%nat ->
  findall_from fuel author_pattern_plain p (chars (join_names first more))
  = first :: map snd more.
Proof.
  revert first p fuel.
  induction more as [|[sep n] more IH]; intros first p fuel Hfirst Hmore Hfuel;
    (destruct fuel as [|fuel]; [lia|]);
    destruct (token_chars first Hfirst) as (a & tok & Ec & Htok).
  - cbn [join_names map]. rewrite Ec, <- (app_nil_r tok).
    assert (Hs : search_from author_pattern_plain p (a :: tok ++ [])
              = Some (Found p (take (p + S (length tok) - p) (a :: tok ++ []))
                        (Some (a :: tok)) (p + S (length tok)) [])).
    { by rewrite search_from_eq, plain_at_token, plain_separator_at_end. }
    rewrite (findall_found _ _ _ _ _ Hs); [|cbn; lia].
    cbn [m_group m_end m_rest from_option id]. rewrite <- Ec, text_chars.
    by rewrite findall_nothing.
  - cbn [names_ok forallb] in Hmore. apply andb_prop in Hmore as [Hsn Hmore].
    apply andb_prop in Hsn as [Hsep Hn].
    destruct (token_chars n Hn) as (b & tok' & Ec' & Htok').
    destruct (chars_join_names_head n more) as [l El].
    rewrite chars_join_names_cons in *. rewrite Ec in *.
    assert (Hb : is_name_char b = true).
    { cbn in Htok'. by apply andb_prop in Htok' as [? _]. }
    assert (Hm : rmatch author_pattern_plain Some
              (MState p ((a :: tok) ++ " "%char :: chars sep ++ " "%char
                           :: chars (join_names n more)) None)
            = Some (MState (p + S (length tok) + 5) (chars (join_names n more))
                      (Some (a :: tok)))).
    { cbn [app]. rewrite plain_at_token; [|done|done].
      rewrite El, Ec'. cbn [app]. by rewrite plain_separator_at_word. }
    pose proof (search_from_eq author_pattern_plain p
                  ((a :: tok) ++ " "%char :: chars sep ++ " "%char
                     :: chars (join_names n more))) as Hs.
    rewrite Hm in Hs. cbn [pos rest grp] in Hs.
    rewrite (findall_found _ _ _ _ _ Hs); [|cbn; lia].
    cbn [m_group m_end m_rest from_option id map snd]. rewrite <- Ec, text_chars.
    f_equal. apply IH; try done.
    rewrite length_app in Hfuel. cbn in Hfuel. rewrite length_app in Hfuel.
    cbn in Hfuel. lia.
Qed.

Lemma chars_inj (s t : string) : chars s = chars t -> s = t.
Proof. intros H. by rewrite <- (text_chars s), H, text_chars. Qed.

Lemma not_separator (w : string) :
  is_separator w = false -> chars w <> chars "and" /\ chars w <> chars "AND".
Proof.
  intros H. apply orb_false_elim in H as [H1 H2].
  apply String.eqb_neq in H1, H2. split; intros E; by apply chars_inj in E.
Qed.

(** A word between two names that is neither [and] nor [AND] does not
    separate them: the name in front of it is not found. *)
Lemma findall_plain_other (n1 w n2 : string) (fuel : nat) :
  is_token n1 = true -> is_token w = true -> is_token n2 = true ->
  is_separator w = false ->
  findall_from (S fuel) author_pattern_plain 0
    (chars (n1 +:+ " " +:+ w +:+ " " +:+ n2))
  = [n2].
Proof.
  intros H1 Hw H2 Hsep.
  destruct (token_chars n1 H1) as (a1 & t1 & E1 & Ht1).
  destruct (token_chars w Hw) as (aw & tw & Ew & Htw).
  destruct (token_chars n2 H2) as (a2 & t2 & E2 & Ht2).
  destruct (not_separator w Hsep) as [Hand HAND].
  rewrite !chars_app, E1, Ew. change (chars " ") with [" "%char].
  assert (Hs : search_from author_pattern_plain 0
                 ((a1 :: t1) ++ [" "%char] ++ (aw :: tw) ++ [" "%char] ++ chars n2)
              = Some (Found (S (length t1) + 1 + S (length tw) + 1)
                        (chars n2) (Some (chars n2))
                        (S (length t1) + 1 + S (length tw) + 1 + S (length t2))
                        [])).
  { cbn [app]. rewrite search_plain_skip_token; [|done|done|].
    2:{ intros q g. rewrite Ew in Hand, HAND.
        apply (plain_separator_at_other Some q (aw :: tw)
                 (" "%char :: chars n2) g); [done | done |].
        right. repeat split; [done..|]. by eexists. }
    rewrite search_plain_skip_char by done.
    rewrite search_plain_skip_token; [|done|done|].
    2:{ intros q g. rewrite <- (app_nil_r (chars n2)).
        apply plain_separator_at_other; [by rewrite E2 | by rewrite E2 | by left]. }
    rewrite search_plain_skip_char by done.
    rewrite E2, <- (app_nil_r t2), search_from_eq, plain_at_token by done.
    rewrite plain_separator_at_end. cbn [pos rest grp]. f_equal.
    rewrite app_nil_r. f_equal; try lia.
    replace (_ - _)%nat with (length (a2 :: t2)) by (cbn; lia).
    by rewrite firstn_all. }
  rewrite (findall_found _ _ _ _ _ Hs); [|cbn; lia].
  cbn [m_group m_end m_rest from_option id]. rewrite text_chars.
  by rewrite findall_nothing.
Qed.

Lemma token_no_comma (l : list ascii) :
  forallb is_name_char l = true -> existsb (is_char ",") l = false.
Proof.
  induction l as [|a l IH]; cbn; [done|]. intros H.
  apply andb_prop in H as [Ha Hl].
  destruct (name_char_facts a Ha) as (_ & _ & Hc & _). by rewrite Hc, IH.
Qed.

Lemma is_token_no_comma (n : string) :
  is_token n = true -> existsb (is_char ",") (chars n) = false.
Proof.
  intros H. destruct (token_chars n H) as (a & tok & E & Ht).
  rewrite E. by apply token_no_comma.
Qed.

Lemma is_separator_no_comma (sep : string) :
  is_separator sep = true -> existsb (is_char ",") (chars sep) = false.
Proof.
  intros H. apply orb_prop in H as [H | H]; apply String.eqb_eq in H;
    by subst sep.
Qed.

Lemma join_names_no_comma (more : list (string * string)) (first : string) :
  is_token first = true -> names_ok more = true ->
  contains_char "," (join_names first more) = false.
Proof.
  unfold contains_char. revert first.
  induction more as [|[sep n] more IH]; intros first Hf Hm.
  - by apply is_token_no_comma.
  - cbn [names_ok forallb] in Hm. apply andb_prop in Hm as [Hsn Hm].
    apply andb_prop in Hsn as [Hsep Hn].
    rewrite chars_join_names_cons, existsb_app, is_token_no_comma by done.
    cbn [existsb orb]. rewrite existsb_app, is_separator_no_comma by done.
    cbn [existsb orb]. by rewrite IH.
Qed.

(** *** The pattern for a field with a comma *)

Lemma surname_chars (n : string) :
  is_surname n = true ->
  exists a l, chars n = a :: l /\ is_name_char a = true
              /\ forallb is_name_or_blank (a :: l) = true.
Proof.
  unfold is_surname. destruct (chars n) as [|a l]; [discriminate|].
  intros H. apply andb_prop in H as [Ha Hl]. exists a, l.
  destruct (name_char_facts a Ha) as (_ & _ & _ & Hb).
  repeat split; [done|]. cbn. by rewrite Hb, Hl.
Qed.

(** The name group, wherever it starts, takes the whole run of letters,
    hyphens and blanks. *)
Lemma name_group_takes_run (p : nat) (a : ascii) (l tail : list ascii)
    (g : option (list ascii)) :
  forallb is_name_or_blank (a :: l) = true ->
  not_blank_next tail ->
  rmatch (Group (Many1 is_name_or_blank)) Some (MState p (a :: l ++ tail) g)
  = Some (MState (p + S (length l)) tail (Some (a :: l))).
Proof.
  intros Hrun Htail. cbn in Hrun. apply andb_prop in Hrun as [Ha Hl].
  cbn [rmatch rest pos grp]. rewrite Ha.
  apply many_all; [done | done |]. cbn [pos rest]. do 2 f_equal; [lia|].
  replace (S p + length l - p)%nat with (S (length l)) by lia.
  cbn [take]. by rewrite take_app_length.
Qed.

Lemma comma_at_start (a : ascii) (l tail : list ascii) :
  forallb is_name_or_blank (a :: l) = true ->
  not_blank_next tail ->
  rmatch author_pattern_comma Some (MState 0 (a :: l ++ tail) None)
  = Some (MState (S (length l)) tail (Some (a :: l))).
Proof.
  intros Hrun Htail. unfold author_pattern_comma, comma_separator.
  change (rmatch (Seq (Alt Bol ?r) ?n) Some ?st)
    with (match rmatch n Some st with
          | Some x => Some x
          | None => rmatch r (rmatch n Some) st
          end).
  by rewrite name_group_takes_run.
Qed.

(** Away from the start of the text the pattern needs [and] or [AND]. *)
Lemma comma_needs_word (p : nat) (s : list ascii) :
  p <> 0%nat ->
  starts_with "and" s = false -> starts_with "AND" s = false ->
  rmatch author_pattern_comma Some (MState p s None) = None.
Proof.
  intros Hp H1 H2. unfold starts_with in H1, H2.
  unfold author_pattern_comma, comma_separator.
  cbn [rmatch rest pos grp]. apply Nat.eqb_neq in Hp. rewrite Hp.
  destruct (lit (chars "and") s); [discriminate|].
  by destruct (lit (chars "AND") s).
Qed.

Lemma comma_at_word (sep : string) (p : nat) (a : ascii) (l tail : list ascii) :
  p <> 0%nat ->
  is_separator sep = true ->
  is_name_char a = true ->
  forallb is_name_or_blank (a :: l) = true ->
  not_blank_next tail ->
  rmatch author_pattern_comma Some
    (MState p (chars sep ++ " "%char :: a :: l ++ tail) None)
  = Some (MState (p + 4 + S (length l)) tail (Some (a :: l))).
Proof.
  intros Hp Hsep Ha Hrun Htail. apply Nat.eqb_neq in Hp.
  destruct (name_char_facts a Ha) as (Hs & _).
  pose proof (name_group_takes_run (p + 4) a l tail None Hrun Htail) as Hg.
  unfold author_pattern_comma, comma_separator.
  apply orb_prop in Hsep as [H | H]; apply String.eqb_eq in H; subst sep;
    cbn [rmatch rest pos grp chars list_ascii_of_string app lit length];
    rewrite Hp; cbn [Ascii.eqb Bool.eqb many]; rewrite Hs;
    replace (S (S (S (S p)))) with (p + 4)%nat by lia;
    replace (p + 3 + 1)%nat with (p + 4)%nat by lia.
  - cbn [rmatch rest pos grp] in Hg |- *. cbn in Hrun. 
    apply andb_prop in Hrun as [Ha' _]. rewrite Ha' in Hg |- *.
    replace (S (p + 3)) with (p + 4)%nat by lia. by rewrite Hg.
  - cbn [rmatch rest pos grp] in Hg |- *. cbn in Hrun. 
    apply andb_prop in Hrun as [Ha' _]. rewrite Ha' in Hg |- *.
    replace (S (p + 3)) with (p + 4)%nat by lia. by rewrite Hg.
Qed.

Lemma search_comma_skip (n p : nat) (s : list ascii) :
  p <> 0%nat ->
  (n <= length s)%nat ->
  (forall i, (i < n)%nat ->
     starts_with "and" (drop i s) = false
     /\ starts_with "AND" (drop i s) = false) ->
  search_from author_pattern_comma p s
  = search_from author_pattern_comma (p + n) (drop n s).
Proof.
  revert p s. induction n as [|n IH]; intros p s Hp Hlen Hfree.
  - by rewrite Nat.add_0_r.
  - destruct s as [|c s]; [cbn in Hlen; lia|].
    destruct (Hfree 0%nat ltac:(lia)) as [H1 H2].
    rewrite search_from_eq, comma_needs_word by done.
    rewrite IH; [f_equal; lia | lia | cbn in Hlen; lia |].
    intros i Hi. apply (Hfree (S i)). lia.
Qed.

Lemma search_comma_none (p : nat) (s : list ascii) :
  p <> 0%nat ->
  has_separator_word s = false ->
  search_from author_pattern_comma p s = None.
Proof.
  revert p. induction s as [|c s IH]; intros p Hp Hs.
  - by rewrite search_from_eq, comma_needs_word.
  - cbn [has_separator_word] in Hs.
    apply orb_false_elim in Hs as [Hs Hrest].
    apply orb_false_elim in Hs as [H1 H2].
    rewrite search_from_eq, comma_needs_word by done. by apply IH.
Qed.

(** [and] and [AND] hold no blank: a text that does not start with the
    word does not start with it when a blank and more text follow. *)
Lemma starts_with_blank_tail (sep : string) (G Y : list ascii) :
  is_separator sep = true ->
  starts_with sep G = false ->
  starts_with sep (G ++ " "%char :: Y) = false.
Proof.
  intros Hsep HG. unfold starts_with in *.
  destruct (lit (chars sep) (G ++ " "%char :: Y)) as [s'|] eqn:E; [|done].
  apply lit_Some in E.
  assert (HG' : forall s'', G <> chars sep ++ s'').
  { intros s'' Es. apply lit_Some in Es. by rewrite Es in HG. }
  apply orb_prop in Hsep as [H | H]; apply String.eqb_eq in H; subst sep;
    destruct G as [|a [|b [|c G']]]; cbn in E; try discriminate E;
    injection E as -> -> -> _; by destruct (HG' G').
Qed.

Lemma given_name_free (sep : string) (G Y : list ascii) (i : nat) :
  is_separator sep = true ->
  has_separator_word G = false ->
  (i <= length G)%nat ->
  starts_with sep (drop i (G ++ " "%char :: Y)) = false.
Proof.
  intros Hsep. revert i. induction G as [|a G IH]; intros i HG Hi.
  - replace i with 0%nat by (cbn in Hi; lia).
    apply (starts_with_blank_tail sep [] Y Hsep).
    apply orb_prop in Hsep as [H | H]; apply String.eqb_eq in H; by subst sep.
  - cbn [has_separator_word] in HG.
    apply orb_false_elim in HG as [HG Hrest].
    apply orb_false_elim in HG as [H1 H2].
    destruct i as [|i].
    + apply (starts_with_blank_tail sep (a :: G) Y Hsep).
      apply orb_prop in Hsep as [H | H]; apply String.eqb_eq in H; by subst sep.
    + apply IH; [done | cbn in Hi; lia].
Qed.

Lemma chars_join_entries (surname given : string)
    (more : list (string * (string * string))) :
  chars (join_entries surname given more)
  = chars surname ++ tail_text given more.
Proof.
  revert surname given.
  induction more as [|[sep [s g]] more IH]; intros surname given.
  - cbn. by rewrite !chars_app, app_nil_r.
  - cbn [join_entries tail_text]. by rewrite !chars_app, IH.
Qed.

Lemma tail_text_not_blank (given : string)
    (more : list (string * (string * string))) :
  not_blank_next (tail_text given more).
Proof. by destruct more as [|[sep [s g]] more]. Qed.

Lemma findall_comma_tail (more : list (string * (string * string)))
    (given : string) (p fuel : nat) :
  p <> 0%nat ->
  has_separator_word (chars given) = false ->
  entries_ok more = true ->
  (length (tail_text given more) < fuel)%nat ->
  findall_from fuel author_pattern_comma p (tail_text given more)
  = map (fun e => fst (snd e)) more.
Proof.
  revert given p fuel.
  induction more as [|[sep [s g]] more IH]; intros given p fuel Hp Hg Hok Hfuel.
  - apply findall_nothing, search_comma_none; [done|].
    cbn [tail_text]. rewrite app_nil_r.
    cbn [has_separator_word]. by rewrite Hg.
  - destruct fuel as [|fuel]; [lia|].
    cbn [entries_ok forallb] in Hok. apply andb_prop in Hok as [Hh Hok].
    apply andb_prop in Hh as [Hh Hg'']. apply andb_prop in Hh as [Hsep Hs].
    apply negb_true_iff in Hg''.
    destruct (surname_chars s Hs) as (a & l & Es & Ha & Hrun).
    set (Y := chars sep ++ " "%char :: chars s ++ tail_text g more).
    assert (Et : tail_text given ((sep, (s, g)) :: more)
                 = ","%char :: " "%char :: chars given ++ " "%char :: Y).
    { reflexivity. }
    rewrite Et in *. clear Et.
    set (n := (2 + length (chars given) + 1)%nat).
    assert (Hdrop : drop n (","%char :: " "%char :: chars given ++ " "%char :: Y) = Y).
    { unfold n.
      replace (2 + length (chars given) + 1)%nat
        with (S (S (length (chars given ++ [" "%char]))))
        by (rewrite length_app; cbn; lia).
      cbn [drop]. rewrite (cons_middle " "%char (chars given) Y), app_assoc.
      apply drop_app_length. }
    assert (Hs' : search_from author_pattern_comma p
                    (","%char :: " "%char :: chars given ++ " "%char :: Y)
                  = Some (Found (p + n) (take (4 + S (length l)) Y)
                            (Some (a :: l)) (p + n + 4 + S (length l))
                            (tail_text g more))).
    { rewrite (search_comma_skip n); [|done| |].
      - rewrite Hdrop, search_from_eq.
        assert (Hm : rmatch author_pattern_comma Some (MState (p + n) Y None)
                     = Some (MState (p + n + 4 + S (length l))
                               (tail_text g more) (Some (a :: l)))).
        { unfold Y. rewrite Es. cbn [app].
          apply comma_at_word; try done; [lia | apply tail_text_not_blank]. }
        rewrite Hm. cbn [pos rest grp]. do 2 f_equal. f_equal. lia.
      - unfold n. cbn [length]. rewrite length_app. cbn [length]. lia.
      - intros i Hi. destruct i as [|[|i]]; [done | done |].
        cbn [drop]. unfold n in Hi.
        split; apply given_name_free; try done; lia. }
    rewrite (findall_found _ _ _ _ _ Hs'); [|cbn; lia].
    cbn [m_group m_end m_rest from_option id map fst snd].
    rewrite <- Es, text_chars. f_equal. apply IH; try done; [lia|].
    cbn [length] in Hfuel. rewrite length_app in Hfuel. cbn [length] in Hfuel.
    unfold Y in Hfuel. rewrite !length_app in Hfuel. cbn [length] in Hfuel.
    rewrite length_app in Hfuel. lia.
Qed.

Lemma findall_comma_entries (surname given : string)
    (more : list (string * (string * string))) (fuel : nat) :
  is_surname surname = true ->
  has_separator_word (chars given) = false ->
  entries_ok more = true ->
  (length (chars (join_entries surname given more)) < fuel)%nat ->
  findall_from fuel author_pattern_comma 0
    (chars (join_entries surname given more))
  = surname :: map (fun e => fst (snd e)) more.
Proof.
  intros Hs Hg Hok Hfuel. rewrite chars_join_entries in *.
  destruct fuel as [|fuel]; [lia|].
  destruct (surname_chars surname Hs) as (a & l & Es & Ha & Hrun).
  rewrite Es in *.
  pose proof (search_from_eq author_pattern_comma 0
                ((a :: l) ++ tail_text given more)) as Hs'.
  cbn [app] in Hs'.
  rewrite comma_at_start in Hs' by (done || apply tail_text_not_blank).
  cbn [pos rest grp] in Hs'.
  rewrite (findall_found _ _ _ _ _ Hs'); [|cbn; lia].
  cbn [m_group m_end m_rest from_option id]. rewrite <- Es, text_chars.
  f_equal. apply findall_comma_tail; try done.
  rewrite length_app in Hfuel. cbn [length] in Hfuel. lia.
Qed.

Lemma findall_comma_first_only (surname tail : string) (fuel : nat) :
  is_surname surname = true ->
  has_separator_word (chars tail) = false ->
  findall_from (S fuel) author_pattern_comma 0
    (chars (surname +:+ "," +:+ tail))
  = [surname].
Proof.
  intros Hs Ht. rewrite !chars_app.
  destruct (surname_chars surname Hs) as (a & l & Es & Ha & Hrun).
  rewrite Es. change (chars "," ++ chars tail) with (","%char :: chars tail).
  pose proof (search_from_eq author_pattern_comma 0
                ((a :: l) ++ ","%char :: chars tail)) as Hs'.
  cbn [app] in Hs'. rewrite comma_at_start in Hs' by done.
  cbn [pos rest grp] in Hs'.
  rewrite (findall_found _ _ _ _ _ Hs'); [|cbn; lia].
  cbn [m_group m_end m_rest from_option id]. rewrite <- Es, text_chars.
  f_equal. apply findall_nothing, search_comma_none; [done|].
  cbn [has_separator_word]. by rewrite Ht.
Qed.

Lemma join_entries_has_comma (surname given : string)
    (more : list (string * (string * string))) :
  contains_char "," (join_entries surname given more) = true.
Proof.
  unfold contains_char. rewrite chars_join_entries, existsb_app.
  destruct more as [|[sep [s g]] more]; cbn; apply orb_true_r.
Qed.

(** C8, as the code has it. The separator is the word in exactly the two
    spellings [and] and [AND]. Without a comma, name tokens joined by
    these two words are all extracted, while any other word between two
    names, such as [And], does not separate them and the name in front of
    it is lost. With a comma, the surnames of entries joined by the two
    words are all extracted, while text after the first surname that holds
    neither [and] nor [AND] yields no further surname, whatever other
    spelling of the word it holds. *)
Theorem separator_is_case_sensitive :
  (forall first more,
     is_token first = true -> names_ok more = true ->
     find_author (join_names first more) = first :: map snd more)
  /\ (forall n1 w n2,
        is_token n1 = true -> is_token w = true -> is_token n2 = true ->
        is_separator w = false ->
        find_author (n1 +:+ " " +:+ w +:+ " " +:+ n2) = [n2])
  /\ (forall surname given more,
        is_surname surname = true ->
        has_separator_word (chars given) = false ->
        entries_ok more = true ->
        find_author (join_entries surname given more)
        = surname :: map (fun e => fst (snd e)) more)
  /\ (forall surname tail,
        is_surname surname = true ->
        has_separator_word (chars tail) = false ->
        find_author (surname +:+ "," +:+ tail) = [surname]).
Proof.
  repeat split.
  - intros first more Hf Hm. unfold find_author.
    rewrite join_names_no_comma by done. cbn [negb]. unfold findall.
    apply findall_plain_names; try done. lia.
  - intros n1 w n2 H1 Hw H2 Hsep. unfold find_author.
    assert (Hc : contains_char "," (n1 +:+ " " +:+ w +:+ " " +:+ n2) = false).
    { unfold contains_char. rewrite !chars_app, !existsb_app.
      by rewrite (is_token_no_comma n1 H1), (is_token_no_comma w Hw),
        (is_token_no_comma n2 H2). }
    rewrite Hc. cbn [negb]. unfold findall.
    by apply findall_plain_other.
  - intros surname given more Hs Hg Hm. unfold find_author.
    rewrite join_entries_has_comma. cbn [negb]. unfold findall.
    apply findall_comma_entries; try done. lia.
  - intros surname tail Hs Ht. unfold find_author.
    assert (Hc : contains_char "," (surname +:+ "," +:+ tail) = true).
    { unfold contains_char. rewrite !chars_app, !existsb_app.
      cbn. by rewrite orb_true_r. }
    rewrite Hc. cbn [negb]. unfold findall.
    by apply findall_comma_first_only.
Qed.

(** C8 as it was stated does not hold: [And] is not a separator. Without a
    comma the name in front of it is lost, with a comma the next surname is
    lost, and it can end up inside an extracted surname. *)
Lemma mixed_case_and_is_no_separator :
  find_author "Smith and Jones" = ["Smith"; "Jones"]
  /\ find_author "Smith AND Jones" = ["Smith"; "Jones"]
  /\ find_author "Smith And Jones" = ["Jones"]
  /\ find_author "Smith, John and Doe, Jane" = ["Smith"; "Doe"]
  /\ find_author "Smith, John And Doe, Jane" = ["Smith"]
  /\ find_author "Smith And Jones, X" = ["Smith And Jones"].
Proof. repeat split; vm_compute; reflexivity. Qed.

End AuthorFacts.


(** * Further properties *)

(** ** The matcher *)

Section MatcherFacts.

Lemma run_length_split (c : ascii -> bool) (s : list ascii) :
  forallb c (take (run_length c s) s) = true
  /\ match drop (run_length c s) s with
     | [] => True
     | a :: _ => c a = false
     end.
Proof.
  induction s as [|a s IH]; cbn; [done|].
  destruct (c a) eqn:Ea; cbn; [by rewrite Ea | done].
Qed.

Lemma run_length_le (c : ascii -> bool) (s : list ascii) :
  (run_length c s <= length s)%nat.
Proof. induction s as [|a s IH]; cbn; [lia|]. destruct (c a); cbn; lia. Qed.

(** A run followed by the end of the text or by a character outside the
    class is the longest one. *)
Lemma run_length_app (c : ascii -> bool) (run tail : list ascii) :
  forallb c run = true ->
  match tail with [] => True | a :: _ => c a = false end ->
  run_length c (run ++ tail) = length run.
Proof.
  intros Hrun Htail. induction run as [|a run IH]; cbn in *.
  - destruct tail as [|b tail]; [done|]. cbn. by rewrite Htail.
  - apply andb_prop in Hrun as [Ha Hrun]. by rewrite Ha, IH.
Qed.

(** A continuation that never fails gets the longest run. *)
Lemma many_total (c : ascii -> bool) (k : cont) (p : nat) (s : list ascii)
    (g : option (list ascii)) :
  (forall st, k st <> None) ->
  many c k p s g
  = k (MState (p + run_length c s) (drop (run_length c s) s) g).
Proof.
  intros Hk. revert p. induction s as [|a s IH]; intros p; cbn.
  - by rewrite Nat.add_0_r.
  - destruct (c a); cbn; [|by rewrite Nat.add_0_r].
    rewrite IH. replace (S p + run_length c s)%nat
      with (p + S (run_length c s))%nat by lia.
    destruct (k _) as [r|] eqn:E; [done | by apply Hk in E].
Qed.

(** A continuation that fails in front of a character of the class gets
    the longest run. *)
Lemma many_stop (c : ascii -> bool) (k : cont) (p : nat) (s : list ascii)
    (g : option (list ascii)) :
  (forall q a l, c a = true -> k (MState q (a :: l) g) = None) ->
  many c k p s g
  = k (MState (p + run_length c s) (drop (run_length c s) s) g).
Proof.
  intros Hk. revert p. induction s as [|a s IH]; intros p; cbn.
  - by rewrite Nat.add_0_r.
  - destruct (c a) eqn:Ea; cbn; [|by rewrite Nat.add_0_r].
    rewrite IH. replace (S p + run_length c s)%nat
      with (p + S (run_length c s))%nat by lia.
    destruct (k (MState (p + S (run_length c s)) _ g)) as [r|] eqn:E; [done|].
    by apply Hk.
Qed.

(** Whatever the repetition returns, the continuation returned it, behind
    some run of the class. *)
Lemma many_inv (c : ascii -> bool) (k : cont) (p : nat) (s : list ascii)
    (g : option (list ascii)) (r : mstate) :
  many c k p s g = Some r ->
  exists run tail,
    s = run ++ tail /\ forallb c run = true
    /\ k (MState (p + length run) tail g) = Some r.
Proof.
  revert p. induction s as [|a s IH]; intros p; cbn.
  - intros H. exists [], []. by rewrite Nat.add_0_r.
  - destruct (c a) eqn:Ea.
    + destruct (many c k (S p) s g) as [r'|] eqn:E.
      * intros [= ->]. destruct (IH _ E) as (run & tail & -> & Hrun & Hk).
        exists (a :: run), tail. cbn. rewrite Ea, Hrun.
        by replace (p + S (length run))%nat with (S p + length run)%nat by lia.
      * intros H. exists [], (a :: s). by rewrite Nat.add_0_r.
    + intros H. exists [], (a :: s). by rewrite Nat.add_0_r.
Qed.

(** A pattern without a group hands the captured text on unchanged, and
    every match ends in the continuation. *)
Lemma rmatch_no_group (r : re) (k : cont) (st x : mstate) :
  no_group r = true ->
  rmatch r k st = Some x ->
  exists st', k st' = Some x /\ grp st' = grp st.
Proof.
  revert k st. induction r as [c|c|l|r1 IH1 r2 IH2|r1 IH1 r2 IH2| | |r1 IH1];
    intros k st Hng H; cbn [rmatch] in H; cbn [no_group] in Hng.
  - destruct (rest st) as [|a s']; [done|]. destruct (c a); [|done]. eauto.
  - destruct (rest st) as [|a s']; [done|]. destruct (c a); [|done].
    apply many_inv in H as (run & tail & _ & _ & Hk). eauto.
  - destruct (lit (chars l) (rest st)); [|done]. eauto.
  - apply andb_prop in Hng as [H1 H2].
    apply IH1 in H as (st1 & H & <-); [|done].
    apply IH2 in H as (st2 & H & <-); [|done]. eauto.
  - apply andb_prop in Hng as [H1 H2].
    destruct (rmatch r1 k st) as [y|] eqn:E.
    + injection H as ->. by apply IH1 in E.
    + by apply IH2 in H.
  - destruct (pos st =? 0)%nat; [|done]. eauto.
  - destruct (at_eol (rest st)); [|done]. eauto.
  - done.
Qed.

Lemma search_from_inv (r : re) (p : nat) (s : list ascii) (m : found) :
  search_from r p s = Some m ->
  exists pre s',
    s = pre ++ s' /\ m_start m = (p + length pre)%nat
    /\ rmatch r Some (MState (m_start m) s' None)
       = Some (MState (m_end m) (m_rest m) (m_group m))
    /\ m_text m = take (m_end m - m_start m) s'.
Proof.
  revert p. induction s as [|a s IH]; intros p; rewrite search_from_eq.
  - destruct (rmatch r Some _) as [st|] eqn:E; [|done].
    intros [= <-]. exists [], []. cbn. rewrite Nat.add_0_r.
    by destruct st.
  - destruct (rmatch r Some _) as [st|] eqn:E.
    + intros [= <-]. exists [], (a :: s). cbn. rewrite Nat.add_0_r.
      by destruct st.
    + intros H. apply IH in H as (pre & s' & -> & Hp & Hm & Ht).
      exists (a :: pre), s'. cbn. repeat split; try done. lia.
Qed.

End MatcherFacts.

(** ** DOI extraction *)

Section DoiFacts.

Lemma digit_facts (a : ascii) :
  is_digit a = true ->
  Ascii.eqb "/" a = false /\ is_nonspace a = true /\ is_name_or_blank a = false.
Proof.
  destruct a as [[] [] [] [] [] [] [] []]; vm_compute; intros H;
    try discriminate H; repeat split.
Qed.

Lemma space_facts (a : ascii) :
  is_space a = true -> is_nonspace a = false /\ is_digit a = false.
Proof.
  destruct a as [[] [] [] [] [] [] [] []]; vm_compute; intros H;
    try discriminate H; repeat split.
Qed.

(** What a match of [doi_pattern] looks like. *)
Lemma doi_match_inv (p : nat) (s : list ascii) (st : mstate) :
  rmatch doi_pattern Some (MState p s None) = Some st ->
  exists d tail,
    s = d ++ tail /\ doi_shaped d /\ blank_next tail
    /\ st = MState (p + length d) tail (Some d).
Proof.
  destruct s as [|c1 [|c2 [|c3 s1]]].
  1-3: unfold doi_pattern; cbn [rmatch rest pos grp];
    repeat (match goal with |- context [is_digit ?x] => destruct (is_digit x) end);
    cbn; discriminate.
  unfold doi_pattern. cbn [rmatch rest pos grp]. unfold chars.
  cbn [list_ascii_of_string lit length].
  destruct (is_digit c1) eqn:E1; [|discriminate].
  destruct (is_digit c2) eqn:E2; [|discriminate].
  destruct (Ascii.eqb_spec "." c3) as [<-|]; [|discriminate].
  destruct s1 as [|a s1]; [discriminate|].
  destruct (is_digit a) eqn:Ea; [|discriminate].
  rewrite many_stop.
  2:{ intros q x l Hx. cbn [rest]. by rewrite (proj1 (digit_facts x Hx)). }
  cbn [rest pos grp].
  destruct (run_length_split is_digit s1) as [Hds Hstop].
  pose proof (take_drop (run_length is_digit s1) s1) as Hs1.
  destruct (drop (run_length is_digit s1) s1) as [|b s2]; [discriminate|].
  destruct (Ascii.eqb_spec "/" b) as [<-|]; [|discriminate].
  destruct s2 as [|a0 s3]; [discriminate|].
  destruct (is_nonspace a0) eqn:Ea0; [|discriminate].
  rewrite many_total by done. cbn [rest pos grp].
  destruct (run_length_split is_nonspace s3) as [Hns Hend].
  pose proof (take_drop (run_length is_nonspace s3) s3) as Hs3.
  set (ds := take (run_length is_digit s1) s1) in *.
  set (ns := take (run_length is_nonspace s3) s3) in *.
  set (tail := drop (run_length is_nonspace s3) s3) in *.
  set (d := c1 :: c2 :: "."%char :: (a :: ds) ++ "/"%char :: a0 :: ns).
  assert (Es : c1 :: c2 :: "."%char :: a :: s1 = d ++ tail).
  { unfold d. rewrite <- Hs1, <- Hs3. cbn. by rewrite <- !app_assoc. }
  assert (Hlen : length d
                 = (5 + run_length is_digit s1
                    + S (run_length is_nonspace s3))%nat).
  { unfold d. cbn. rewrite length_app. cbn. unfold ds, ns.
    rewrite !length_take.
    pose proof (run_length_le is_digit s1).
    pose proof (run_length_le is_nonspace s3). lia. }
  intros [= <-]. exists d, tail. repeat split.
  - exact Es.
  - exists c1, c2, (a :: ds), (a0 :: ns). repeat split; try done.
    + cbn. by rewrite Ea, Hds.
    + cbn. by rewrite Ea0, Hns.
  - unfold blank_next. destruct tail as [|x tail']; [done|].
    unfold is_nonspace in Hend. by apply negb_false_iff in Hend.
  - rewrite Es. f_equal; [lia|]. f_equal.
    apply take_app_length'. lia.
Qed.

(** A text of that shape, followed by a blank or by nothing, is matched as
    a whole where it starts. *)
Lemma doi_match_intro (p : nat) (d tail : list ascii) :
  doi_shaped d -> blank_next tail ->
  rmatch doi_pattern Some (MState p (d ++ tail) None)
  = Some (MState (p + length d) tail (Some d)).
Proof.
  intros (c1 & c2 & ds & ns & -> & E1 & E2 & Hds & Hd & Hns & Hn) Htail.
  destruct ds as [|a ds]; [done|]. destruct ns as [|a0 ns]; [done|].
  cbn in Hd, Hn. apply andb_prop in Hd as [Ea Hd].
  apply andb_prop in Hn as [Ea0 Hn].
  assert (Hrun1 : run_length is_digit (ds ++ "/"%char :: a0 :: ns ++ tail)
                  = length ds) by (by apply run_length_app).
  assert (Hrun2 : run_length is_nonspace (ns ++ tail) = length ns).
  { apply run_length_app; [done|]. destruct tail as [|x tail]; [done|].
    by apply space_facts in Htail as [? _]. }
  unfold doi_pattern.
  cbn [rmatch rest pos grp app]. unfold chars.
  cbn [list_ascii_of_string lit length]. rewrite E1, E2, Ascii.eqb_refl.
  rewrite <- !app_assoc. cbn [app]. rewrite Ea.
  rewrite many_stop.
  2:{ intros q x l Hx. cbn [rest]. by rewrite (proj1 (digit_facts x Hx)). }
  cbn [rest pos grp]. rewrite Hrun1, drop_app_length, Ascii.eqb_refl.
  rewrite Ea0, many_total by done. cbn [rest pos grp].
  rewrite Hrun2, drop_app_length. f_equal. f_equal.
  - cbn. rewrite length_app. cbn. lia.
  - f_equal.
    replace (c1 :: c2 :: "."%char :: a :: ds ++ "/"%char :: a0 :: ns ++ tail)
      with ((c1 :: c2 :: "."%char :: a :: ds ++ "/"%char :: a0 :: ns) ++ tail)
      by (cbn; by rewrite <- !app_assoc).
    apply take_app_length'. cbn. rewrite !length_app. cbn. lia.
Qed.

Lemma doi_shaped_facts (d : list ascii) :
  doi_shaped d ->
  (6 <= length d)%nat /\ forallb is_nonspace d = true.
Proof.
  intros (c1 & c2 & ds & ns & -> & E1 & E2 & Hds & Hd & Hns & Hn). split.
  - destruct ds; [done|]. destruct ns; [done|].
    cbn. rewrite length_app. cbn. lia.
  - assert (Hdn : forallb is_nonspace ds = true).
    { apply forallb_forall. intros x Hx.
      rewrite forallb_forall in Hd. by apply digit_facts, Hd. }
    cbn. rewrite (proj1 (proj2 (digit_facts c1 E1))).
    rewrite (proj1 (proj2 (digit_facts c2 E2))). cbn.
    rewrite forallb_app. cbn. by rewrite Hdn, Hn.
Qed.

Lemma find_doi_shape (s d : string) :
  find_doi (Some s) = Some d ->
  exists pre post,
    chars s = pre ++ chars d ++ post
    /\ doi_shaped (chars d) /\ blank_next post
    /\ (6 <= length (chars d))%nat
    /\ forallb is_nonspace (chars d) = true.
Proof.
  unfold find_doi, search.
  destruct (search_from doi_pattern 0 (chars s)) as [m|] eqn:E; [|done].
  intros [= <-].
  apply search_from_inv in E as (pre & s' & Es & _ & Hm & Ht).
  apply doi_match_inv in Hm as (d & tail & -> & Hd & Htail & Hst).
  injection Hst as Hend Hrest _.
  assert (Etext : m_text m = d).
  { rewrite Ht, Hend. apply take_app_length'. lia. }
  rewrite Etext, chars_text. exists pre, tail.
  split; [exact Es|]. split; [exact Hd|]. split; [exact Htail|].
  by apply doi_shaped_facts.
Qed.

(** X1. What [find_doi] returns is a piece of the input of the shape of the
    pattern (two digits, a dot, digits, a slash, characters that are not
    blanks), which runs up to the next blank or to the end of the input; it
    has at least six characters and holds no blank. *)
Theorem find_doi_sound (s d : string) :
  find_doi (Some s) = Some d ->
  exists pre post,
    chars s = pre ++ chars d ++ post
    /\ doi_shaped (chars d) /\ blank_next post
    /\ (6 <= length (chars d))%nat
    /\ forallb is_nonspace (chars d) = true.
Proof. apply find_doi_shape. Qed.

Lemma find_doi_whole (d : list ascii) (tail : list ascii) :
  doi_shaped d -> blank_next tail ->
  find_doi (Some (text (d ++ tail))) = Some (text d).
Proof.
  intros Hd Htail. unfold find_doi, search.
  rewrite chars_text, search_from_eq, doi_match_intro by done.
  cbn [pos m_text]. do 2 f_equal. apply take_app_length'. lia.
Qed.

(** X22. [find_doi] is idempotent: applied to its own result it returns that
    result. *)
Theorem find_doi_idempotent (x : option string) :
  find_doi (find_doi x) = find_doi x.
Proof.
  destruct x as [s|]; [|reflexivity].
  destruct (find_doi (Some s)) as [d|] eqn:E; [|reflexivity].
  apply find_doi_shape in E as (_ & _ & _ & Hd & _).
  pose proof (find_doi_whole (chars d) [] Hd I) as H.
  by rewrite app_nil_r, text_chars in H.
Qed.

Lemma doi_needs_digit (k : cont) (p : nat) (a : ascii) (l : list ascii)
    (g : option (list ascii)) :
  is_digit a = false -> rmatch doi_pattern k (MState p (a :: l) g) = None.
Proof. intros H. unfold doi_pattern. cbn [rmatch rest]. by rewrite H. Qed.

Lemma search_doi_skip (pre s : list ascii) (p : nat) :
  forallb (fun a => negb (is_digit a)) pre = true ->
  search_from doi_pattern p (pre ++ s)
  = search_from doi_pattern (p + length pre) s.
Proof.
  revert p. induction pre as [|a pre IH]; intros p H.
  - cbn. by rewrite Nat.add_0_r.
  - cbn in H. apply andb_prop in H as [Ha H]. apply negb_true_iff in Ha.
    cbn [app]. rewrite search_from_eq, doi_needs_digit by done.
    rewrite IH by done. f_equal. cbn. lia.
Qed.

Lemma find_doi_context (pre d post : string) :
  find_doi (Some d) = Some d ->
  forallb (fun a => negb (is_digit a)) (chars pre) = true ->
  blank_next (chars post) ->
  find_doi (Some (pre +:+ d +:+ post)) = Some d.
Proof.
  intros Hd Hpre Hpost.
  assert (Hshape : doi_shaped (chars d)).
  { by apply find_doi_shape in Hd as (_ & _ & _ & ? & _). }
  unfold find_doi, search. rewrite !chars_app, search_doi_skip by done.
  rewrite search_from_eq, doi_match_intro by done.
  cbn [pos m_text]. f_equal.
  replace (_ - _)%nat with (length (chars d)) by lia.
  by rewrite take_app_length, text_chars.
Qed.

(** X2. Text without digits in front of a DOI, and text behind it that
    starts with a blank, do not change what [find_doi] extracts. *)
Theorem find_doi_ignores_context (pre d post : string) :
  find_doi (Some d) = Some d ->
  forallb (fun a => negb (is_digit a)) (chars pre) = true ->
  blank_next (chars post) ->
  find_doi (Some (pre +:+ d +:+ post)) = Some d.
Proof. apply find_doi_context. Qed.

End DoiFacts.

(** ** The names [find_author] extracts *)

Section NameFacts.

Lemma plain_match_group (p : nat) (s : list ascii) (st : mstate) :
  rmatch author_pattern_plain Some (MState p s None) = Some st ->
  exists g, grp st = Some g /\ g <> [] /\ forallb is_name_char g = true.
Proof.
  unfold author_pattern_plain. cbn [rmatch rest pos grp].
  destruct s as [|a s]; [done|]. destruct (is_name_char a) eqn:Ea; [|done].
  intros H. apply many_inv in H as (run & tail & -> & Hrun & H).
  cbn [pos rest] in H.
  apply rmatch_no_group in H as (st' & [= <-] & Hg); [|reflexivity].
  cbn [grp] in Hg. exists (a :: run). split; [|split; [done|]].
  - rewrite Hg. f_equal.
    replace (_ - _)%nat with (S (length run)) by lia.
    cbn. by rewrite take_app_length.
  - cbn. by rewrite Ea, Hrun.
Qed.

Lemma comma_match_group (p : nat) (s : list ascii) (st : mstate) :
  rmatch author_pattern_comma Some (MState p s None) = Some st ->
  exists g, grp st = Some g /\ g <> [] /\ forallb is_name_or_blank g = true.
Proof.
  unfold author_pattern_comma.
  change (rmatch (Seq comma_separator ?r) Some ?st0)
    with (rmatch comma_separator (rmatch r Some) st0).
  intros H. apply rmatch_no_group in H as (st1 & H & _); [|reflexivity].
  cbn [rmatch] in H. destruct (rest st1) as [|a s'] eqn:Er; [done|].
  destruct (is_name_or_blank a) eqn:Ea; [|done].
  apply many_inv in H as (run & tail & -> & Hrun & H).
  cbn [pos rest] in H. injection H as <-. cbn [grp].
  exists (a :: run). split; [|split; [done|]].
  - f_equal.
    replace (_ - _)%nat with (S (length run)) by lia.
    cbn. by rewrite take_app_length.
  - cbn. by rewrite Ea, Hrun.
Qed.

Lemma findall_from_all (P : string -> Prop) (r : re) :
  (forall p s st,
     rmatch r Some (MState p s None) = Some st ->
     P (text (default [] (grp st)))) ->
  forall fuel p s, Forall P (findall_from fuel r p s).
Proof.
  intros Hr. induction fuel as [|fuel IH]; intros p s; [constructor|].
  cbn [findall_from]. destruct (search_from r p s) as [m|] eqn:E;
    [|constructor].
  assert (Hm : P (text (default [] (m_group m)))).
  { apply search_from_inv in E as (_ & s' & _ & _ & Hm & _).
    exact (Hr _ _ _ Hm). }
  destruct (m_end m =? m_start m)%nat.
  - destruct (m_rest m); constructor; (done || apply IH).
  - constructor; [done | apply IH].
Qed.

(** X3. Every name [find_author] extracts is non-empty and made of letters
    and hyphens only, and of blanks as well when the field holds a comma;
    so no name holds a comma, a digit or a period. *)
Theorem find_author_names_are_words (author_json name : string) :
  name ∈ find_author author_json ->
  name <> ""
  /\ forallb (if contains_char "," author_json
              then is_name_or_blank else is_name_char) (chars name) = true
  /\ contains_char "," name = false.
Proof.
  assert (Hgen : forall c : ascii -> bool,
            (forall a, c a = true -> is_name_or_blank a = true) ->
            forall g, g <> [] -> forallb c g = true ->
            text g <> "" /\ forallb c (chars (text g)) = true
            /\ contains_char "," (text g) = false).
  { intros c Hc g Hne Hg. unfold contains_char. rewrite chars_text.
    split; [|split; [done|]].
    - intros E. apply (f_equal chars) in E. by rewrite chars_text in E.
    - clear Hne. induction g as [|a g IH]; [done|]. cbn in *.
      apply andb_prop in Hg as [Ha Hg].
      by rewrite (name_or_blank_not_comma a (Hc a Ha)), IH. }
  unfold find_author, findall. revert name.
  destruct (contains_char "," author_json); cbn [negb];
    apply Forall_forall, findall_from_all; intros p s st H.
  - apply comma_match_group in H as (g & -> & Hne & Hg). cbn.
    by apply Hgen.
  - apply plain_match_group in H as (g & -> & Hne & Hg). cbn.
    apply Hgen; try done. intros a Ha.
    by destruct (name_char_facts a Ha) as (_ & _ & _ & ?).
Qed.

End NameFacts.

(** ** Keys, scores and titles *)

Section ScoreFacts.

Variable ratio : string -> string -> Z.
Variable partial_ratio : string -> string -> Z.
Variable md5_hexdigest : string -> string.

(** X4. A converted key is the first six characters of the digest, with
    the letter [a] put behind them exactly when they are all digits, and
    as they are exactly when they are not. So [isdigit] is false of every
    converted key, and a converted key has at most seven characters. *)
Theorem key_to_md5_is_not_a_number (key : string) :
  let shorthd := text (take 6 (chars (md5_hexdigest key))) in
  let result := key_to_md5 md5_hexdigest key in
  (result = shorthd +:+ "a" <-> isdigit shorthd = true)
  /\ (result = shorthd <-> isdigit shorthd = false)
  /\ isdigit result = false
  /\ (length (chars result) <= 7)%nat.
Proof.
  intros shorthd result. unfold result, key_to_md5. fold shorthd.
  assert (Hlen : (length (chars shorthd) <= 6)%nat).
  { unfold shorthd. rewrite chars_text, length_take. lia. }
  assert (Hne : shorthd +:+ "a" <> shorthd).
  { intros H. apply (f_equal (fun x => length (chars x))) in H.
    rewrite chars_app, length_app in H. cbn in H. lia. }
  destruct (isdigit shorthd) eqn:E.
  - split; [done|]. split; [done|]. split.
    + unfold isdigit. rewrite chars_app.
      destruct (chars shorthd ++ chars "a") as [|x l] eqn:El.
      * reflexivity.
      * rewrite <- El, forallb_app. cbn. by rewrite andb_false_r.
    + rewrite chars_app, length_app. cbn. lia.
  - split; [|split; [done|split; [exact E | lia]]].
    split; [|done]. intros H. by destruct Hne.
Qed.

Lemma fuzzy_author_in_raise (author : string) (l : list (option string))
    (e : exn) :
  fuzzy_author_in ratio author l = Raise e ->
  e = AttributeError /\ None ∈ l.
Proof.
  induction l as [|[b|] l IH]; cbn; [discriminate| |].
  - destruct (95 <=? _); [discriminate|].
    intros H. destruct (IH H) as [-> ?]. split; [done | by right].
  - intros [= <-]. split; [done | by left].
Qed.

Lemma match_one_author_step (first : string) (other_first : option string)
    (otherauthors : list (option string)) (c n : Z) (author : string)
    (r : Z * Z) :
  match_one_author ratio first other_first otherauthors (c, n) author = Ok r ->
  r = (c, n) \/ (snd r = n - 1 /\ c + 1 <= fst r <= c + 5).
Proof.
  unfold match_one_author.
  destruct (String.eqb author first), (bool_decide _);
    try (intros [= <-]; right; cbn; lia);
    (destruct (fuzzy_author_in _ _ _) as [[|]|e]; [| |discriminate]);
    intros [= <-]; (by left) || (right; cbn; lia).
Qed.

Lemma match_one_author_raise (first : string) (other_first : option string)
    (otherauthors : list (option string)) (acc : Z * Z) (author : string)
    (e : exn) :
  match_one_author ratio first other_first otherauthors acc author = Raise e ->
  e = AttributeError /\ None ∈ otherauthors.
Proof.
  unfold match_one_author. destruct acc as [c n].
  destruct (String.eqb author first), (bool_decide _); try discriminate;
    (destruct (fuzzy_author_in _ _ _) as [[|]|e'] eqn:E; try discriminate);
    intros [= <-]; by apply fuzzy_author_in_raise in E.
Qed.

Lemma match_authors_bounds (first : string) (other_first : option string)
    (otherauthors : list (option string)) (l : list string) (c n : Z)
    (r : Z * Z) :
  match_authors ratio first other_first otherauthors (c, n) l = Ok r ->
  0 <= n - snd r <= Z.of_nat (length l)
  /\ n - snd r <= fst r - c <= 5 * (n - snd r).
Proof.
  revert c n. induction l as [|a l IH]; intros c n; cbn [match_authors].
  - intros [= <-]. cbn. lia.
  - destruct (match_one_author ratio first other_first otherauthors (c, n) a)
      as [[c1 n1]|e] eqn:E; [|discriminate].
    apply match_one_author_step in E. intros H. apply IH in H.
    cbn [fst snd] in E. cbn [length]. rewrite Nat2Z.inj_succ.
    destruct E as [[= -> ->] | [-> Hc]]; lia.
Qed.

Lemma match_authors_raise (first : string) (other_first : option string)
    (otherauthors : list (option string)) (l : list string) (acc : Z * Z)
    (e : exn) :
  match_authors ratio first other_first otherauthors acc l = Raise e ->
  e = AttributeError /\ None ∈ otherauthors.
Proof.
  revert acc. induction l as [|a l IH]; intros acc; cbn [match_authors];
    [discriminate|].
  destruct (match_one_author ratio first other_first otherauthors acc a)
    as [acc'|e'] eqn:E; [apply IH|].
  intros [= <-]. by apply match_one_author_raise in E.
Qed.

Lemma find_matching_authors_raise (aa : list string)
    (ar : list (option string)) (e : exn) :
  find_matching_authors ratio aa ar = Raise e ->
  e = AttributeError /\ None ∈ ar.
Proof.
  unfold find_matching_authors.
  destruct aa as [|a l]; [discriminate|].
  destruct ar as [|b l']; [discriminate|]. apply match_authors_raise.
Qed.

(** X5. The score and the count that [find_matching_authors] returns. With
    [m] the number of authors of the article that were counted as matching
    (the total number of authors minus the returned count), [m] is at most
    the number of authors of the article and the score lies between [m] and
    [5 m]; with an empty list on either side nothing matches. The function
    raises nothing but the [AttributeError] of a surname without text, so
    it returns whenever every surname of the reference has text. *)
Theorem find_matching_authors_bounds (artauthors : list string)
    (otherauthors : list (option string)) :
  let total :=
    Z.of_nat (length artauthors) + Z.of_nat (length otherauthors) in
  let result := find_matching_authors ratio artauthors otherauthors in
  (forall counter number, result = Ok (counter, number) ->
     0 <= total - number <= Z.of_nat (length artauthors)
     /\ total - number <= counter <= 5 * (total - number))
  /\ (artauthors = [] \/ otherauthors = [] -> result = Ok (0, total))
  /\ (forall e, result = Raise e ->
        e = AttributeError /\ None ∈ otherauthors)
  /\ (None ∉ otherauthors -> exists counter number,
        result = Ok (counter, number)).
Proof.
  intros total result.
  assert (Hraise : forall e, result = Raise e ->
            e = AttributeError /\ None ∈ otherauthors).
  { intros e. apply find_matching_authors_raise. }
  split; [|split; [|split; [exact Hraise|]]].
  - intros counter number. unfold result, find_matching_authors. fold total.
    destruct artauthors as [|a l]; [intros [= <- <-]; cbn; lia|].
    destruct otherauthors as [|b l']; [intros [= <- <-]; cbn; lia|].
    intros H. apply match_authors_bounds in H. cbn [fst snd] in H. lia.
  - unfold result, find_matching_authors. fold total.
    intros [-> | ->]; [done|]. by destruct artauthors.
  - intros Hn. destruct result as [[counter number]|e] eqn:E; [by eauto|].
    by destruct (Hraise e eq_refl).
Qed.

Lemma same_first_author_score (a : string) (l : list string)
    (l' : list (option string)) (c n : Z) :
  find_matching_authors ratio (a :: l) (Some a :: l') = Ok (c, n) -> 5 <= c.
Proof.
  unfold find_matching_authors. cbn [match_authors].
  unfold match_one_author at 1. rewrite String.eqb_refl.
  rewrite bool_decide_eq_true_2 by done.
  intros H. apply match_authors_bounds in H. cbn [fst snd] in H. lia.
Qed.

Lemma single_author_score (a : string) (l' : list (option string)) :
  exists n, find_matching_authors ratio [a] (Some a :: l') = Ok (5, n).
Proof.
  unfold find_matching_authors. cbn [match_authors].
  unfold match_one_author. rewrite String.eqb_refl.
  rewrite bool_decide_eq_true_2 by done. by eexists.
Qed.

(** X6. When the titles match and the first author of the article is,
    letter for letter, the first author of the reference, the decision is
    never the answer to a question and never no match, whatever the DOI
    fields hold and in either mode: it is a match, or the
    [AttributeError] of a surname without text, and the world is left as
    it is. It is a match when every surname of the reference has text, and
    when the article has one author only. *)
Theorem same_first_author_settles (da dr : option string) (ta tr : string)
    (a : string) (l : list string) (l' : list (option string))
    (flag : bool) (w : world) :
  titles_match (ratio (clean_title ta) (clean_title tr))
    (partial_ratio (clean_title ta) (clean_title tr)) = true ->
  let result :=
    citation_matching ratio partial_ratio da dr (Some ta) (Some tr)
      (a :: l) (Some a :: l') flag w in
  (result = (Ok true, w) \/ result = (Raise AttributeError, w))
  /\ (None ∉ l' \/ l = [] -> result = (Ok true, w)).
Proof.
  intros Ht result. unfold result, citation_matching.
  destruct (doi_match _ _); [by split; [left|]|]. rewrite Ht.
  unfold bind, lift.
  destruct (find_matching_authors ratio (a :: l) (Some a :: l'))
    as [[c n]|e] eqn:E.
  - apply same_first_author_score in E.
    destruct (Z.leb_spec 2 c); [by split; [left|] | lia].
  - pose proof (find_matching_authors_raise _ _ _ E) as [-> Hin].
    split; [by right|]. intros [Hn | ->].
    + apply elem_of_cons in Hin as [?|?]; done.
    + destruct (single_author_score a l') as [n Hn]. congruence.
Qed.

(** X7. A DOI field may carry text without digits in front of the DOI, such
    as a resolver address, and text behind a blank: when both fields hold
    the same DOI in this way the decision is a match. *)
Theorem doi_fields_match_in_context (pre1 post1 pre2 post2 d : string)
    (ta tr : option string) (aa : list string) (ar : list (option string))
    (flag : bool) (w : world) :
  find_doi (Some d) = Some d ->
  forallb (fun a => negb (is_digit a)) (chars pre1) = true ->
  forallb (fun a => negb (is_digit a)) (chars pre2) = true ->
  blank_next (chars post1) -> blank_next (chars post2) ->
  citation_matching ratio partial_ratio
    (Some (pre1 +:+ d +:+ post1)) (Some (pre2 +:+ d +:+ post2))
    ta tr aa ar flag w
  = (Ok true, w).
Proof.
  intros Hd H1 H2 H3 H4. unfold citation_matching.
  rewrite !find_doi_context by done. by rewrite doi_match_same.
Qed.

Lemma upper_char_facts (a : ascii) :
  upper_char (upper_char a) = upper_char a
  /\ is_lower_letter (upper_char a) = false
  /\ (a <> "{"%char -> upper_char a <> "{"%char)
  /\ (a <> "}"%char -> upper_char a <> "}"%char).
Proof.
  destruct a as [[] [] [] [] [] [] [] []]; vm_compute;
    repeat split; try congruence; intros H; try discriminate.
Qed.

Lemma chars_clean_title (t : string) :
  chars (clean_title t)
  = map upper_char
      (filter (fun a => a <> "}"%char)
         (filter (fun a => a <> "{"%char) (chars t))).
Proof. unfold clean_title, upper, remove_char. by rewrite !chars_text. Qed.

Lemma filter_upper_id (c : ascii) (l : list ascii) :
  (forall a, a <> c -> upper_char a <> c) ->
  Forall (fun a => a <> c) l ->
  filter (fun a => a <> c) (map upper_char l) = map upper_char l.
Proof.
  intros Hc. induction 1 as [|a l Ha _ IH]; [done|]. cbn [map].
  rewrite filter_cons_True by (by apply Hc). by rewrite IH.
Qed.

(** X8. Cleaning a title removes every brace and every lower-case letter,
    cleaning twice is cleaning once, and the decision for two titles is the
    decision for the cleaned titles: braces and the case of letters in a
    title never change it. *)
Theorem titles_are_compared_cleaned (da dr : option string) (ta tr : string)
    (aa : list string) (ar : list (option string)) (flag : bool) (w : world) :
  clean_title (clean_title ta) = clean_title ta
  /\ Forall (fun a => a <> "{"%char /\ a <> "}"%char
                      /\ is_lower_letter a = false)
       (chars (clean_title ta))
  /\ citation_matching ratio partial_ratio da dr
       (Some (clean_title ta)) (Some (clean_title tr)) aa ar flag w
     = citation_matching ratio partial_ratio da dr (Some ta) (Some tr)
         aa ar flag w.
Proof.
  assert (Hfree : forall t,
            Forall (fun a => a <> "{"%char /\ a <> "}"%char)
              (filter (fun a => a <> "}"%char)
                 (filter (fun a => a <> "{"%char) (chars t)))).
  { intros t. apply Forall_forall. intros a Ha.
    apply list_elem_of_filter in Ha as [H1 Ha].
    by apply list_elem_of_filter in Ha as [H2 _]. }
  assert (Hidem : forall t, clean_title (clean_title t) = clean_title t).
  { intros t. apply chars_inj.
    rewrite (chars_clean_title (clean_title t)), (chars_clean_title t).
    set (l := filter _ (filter _ (chars t))). specialize (Hfree t). fold l in Hfree.
    rewrite (filter_upper_id "{"%char).
    - rewrite (filter_upper_id "}"%char).
      + rewrite map_map. apply map_ext. intros a. apply upper_char_facts.
      + intros a. apply upper_char_facts.
      + eapply Forall_impl; [exact Hfree|]. by intros a [_ ?].
    - intros a. apply upper_char_facts.
    - eapply Forall_impl; [exact Hfree|]. by intros a [? _]. }
  split; [apply Hidem|]. split.
  - rewrite chars_clean_title. apply Forall_map.
    eapply Forall_impl; [apply (Hfree ta)|]. intros a [H1 H2]. cbn.
    destruct (upper_char_facts a) as (_ & Hl & Ho & Hc). auto.
  - unfold citation_matching. by rewrite !Hidem.
Qed.

End ScoreFacts.

(** ** What a run does to the world *)

Section WorldFacts.

Variable ratio : string -> string -> Z.
Variable partial_ratio : string -> string -> Z.
Variable md5_hexdigest : string -> string.
Variable files : gmap string string.
Variable biblStructs : string -> res (list biblStruct).

Lemma runs_trans (i : bool) (w1 w2 w3 : world) :
  runs i w1 w2 -> runs i w2 w3 -> runs i w1 w3.
Proof.
  induction 1 as [w | e w w' _ IH | q line lines w w' Hi Hq Hs _ IH];
    intros H23; [done | |].
  - apply runs_write with e. by apply IH.
  - eapply runs_answer; [done..|]. by apply IH.
Qed.

Lemma runs_write_list (i : bool) (es : list event) (w w' : world) :
  runs i (World (user_answers w) (stdin w) (console w ++ es)) w' ->
  runs i w w'.
Proof.
  revert w. induction es as [|e es IH]; intros w H.
  - rewrite app_nil_r in H. by destruct w.
  - apply runs_write with e. apply IH. unfold wrote. cbn.
    by rewrite <- app_assoc.
Qed.

Lemma steady_ret {A} (i : bool) (a : A) : steady i (ret a).
Proof. intros w r w' [= _ <-]. constructor. Qed.

Lemma steady_raise {A} (i : bool) (e : exn) : steady i (@raise A e).
Proof. intros w r w' [= _ <-]. constructor. Qed.

Lemma steady_lift {A} (i : bool) (x : res A) : steady i (lift x).
Proof. intros w r w' [= _ <-]. constructor. Qed.

Lemma steady_emit (i : bool) (e : event) : steady i (emit e).
Proof. intros w r w' [= _ <-]. apply runs_write with e. constructor. Qed.

Lemma steady_bind {A B} (i : bool) (c : M A) (k : A -> M B) :
  steady i c -> (forall a, steady i (k a)) -> steady i (bind c k).
Proof.
  intros Hc Hk w r w'. unfold bind.
  destruct (c w) as [[a|e] w1] eqn:E.
  - intros H. eapply runs_trans; [by eapply Hc | by eapply Hk].
  - intros [= _ <-]. by eapply Hc.
Qed.

Lemma ask_user_steady (flag : bool) (ta tr : string) (aa : list string)
    (ar : list (option string)) :
  steady (negb flag) (ask_user flag ta tr aa ar).
Proof.
  intros w r w'. destruct flag.
  - rewrite ask_user_auto. intros [= _ <-]. constructor.
  - destruct (lookup_answer (ta, tr, aa, ar) (user_answers w)) as [a|] eqn:E.
    + rewrite (ask_user_cached _ _ _ _ _ _ E). intros [= _ <-]. constructor.
    + rewrite (ask_user_fresh _ _ _ _ _ E).
      destruct (stdin w) as [|line lines] eqn:Es; intros [= _ <-].
      * apply runs_write_list with (prompt_events (ta, tr, aa, ar)).
        rewrite Es. constructor.
      * apply runs_write_list with (prompt_events (ta, tr, aa, ar)).
        eapply runs_answer; [done | exact E | exact Es |]. cbn. constructor.
Qed.

Lemma citation_matching_steady (da dr ta tr : option string)
    (aa : list string) (ar : list (option string)) (flag : bool) :
  steady (negb flag)
    (citation_matching ratio partial_ratio da dr ta tr aa ar flag).
Proof.
  unfold citation_matching.
  destruct (doi_match _ _); [apply steady_ret|].
  destruct ta as [ta|], tr as [tr|]; try apply steady_ret.
  destruct (titles_match _ _).
  - apply steady_bind; [apply steady_lift|]. intros [counter number].
    destruct (2 <=? counter); [apply steady_ret | apply ask_user_steady].
  - destruct (titles_unsure _ _); [apply ask_user_steady | apply steady_ret].
Qed.

Lemma scan_candidates_steady (article : Article) (rd rt : option string)
    (ra : list (option string)) (flag : bool) (candidates : list Article) :
  steady (negb flag)
    (scan_candidates ratio partial_ratio article rd rt ra flag candidates).
Proof.
  induction candidates as [|c l IH]; cbn [scan_candidates];
    [apply steady_ret|].
  apply steady_bind; [apply steady_lift|]. intros au.
  destruct (py_is _ _); [exact IH|].
  apply steady_bind; [apply citation_matching_steady|].
  intros [|]; [apply steady_ret | exact IH].
Qed.

Lemma process_ref_steady (articles : list Article) (article : Article)
    (flag : bool) (edges : list edge) (ref : biblStruct) :
  steady (negb flag)
    (process_ref ratio partial_ratio articles article flag edges ref).
Proof.
  unfold process_ref. apply steady_bind; [apply steady_lift|]. intros rt.
  apply steady_bind; [apply scan_candidates_steady|].
  intros [art|]; apply steady_ret.
Qed.

Lemma process_refs_steady (articles : list Article) (article : Article)
    (flag : bool) (refs : list biblStruct) (edges : list edge) :
  steady (negb flag)
    (process_refs ratio partial_ratio articles article flag edges refs).
Proof.
  revert edges. induction refs as [|ref refs IH]; intros edges;
    cbn [process_refs]; [apply steady_ret|].
  apply steady_bind; [apply process_ref_steady | intros e; apply IH].
Qed.

Lemma process_article_steady (tei : string) (articles : list Article)
    (flag : bool) (edges : list edge) (article : Article) :
  steady (negb flag)
    (process_article ratio partial_ratio files biblStructs tei articles flag
       edges article).
Proof.
  unfold process_article. destruct (file article) as [f|]; [|apply steady_ret].
  destruct (files !! tei_path tei f) as [c|].
  - destruct (_ || _).
    + apply steady_bind; [apply steady_emit | intros _; apply steady_ret].
    + apply steady_bind; [apply steady_emit | intros _].
      apply steady_bind; [apply steady_emit | intros _].
      apply steady_bind; [apply steady_lift | intros refs].
      apply process_refs_steady.
  - destruct (tval (title article)); [|apply steady_raise].
    apply steady_bind; [apply steady_emit | intros _; apply steady_ret].
Qed.

Lemma add_edges_steady (tei : string) (articles todo : list Article)
    (flag : bool) (edges : list edge) :
  steady (negb flag)
    (add_edges ratio partial_ratio files biblStructs tei articles flag edges
       todo).
Proof.
  revert edges. induction todo as [|a todo IH]; intros edges;
    cbn [add_edges]; [apply steady_ret|].
  apply steady_bind; [apply process_article_steady | intros e; apply IH].
Qed.

Lemma build_steady (bib : list Article) (tei : string) (okeys flag : bool) :
  steady (negb flag)
    (build_graph_model ratio partial_ratio md5_hexdigest files biblStructs
       bib tei okeys flag).
Proof.
  unfold build_graph_model.
  apply steady_bind; [apply steady_emit | intros _].
  apply steady_bind; [apply steady_lift | intros years].
  apply steady_bind; [apply steady_lift | intros ya].
  apply steady_bind; [apply steady_lift | intros dicts].
  apply steady_bind; [apply add_edges_steady | intros edges].
  apply steady_ret.
Qed.

(** Without asking, only the console changes. *)
Lemma runs_quiet (w w' : world) :
  runs false w w' ->
  user_answers w' = user_answers w /\ stdin w' = stdin w
  /\ exists out, console w' = console w ++ out.
Proof.
  induction 1 as [w | e w w' _ IH | q line lines w w' Hi Hq Hs _ IH].
  - repeat split. exists []. by rewrite app_nil_r.
  - destruct IH as (-> & -> & out & ->). repeat split.
    exists (e :: out). cbn. by rewrite <- app_assoc.
  - discriminate.
Qed.

(** Answers are recorded at the end of the list, one for each line read,
    in the order of the lines, and [True] for the line [y] only. *)
Lemma runs_account (i : bool) (w w' : world) :
  runs i w w' ->
  exists asked lines out,
    user_answers w' = user_answers w ++ asked
    /\ stdin w = lines ++ stdin w'
    /\ map snd asked = map (fun l => String.eqb l "y") lines
    /\ console w' = console w ++ out.
Proof.
  induction 1 as [w | e w w' _ IH | q line lines w w' Hi Hq Hs _ IH].
  - exists [], [], []. by rewrite !app_nil_r.
  - destruct IH as (asked & ls & out & Ha & Hl & Hm & Hc).
    exists asked, ls, (e :: out). cbn in *.
    repeat split; try done. by rewrite Hc, <- app_assoc.
  - destruct IH as (asked & ls & out & Ha & Hl & Hm & Hc). cbn in *.
    exists ((q, String.eqb line "y") :: asked), (line :: ls), out.
    repeat split.
    + by rewrite Ha, <- app_assoc.
    + by rewrite Hs, Hl.
    + cbn. by rewrite Hm.
    + done.
Qed.

Lemma lookup_answer_None (q : question) (l : list (question * bool)) :
  lookup_answer q l = None -> q ∉ map fst l.
Proof.
  induction l as [|[q' b] l IH]; cbn; [intros _ H; inversion H|].
  destruct (decide (q' = q)) as [->|Hne]; [done|].
  intros H Hin. apply elem_of_cons in Hin as [->|Hin]; [done|]. by apply IH.
Qed.

Lemma runs_distinct (i : bool) (w w' : world) :
  runs i w w' ->
  NoDup (map fst (user_answers w)) -> NoDup (map fst (user_answers w')).
Proof.
  induction 1 as [w | e w w' _ IH | q line lines w w' Hi Hq Hs _ IH];
    intros Hnd; [done | by apply IH |].
  apply IH. cbn. rewrite map_app. cbn. apply NoDup_app. split; [done|].
  split; [|apply NoDup_singleton].
  intros x Hx Hx'. apply list_elem_of_singleton in Hx' as ->.
  by apply lookup_answer_None in Hq.
Qed.

(** X9. A build in the automated mode, whether it returns a graph or
    raises, reads no input and leaves the recorded answers as they are; it
    only adds to the console. *)
Theorem automated_build_leaves_session (bib : list Article) (tei : string)
    (okeys : bool) (w w' : world) (r : res graph) :
  build_graph_model ratio partial_ratio md5_hexdigest files biblStructs
    bib tei okeys true w = (r, w') ->
  user_answers w' = user_answers w /\ stdin w' = stdin w
  /\ exists out, console w' = console w ++ out.
Proof.
  intros H. apply runs_quiet. exact (build_steady bib tei okeys true _ _ _ H).
Qed.

(** X10. In any mode a build, whether it returns or raises, only adds to the
    console and to the end of the recorded answers, and it reads one line
    of input for each answer it records: the answers recorded are, in
    order, [True] for a line [y] and [False] for any other line. *)
Theorem build_accounts_for_input (bib : list Article) (tei : string)
    (okeys flag : bool) (w w' : world) (r : res graph) :
  build_graph_model ratio partial_ratio md5_hexdigest files biblStructs
    bib tei okeys flag w = (r, w') ->
  exists asked lines out,
    user_answers w' = user_answers w ++ asked
    /\ stdin w = lines ++ stdin w'
    /\ map snd asked = map (fun l => String.eqb l "y") lines
    /\ console w' = console w ++ out.
Proof.
  intros H. eapply runs_account. exact (build_steady bib tei okeys flag _ _ _ H).
Qed.

(** X11. No question is recorded twice: when the questions of the recorded
    answers are pairwise distinct before a call of [citation_matching] or
    before a build, they are so afterwards. *)
Theorem recorded_questions_stay_distinct (w : world) :
  NoDup (map fst (user_answers w)) ->
  (forall da dr ta tr aa ar flag r w',
     citation_matching ratio partial_ratio da dr ta tr aa ar flag w = (r, w') ->
     NoDup (map fst (user_answers w')))
  /\ (forall bib tei okeys flag r w',
        build_graph_model ratio partial_ratio md5_hexdigest files biblStructs
          bib tei okeys flag w = (r, w') ->
        NoDup (map fst (user_answers w'))).
Proof.
  intros Hnd. split.
  - intros da dr ta tr aa ar flag r w' H.
    eapply runs_distinct; [|exact Hnd].
    exact (citation_matching_steady da dr ta tr aa ar flag _ _ _ H).
  - intros bib tei okeys flag r w' H.
    eapply runs_distinct; [|exact Hnd].
    exact (build_steady bib tei okeys flag _ _ _ H).
Qed.

Lemma runs_grow (i : bool) (w w' : world) :
  runs i w w' -> exists more, user_answers w' = user_answers w ++ more.
Proof. intros H. apply runs_account in H as (asked & _ & _ & ? & _). eauto. Qed.

Abbreviation session :=
  (later ratio partial_ratio md5_hexdigest files biblStructs).

(** Whatever happens later in a session, the recorded answers stay where
    they are in the list. *)
Lemma later_answers_grow (w w' : world) :
  session w w' -> exists more, user_answers w' = user_answers w ++ more.
Proof.
  assert (Hstep : forall i u u' u'',
            runs i u u' ->
            (exists m, user_answers u'' = user_answers u' ++ m) ->
            exists m, user_answers u'' = user_answers u ++ m).
  { intros i u u' u'' H [m2 H2]. apply runs_grow in H as [m1 H1].
    exists (m1 ++ m2). by rewrite H2, H1, app_assoc. }
  induction 1 as [w
                 | e w w' _ IH
                 | ta tr aa ar flag r w w' w'' Hc _ IH
                 | da dr ta tr aa ar flag r w w' w'' Hc _ IH
                 | article rd rt ra flag l r w w' w'' Hc _ IH
                 | articles article flag edges refs r w w' w'' Hc _ IH
                 | tei articles todo flag edges r w w' w'' Hc _ IH
                 | bib tei okeys flag r w w' w'' Hc _ IH].
  - exists []. by rewrite app_nil_r.
  - exact IH.
  - apply ask_user_steady in Hc. by eapply Hstep.
  - apply citation_matching_steady in Hc. by eapply Hstep.
  - apply scan_candidates_steady in Hc. by eapply Hstep.
  - apply process_refs_steady in Hc. by eapply Hstep.
  - apply add_edges_steady in Hc. by eapply Hstep.
  - apply build_steady in Hc. by eapply Hstep.
Qed.

(** C4. Once an interactive call of [ask_user] has returned an answer for a
    question, every later interactive call with an equal question returns
    the same answer and leaves the world as it is: nothing is written, no
    line is read, nothing is stored. Later means after any sequence of
    console writes and of calls of [ask_user], of [citation_matching], of
    the loops of the builder and of whole builds, in either mode and
    whatever they return or raise; all that a build does to the world is
    made of such steps, so the second call may belong to another
    reference, to another document or to another build. *)
Theorem answered_question_is_not_asked_again (ta tr : string)
    (aa : list string) (ar : list (option string)) (a : bool)
    (w0 w1 w2 : world) :
  ask_user false ta tr aa ar w0 = (Ok a, w1) ->
  session w1 w2 ->
  ask_user false ta tr aa ar w2 = (Ok a, w2).
Proof.
  intros Hfirst Hlater.
  assert (H1 : lookup_answer (ta, tr, aa, ar) (user_answers w1) = Some a).
  { destruct (lookup_answer (ta, tr, aa, ar) (user_answers w0)) as [b|] eqn:E.
    - rewrite (ask_user_cached _ _ _ _ _ _ E) in Hfirst.
      injection Hfirst as -> ->. exact E.
    - rewrite (ask_user_fresh _ _ _ _ _ E) in Hfirst.
      destruct (stdin w0) as [|line lines]; [discriminate|].
      injection Hfirst as <- <-. cbn. by apply lookup_answer_snoc. }
  apply later_answers_grow in Hlater as [more Hmore].
  apply ask_user_cached. rewrite Hmore. by apply lookup_answer_app.
Qed.

End WorldFacts.

(** ** The graph a build returns *)

Section OutputFacts.

Variable ratio : string -> string -> Z.
Variable partial_ratio : string -> string -> Z.
Variable md5_hexdigest : string -> string.
Variable files : gmap string string.
Variable biblStructs : string -> res (list biblStruct).

Lemma build_articles_mirror (articles : list Article)
    (dicts : list article_dict) :
  build_articles articles = Ok dicts -> Forall2 mirrors articles dicts.
Proof.
  revert dicts. induction articles as [|a l IH]; cbn; intros dicts H.
  - injection H as <-. constructor.
  - destruct (author a) as [s|] eqn:Ea; [|discriminate]. cbn in H.
    destruct (build_articles l) as [ds|]; [|discriminate].
    injection H as <-. constructor; [|by apply IH].
    repeat split. by exists s.
Qed.

Lemma collect_years_all (articles : list Article) (years : list Z) :
  Forall year_converts articles ->
  collect_years articles = Ok years ->
  Forall2 (fun a z => py_int (year a) = Ok z) articles years.
Proof.
  intros Hall. revert years.
  induction Hall as [|a l [z Hz] _ IH]; cbn; intros years H.
  - injection H as <-. constructor.
  - destruct (year a) as [|z0|s] eqn:Ey; [discriminate| |]; cbn in Hz, H.
    + injection Hz as ->.
      destruct (collect_years l) as [zs|]; [|discriminate].
      injection H as <-. constructor; [by rewrite Ey | auto].
    + destruct (int_of_string s) as [z1|] eqn:Es; [|discriminate].
      injection Hz as ->.
      destruct (collect_years l) as [zs|]; [|discriminate].
      injection H as <-. constructor; [|auto]. rewrite Ey. cbn. by rewrite Es.
Qed.

Lemma graph_mirrors (bib : list Article) (tei : string)
    (okeys flag : bool) (w w' : world) (g : graph) :
  build_graph_model ratio partial_ratio md5_hexdigest files biblStructs
    bib tei okeys flag w = (Ok g, w') ->
  Forall2
    (fun a d =>
       a_key d = (if okeys then bibtex_key a
                  else key_to_md5 md5_hexdigest (bibtex_key a))
       /\ a_title d = tval (title a) /\ a_year d = year a
       /\ exists s, author a = Some s /\ a_author d = find_author s)
    bib (g_articles g)
  /\ Forall2 (fun a z => py_int (year a) = Ok z) bib (g_years g).
Proof.
  intros H.
  apply build_ok in H as (years & ya & dicts & edges & Hy & Hya & Hd & _ & ->).
  cbn. apply build_year_arts_ok in Hya as (_ & _ & _ & _ & Hall & _).
  apply (collect_years_all _ _ Hall) in Hy. apply build_articles_mirror in Hd.
  change (map (convert_key md5_hexdigest okeys) bib)
    with (convert_key md5_hexdigest okeys <$> bib) in Hy, Hd.
  rewrite Forall2_fmap_l in Hy, Hd. split.
  - eapply Forall2_impl; [exact Hd|].
    intros a d (Hk & Ht & Hyr & s & Hs & Ha). destruct okeys; cbn in *;
      repeat split; try done; by exists s.
  - eapply Forall2_impl; [exact Hy|].
    intros a z Hz. cbn in Hz. by rewrite year_convert_key in Hz.
Qed.

(** X12. The graph of a build mirrors the bibliography, entry by entry and in
    order: the entry of an article has its key (converted when keys are
    converted), its title, its year as given and the names [find_author]
    extracts from its author field, and the list of years holds the year of
    each article as an integer. *)
Theorem graph_mirrors_bibliography (bib : list Article) (tei : string)
    (okeys flag : bool) (w w' : world) (g : graph) :
  build_graph_model ratio partial_ratio md5_hexdigest files biblStructs
    bib tei okeys flag w = (Ok g, w') ->
  Forall2
    (fun a d =>
       a_key d = (if okeys then bibtex_key a
                  else key_to_md5 md5_hexdigest (bibtex_key a))
       /\ a_title d = tval (title a) /\ a_year d = year a
       /\ exists s, author a = Some s /\ a_author d = find_author s)
    bib (g_articles g)
  /\ Forall2 (fun a z => py_int (year a) = Ok z) bib (g_years g).
Proof. apply graph_mirrors. Qed.

Lemma mirrors_key (articles : list Article) (dicts : list article_dict)
    (a : Article) :
  Forall2 mirrors articles dicts -> a ∈ articles ->
  bibtex_key a ∈ map a_key dicts.
Proof.
  induction 1 as [|a0 d l ds (Hk & _) _ IH]; intros Hin; [inversion Hin|].
  cbn. apply elem_of_cons in Hin as [->|Hin]; [rewrite <- Hk; by left|].
  right. by apply IH.
Qed.

(** X13. The parts of a built graph fit together. Every entry of the article
    list is listed in the year index under the year of the article, which
    is one of the years of the graph, and both ends of every edge are keys
    of entries of the article list, so that each end has a year in the
    index. *)
Theorem graph_is_consistent (bib : list Article) (tei : string)
    (okeys flag : bool) (w w' : world) (g : graph) :
  build_graph_model ratio partial_ratio md5_hexdigest files biblStructs
    bib tei okeys flag w = (Ok g, w') ->
  (forall d, d ∈ g_articles g ->
     exists y ks,
       py_int (a_year d) = Ok y /\ y ∈ g_years g
       /\ g_year_arts g !! y = Some ks /\ a_key d ∈ ks)
  /\ (forall e, e ∈ g_edges g ->
        e_from e ∈ map a_key (g_articles g)
        /\ e_to e ∈ map a_key (g_articles g)).
Proof.
  intros H.
  apply build_ok in H as (years & ya & dicts & edges & Hy & Hya & Hd & He & ->).
  cbn. set (articles := map (convert_key md5_hexdigest okeys) bib) in *.
  apply build_articles_mirror in Hd.
  apply build_year_arts_ok in Hya
    as (lo & hi & [_ Hlo] & [_ Hhi] & Hall & Hlook).
  split.
  - intros d Hin.
    assert (Ha : exists a, a ∈ articles /\ mirrors a d).
    { clear -Hd Hin. induction Hd as [|a d0 l ds Hm _ IH]; [inversion Hin|].
      apply elem_of_cons in Hin as [->|Hin]; [exists a; split; [by left|done]|].
      destruct (IH Hin) as (b & Hb & Hm'). exists b. split; [by right|done]. }
    destruct Ha as (a & Ha & Hk & _ & Hyr & _).
    rewrite Forall_forall in Hall. destruct (Hall a Ha) as [z Hz].
    assert (Hzin : z ∈ years).
    { rewrite (collect_years_elem _ _ Hy z). exists a.
      repeat split; try done. intros E. rewrite E in Hz. discriminate. }
    exists z, (map bibtex_key (List.filter (has_year z) articles)).
    rewrite Hyr. repeat split; try done.
    + rewrite Hlook, decide_True; [done|]. split; [by apply Hlo | by apply Hhi].
    + rewrite Hk. apply list_elem_of_fmap. exists a. split; [done|].
      apply list_elem_of_In, filter_In. split; [by apply list_elem_of_In|].
      unfold has_year. rewrite Hz. apply Z.eqb_refl.
  - assert (Hj : Forall (joins_two_articles articles) edges).
    { eapply add_edges_joins; [| |exact He]; [done | constructor]. }
    intros e Hin. rewrite Forall_forall in Hj.
    destruct (Hj e Hin) as (i & j & a & b & _ & Ha & Hb & -> & -> & _).
    split; eapply mirrors_key; try exact Hd;
      eapply list_elem_of_lookup_2; eassumption.
Qed.

Lemma process_ref_adds (articles : list Article) (article : Article)
    (flag : bool) (edges edges' : list edge) (ref : biblStruct)
    (w w' : world) :
  process_ref ratio partial_ratio articles article flag edges ref w
    = (Ok edges', w') ->
  bs_title ref <> None
  /\ exists added,
       edges' = edges ++ added /\ (length added <= 1)%nat
       /\ Forall (fun e => e_from e = bibtex_key article) added.
Proof.
  unfold process_ref, bind, lift, ref_title_of.
  destruct (bs_title ref) as [rt|]; [|discriminate].
  destruct (scan_candidates _ _ _ _ _ _ _ _ w) as [[[art|]|e] w1];
    try discriminate; intros [= <- _]; (split; [done|]).
  - eexists [_]. repeat split; [cbn; lia|]. by constructor.
  - exists []. rewrite app_nil_r. repeat split; [cbn; lia | constructor].
Qed.

Lemma process_refs_adds (articles : list Article) (article : Article)
    (flag : bool) (refs : list biblStruct) (edges edges' : list edge)
    (w w' : world) :
  process_refs ratio partial_ratio articles article flag edges refs w
    = (Ok edges', w') ->
  Forall (fun ref => bs_title ref <> None) refs
  /\ exists added,
       edges' = edges ++ added /\ (length added <= length refs)%nat
       /\ Forall (fun e => e_from e = bibtex_key article) added.
Proof.
  revert edges w. induction refs as [|ref refs IH]; cbn; intros edges w.
  - intros [= <- _]. split; [constructor|]. exists [].
    rewrite app_nil_r. repeat split; [cbn; lia | constructor].
  - unfold bind.
    destruct (process_ref _ _ _ _ _ _ _ w) as [[e1|e] w1] eqn:E1;
      [|discriminate].
    intros H. apply process_ref_adds in E1 as (Ht & a1 & -> & Hl1 & Hf1).
    apply IH in H as (Hts & a2 & -> & Hl2 & Hf2).
    split; [by constructor|]. exists (a1 ++ a2).
    rewrite app_assoc, length_app. repeat split; [lia|].
    by apply Forall_app.
Qed.

Lemma process_article_adds (tei : string) (articles : list Article)
    (flag : bool) (edges edges' : list edge) (article : Article)
    (w w' : world) :
  process_article ratio partial_ratio files biblStructs tei articles flag
    edges article w = (Ok edges', w') ->
  document_ok files biblStructs tei article
  /\ exists added,
       edges' = edges ++ added
       /\ (length added
           <= length (references_of files biblStructs tei article))%nat
       /\ Forall (fun e => e_from e = bibtex_key article) added.
Proof.
  assert (Hnone : exists added : list edge,
            edges = edges ++ added
            /\ (length added
                <= length (references_of files biblStructs tei article))%nat
            /\ Forall (fun e => e_from e = bibtex_key article) added).
  { exists []. rewrite app_nil_r. repeat split; [cbn; lia | constructor]. }
  unfold process_article.
  destruct (file article) as [f|] eqn:Ef.
  2:{ intros [= <- _]. split; [|exact Hnone].
      unfold document_ok. intros f' Hf'. congruence. }
  assert (Hdoc :
            match files !! tei_path tei f with
            | Some c =>
                c = no_blocks \/ c = bad_input_data
                \/ exists refs,
                     biblStructs c = Ok refs
                     /\ Forall (fun ref => bs_title ref <> None) refs
            | None => tval (title article) <> None
            end ->
            document_ok files biblStructs tei article).
  { intros H f' Hf'. rewrite Ef in Hf'. by injection Hf' as <-. }
  destruct (files !! tei_path tei f) as [c|] eqn:Ec.
  - destruct (_ || _) eqn:Es.
    + unfold bind, emit, ret. intros [= <- _]. split; [|exact Hnone].
      apply Hdoc. apply orb_prop in Es as [Es|Es];
        apply bool_decide_eq_true_1 in Es; auto.
    + unfold bind, emit, lift. cbn.
      destruct (biblStructs c) as [refs|e] eqn:Eb; [|discriminate].
      intros H. apply process_refs_adds in H as (Hts & added & -> & Hl & Hf).
      split.
      * apply Hdoc. right. right. by exists refs.
      * exists added. repeat split; [|done].
        unfold references_of. by rewrite Ef, Ec, Es, Eb.
  - destruct (tval (title article)) eqn:Et; [|discriminate].
    unfold bind, emit, ret. intros [= <- _]. split; [|exact Hnone].
    by apply Hdoc.
Qed.

Lemma add_edges_adds (tei : string) (articles todo : list Article)
    (flag : bool) (edges edges' : list edge) (w w' : world) :
  add_edges ratio partial_ratio files biblStructs tei articles flag edges
    todo w = (Ok edges', w') ->
  Forall (document_ok files biblStructs tei) todo
  /\ exists added,
       edges' = edges ++ added
       /\ (length added
           <= sum_list
                (map (fun a => length (references_of files biblStructs tei a))
                   todo))%nat
       /\ Forall (fun e => exists a,
                    a ∈ todo /\ e_from e = bibtex_key a
                    /\ references_of files biblStructs tei a <> []) added.
Proof.
  revert edges w. induction todo as [|a todo IH]; cbn; intros edges w.
  - intros [= <- _]. split; [constructor|]. exists [].
    rewrite app_nil_r. repeat split; [cbn; lia | constructor].
  - unfold bind.
    destruct (process_article _ _ _ _ _ _ _ _ _ w) as [[e1|e] w1] eqn:E1;
      [|discriminate].
    intros H. apply process_article_adds in E1 as (Hd & a1 & -> & Hl1 & Hf1).
    apply IH in H as (Hds & a2 & -> & Hl2 & Hf2).
    split; [by constructor|]. exists (a1 ++ a2).
    rewrite app_assoc, length_app. repeat split;
      [by apply Nat.add_le_mono|].
    apply Forall_app. split.
    + apply Forall_forall. intros e Hin. exists a.
      rewrite Forall_forall in Hf1. repeat split; [by left | by apply Hf1 |].
      intros E. rewrite E in Hl1. destruct a1; [inversion Hin|].
      cbn in Hl1. lia.
    + eapply Forall_impl; [exact Hf2|]. intros e (b & Hb & Hk & Hr).
      exists b. repeat split; [by right | done..].
Qed.

(** X14. Every edge of a built graph starts at an article that has a parsed
    document with at least one reference (the article names a file, its TEI
    file exists, holds no failure text and parses), and the graph has at
    most as many edges as these documents have references. *)
Theorem edges_come_from_documents (bib : list Article) (tei : string)
    (okeys flag : bool) (w w' : world) (g : graph) :
  build_graph_model ratio partial_ratio md5_hexdigest files biblStructs
    bib tei okeys flag w = (Ok g, w') ->
  let articles := map (convert_key md5_hexdigest okeys) bib in
  (length (g_edges g)
   <= sum_list
        (map (fun a => length (references_of files biblStructs tei a))
           articles))%nat
  /\ forall e, e ∈ g_edges g ->
       exists a,
         a ∈ articles /\ e_from e = bibtex_key a
         /\ references_of files biblStructs tei a <> [].
Proof.
  intros H articles.
  apply build_ok in H as (years & ya & dicts & edges & _ & _ & _ & He & ->).
  fold articles in He. cbn.
  apply add_edges_adds in He as (_ & added & -> & Hlen & Hall).
  cbn. split; [exact Hlen|]. by apply Forall_forall.
Qed.

Lemma document_ok_convert (tei : string) (b : bool) (a : Article) :
  document_ok files biblStructs tei (convert_key md5_hexdigest b a)
  <-> document_ok files biblStructs tei a.
Proof. by destruct b. Qed.

(** X15. A build returns a graph only when every article has an author field
    and a usable document: when the article names a file, either its TEI
    file is missing and its title is a string, or the TEI file holds a
    failure text, or it parses and every reference in it has a title
    element. Otherwise the build raises and no graph is returned. *)
Theorem build_needs_documents (bib : list Article) (tei : string)
    (okeys flag : bool) (w w' : world) (g : graph) :
  build_graph_model ratio partial_ratio md5_hexdigest files biblStructs
    bib tei okeys flag w = (Ok g, w') ->
  Forall (fun a => author a <> None
                   /\ document_ok files biblStructs tei a) bib.
Proof.
  intros H.
  assert (Hm := H). apply graph_mirrors in Hm as [Hm _].
  apply build_ok in H as (years & ya & dicts & edges & _ & _ & _ & He & ->).
  apply add_edges_adds in He as (Hdocs & _).
  rewrite Forall_map in Hdocs.
  apply Forall_forall. intros a Ha. split.
  - clear -Hm Ha. cbn in Hm.
    induction Hm as [|a0 d l ds (_ & _ & _ & s & Hs & _) _ IH];
      [inversion Ha|].
    apply elem_of_cons in Ha as [->|Ha]; [by rewrite Hs | by apply IH].
  - rewrite Forall_forall in Hdocs.
    exact (proj1 (document_ok_convert tei okeys a) (Hdocs a Ha)).
Qed.

Lemma doi_match_None_r (a : option string) : doi_match a None = false.
Proof.
  destruct (doi_match a None) eqn:E; [|reflexivity].
  by apply doi_match_true in E as (d & _ & [=]).
Qed.

(** X16. A reference whose title element has no text and that has no DOI
    matches no article: it adds no edge and leaves the world as it is, in
    either mode, provided every candidate has an author field. *)
Theorem reference_without_title_and_doi_is_skipped
    (articles : list Article) (article : Article) (flag : bool)
    (edges : list edge) (ref : biblStruct) (w : world) :
  bs_title ref = Some None ->
  find_doi (ref_doi_of ref) = None ->
  Forall (fun a => author a <> None) articles ->
  process_ref ratio partial_ratio articles article flag edges ref w
  = (Ok edges, w).
Proof.
  intros Ht Hd Hall. unfold process_ref, bind, lift, ref_title_of.
  rewrite Ht.
  assert (Hs : scan_candidates ratio partial_ratio article (ref_doi_of ref)
                 None (bs_surnames ref) flag articles w = (Ok None, w)).
  { induction Hall as [|c l Hc _ IH]; [reflexivity|].
    cbn. unfold bind, lift. destruct (author c) as [s|]; [|done]. cbn.
    destruct (py_is _ _); [exact IH|].
    unfold citation_matching. rewrite Hd, doi_match_None_r.
    destruct (tval (title c)); cbn; exact IH. }
  by rewrite Hs.
Qed.

Lemma collect_years_total (articles : list Article) :
  Forall year_converts articles ->
  exists years,
    collect_years articles = Ok years /\ (articles <> [] -> years <> []).
Proof.
  induction 1 as [|a l [z Hz] _ (ys & IH & _)]; [by exists []|]. cbn.
  destruct (year a) as [|z0|s]; cbn in Hz |- *.
  - discriminate.
  - rewrite IH. by exists (z0 :: ys).
  - destruct (int_of_string s) as [z1|]; [|discriminate].
    rewrite IH. by exists (z1 :: ys).
Qed.

Lemma build_articles_total (articles : list Article) :
  Forall (fun a => author a <> None) articles ->
  exists dicts, build_articles articles = Ok dicts.
Proof.
  induction 1 as [|a l Ha _ [ds IH]]; [by exists []|]. cbn.
  destruct (author a) as [s|]; [|done]. cbn. rewrite IH. by eexists.
Qed.

Lemma citation_matching_auto (da dr ta tr : option string)
    (aa : list string) (ar : list (option string)) (w : world) :
  None ∉ ar ->
  exists b,
    citation_matching ratio partial_ratio da dr ta tr aa ar true w
    = (Ok b, w).
Proof.
  intros Hn. unfold citation_matching.
  destruct (doi_match _ _); [by eexists|].
  destruct ta as [ta|], tr as [tr|]; try by eexists.
  destruct (titles_match _ _).
  - unfold bind, lift.
    destruct (find_matching_authors ratio aa ar) as [[counter number]|e]
      eqn:E.
    + destruct (2 <=? counter); by eexists.
    + by apply find_matching_authors_raise in E as [_ ?].
  - destruct (titles_unsure _ _); by eexists.
Qed.

Lemma scan_candidates_auto (article : Article) (rd rt : option string)
    (ra : list (option string)) (candidates : list Article) (w : world) :
  None ∉ ra ->
  Forall (fun a => author a <> None) candidates ->
  exists found,
    scan_candidates ratio partial_ratio article rd rt ra true candidates w
    = (Ok found, w).
Proof.
  intros Hn. induction 1 as [|c l Hc _ IH]; [by eexists|].
  cbn. unfold bind, lift.
  destruct (author c) as [s|]; [|done]. cbn.
  destruct (py_is _ _); [exact IH|].
  destruct (citation_matching_auto (doi c) rd (tval (title c)) rt
              (find_author s) ra w Hn) as [[|] ->]; [by eexists | exact IH].
Qed.

Lemma process_refs_auto (articles : list Article) (article : Article)
    (refs : list biblStruct) (edges : list edge) (w : world) :
  Forall (fun a => author a <> None) articles ->
  Forall (fun ref => bs_title ref <> None) refs ->
  Forall (fun ref => None ∉ bs_surnames ref) refs ->
  exists edges',
    process_refs ratio partial_ratio articles article true edges refs w
    = (Ok edges', w).
Proof.
  intros Hau Hrefs Hsur. revert edges.
  induction Hrefs as [|ref refs Ht _ IH]; intros edges; [by eexists|].
  apply Forall_cons in Hsur as [Hs Hsur].
  cbn. unfold bind at 1. unfold process_ref, bind, lift, ref_title_of.
  destruct (bs_title ref) as [rt|]; [|done].
  destruct (scan_candidates_auto article (ref_doi_of ref) rt
              (bs_surnames ref) articles w Hs Hau) as [[art|] ->];
    by apply IH.
Qed.

Lemma add_edges_auto (tei : string) (articles todo : list Article)
    (edges : list edge) (w : world) :
  Forall (fun a => author a <> None) articles ->
  Forall (fun a => document_ok files biblStructs tei a
                   /\ surnames_ok files biblStructs tei a) todo ->
  exists edges' w',
    add_edges ratio partial_ratio files biblStructs tei articles true edges
      todo w = (Ok edges', w').
Proof.
  intros Hau Hdocs. revert edges w.
  induction Hdocs as [|a todo [Ha Hsur] _ IH]; intros edges w;
    [by eexists _, _|].
  cbn. unfold bind at 1. unfold process_article.
  unfold surnames_ok, references_of in Hsur.
  destruct (file a) as [f|] eqn:Ef; [|apply IH].
  specialize (Ha f Ef).
  destruct (files !! tei_path tei f) as [c|].
  - destruct (_ || _) eqn:Es; [unfold bind, emit, ret; apply IH|].
    destruct Ha as [->| [->| (refs & Hr & Hts)]].
    + by rewrite bool_decide_eq_true_2 in Es.
    + rewrite (bool_decide_eq_true_2 (bad_input_data = bad_input_data)) in Es
        by done.
      by rewrite orb_true_r in Es.
    + unfold bind, emit, lift. cbn. rewrite Hr in Hsur |- *.
      match goal with
      | |- context [process_refs _ _ _ _ _ ?e ?rs ?w0] =>
          destruct (process_refs_auto articles a rs e w0 Hau Hts Hsur)
            as [e' ->]
      end.
      apply IH.
  - destruct (tval (title a)); [|done]. unfold bind, emit, ret. apply IH.
Qed.

Lemma surnames_ok_convert (tei : string) (okeys : bool) (a : Article) :
  surnames_ok files biblStructs tei (convert_key md5_hexdigest okeys a)
  <-> surnames_ok files biblStructs tei a.
Proof. by destruct okeys. Qed.

(** X17. In the automated mode the conditions that a build needs are, for
    documents in which every surname has text, also enough for the graph:
    for a non-empty bibliography in which every article has a year that
    [int] accepts, an author field and a usable document of that kind, no
    step from the opening divider to the last edge raises, and the graph
    is there to be written. *)
Theorem automated_build_completes_graph (bib : list Article) (tei : string)
    (okeys : bool) (w : world) :
  bib <> [] ->
  Forall (fun a => year_converts a /\ author a <> None
                   /\ document_ok files biblStructs tei a
                   /\ surnames_ok files biblStructs tei a) bib ->
  exists g w',
    build_graph_model ratio partial_ratio md5_hexdigest files biblStructs
      bib tei okeys true w = (Ok g, w').
Proof.
  intros Hne Hall.
  set (articles := map (convert_key md5_hexdigest okeys) bib).
  assert (Hy : Forall year_converts articles).
  { apply year_converts_convert. eapply Forall_impl; [exact Hall|].
    by intros a (? & _). }
  assert (Ha : Forall (fun a => author a <> None) articles).
  { apply Forall_map. eapply Forall_impl; [exact Hall|].
    intros a (_ & ? & _). by destruct okeys. }
  assert (Hd : Forall (fun a => document_ok files biblStructs tei a
                               /\ surnames_ok files biblStructs tei a)
                 articles).
  { apply Forall_map. eapply Forall_impl; [exact Hall|].
    intros a (_ & _ & ? & ?).
    split; [by apply document_ok_convert | by apply surnames_ok_convert]. }
  destruct (collect_years_total articles Hy) as (years & Ey & Hyne).
  assert (Hyears : years <> []).
  { apply Hyne. unfold articles. by destruct bib. }
  destruct years as [|z0 zs]; [done|].
  destruct (fill_year_arts_total articles
              (py_range (fold_left Z.min zs z0) (fold_left Z.max zs z0 + 1))
              ∅ Hy) as [ya Eya].
  destruct (build_articles_total articles Ha) as [dicts Ed].
  destruct (add_edges_auto tei articles articles [] (started w) Ha Hd)
    as (edges & w' & Ee).
  exists (Graph (z0 :: zs) ya dicts edges), w'.
  unfold build_graph_model, bind, emit, lift. cbn. fold articles.
  fold (started w).
  rewrite Ey. unfold build_year_arts. cbn. rewrite Eya, Ed, Ee. reflexivity.
Qed.

End OutputFacts.

Section DecisionFacts.

Variable ratio : string -> string -> Z.
Variable partial_ratio : string -> string -> Z.


Lemma ask_user_yes (ta tr : string) (aa : list string)
    (ar : list (option string)) (w w' : world) :
  ask_user false ta tr aa ar w = (Ok true, w') ->
  lookup_answer (ta, tr, aa, ar) (user_answers w') = Some true.
Proof.
  destruct (lookup_answer (ta, tr, aa, ar) (user_answers w)) as [a|] eqn:E.
  - rewrite (ask_user_cached _ _ _ _ _ _ E). by intros [= -> <-].
  - rewrite (ask_user_fresh _ _ _ _ _ E).
    destruct (stdin w) as [|line lines]; [discriminate|].
    intros [= -> <-]. cbn. by apply lookup_answer_snoc.
Qed.


(** X19. What the automated mode accepts needs no question: when
    [citation_matching] returns [True] in the automated mode, it returns
    [True] in either mode and in any world, and leaves the world as it
    is. *)
Theorem automated_match_needs_no_question
    (da dr ta tr : option string) (aa : list string)
    (ar : list (option string)) (w w' : world) :
  citation_matching ratio partial_ratio da dr ta tr aa ar true w
  = (Ok true, w') ->
  forall (flag : bool) (w2 : world),
    citation_matching ratio partial_ratio da dr ta tr aa ar flag w2
    = (Ok true, w2).
Proof.
  unfold citation_matching.
  destruct (doi_match _ _); [done|].
  destruct ta as [ta|], tr as [tr|]; try discriminate.
  destruct (titles_match _ _).
  - unfold bind, lift.
    destruct (find_matching_authors _ _ _) as [[counter number]|e];
      [|discriminate].
    destruct (2 <=? counter); [done|]. by rewrite ask_user_auto.
  - destruct (titles_unsure _ _); [|discriminate]. by rewrite ask_user_auto.
Qed.

(** X20. A match of the interactive mode that the automated mode does not
    make is backed by an answer: both titles are strings, and afterwards
    the answer [True] is recorded for the question made of the two cleaned
    titles and the two author lists. *)
Theorem interactive_match_is_backed_by_answer
    (da dr ta tr : option string) (aa : list string)
    (ar : list (option string)) (w w' : world) :
  citation_matching ratio partial_ratio da dr ta tr aa ar false w
  = (Ok true, w') ->
  citation_matching ratio partial_ratio da dr ta tr aa ar true w
  = (Ok false, w) ->
  exists ta' tr',
    ta = Some ta' /\ tr = Some tr'
    /\ lookup_answer (clean_title ta', clean_title tr', aa, ar)
         (user_answers w') = Some true.
Proof.
  unfold citation_matching.
  destruct (doi_match _ _); [by intros _ ?|].
  destruct ta as [ta|], tr as [tr|]; try discriminate.
  intros H H'. exists ta, tr. split; [done|]. split; [done|].
  revert H H'.
  destruct (titles_match _ _).
  - unfold bind, lift.
    destruct (find_matching_authors _ _ _) as [[counter number]|e];
      [|discriminate].
    destruct (2 <=? counter); [by intros _ ?|].
    intros H _. by apply ask_user_yes in H.
  - destruct (titles_unsure _ _); [|discriminate].
    intros H _. by apply ask_user_yes in H.
Qed.

End DecisionFacts.

Section KeyFacts.

Variable ratio : string -> string -> Z.
Variable partial_ratio : string -> string -> Z.
Variable md5_hexdigest : string -> string.
Variable files : gmap string string.
Variable biblStructs : string -> res (list biblStruct).

Abbreviation rekey := (convert_key md5_hexdigest false).
Abbreviation hk := (key_to_md5 md5_hexdigest).

Lemma convert_key_original (bib : list Article) :
  map (convert_key md5_hexdigest true) bib = bib.
Proof. induction bib as [|a l IH]; cbn; [done | by rewrite IH]. Qed.

Lemma collect_years_rekey (l : list Article) :
  collect_years (map rekey l) = collect_years l.
Proof. induction l as [|a l IH]; cbn; [done | by rewrite IH]. Qed.

Lemma this_year_arts_rekey (y : Z) (l : list Article) :
  this_year_arts y (map rekey l) = on_ok (map hk) (this_year_arts y l).
Proof.
  induction l as [|a l IH]; cbn; [done|]. rewrite IH.
  destruct (py_int (year a)); [|done].
  destruct (this_year_arts y l); cbn; [|done]. by destruct (Z.eqb _ _).
Qed.

Lemma fill_year_arts_rekey (l : list Article) (ys : list Z)
    (m : gmap Z (list string)) :
  fill_year_arts (map rekey l) ys (map hk <$> m)
  = on_ok (fmap (map hk)) (fill_year_arts l ys m).
Proof.
  revert m. induction ys as [|y ys IH]; intros m; cbn; [done|].
  rewrite this_year_arts_rekey.
  destruct (this_year_arts y l) as [ks|]; cbn; [|done].
  rewrite <- fmap_insert. apply IH.
Qed.

Lemma build_year_arts_rekey (l : list Article) (years : list Z) :
  build_year_arts (map rekey l) years
  = on_ok (fmap (map hk)) (build_year_arts l years).
Proof.
  unfold build_year_arts. destruct (py_min years); [|done].
  destruct (py_max years); [|done].
  etrans; [|apply fill_year_arts_rekey]. by rewrite fmap_empty.
Qed.

Lemma build_articles_rekey (l : list Article) :
  build_articles (map rekey l)
  = on_ok (map (rename_dict hk)) (build_articles l).
Proof.
  induction l as [|a l IH]; cbn; [done|]. rewrite IH.
  destruct (find_author_field (author a)); [|done].
  by destruct (build_articles l).
Qed.

Lemma scan_candidates_rekey (article : Article) (rd rt : option string)
    (ra : list (option string)) (flag : bool) (candidates : list Article)
    (w : world) :
  scan_candidates ratio partial_ratio (rekey article) rd rt ra flag
    (map rekey candidates) w
  = (on_ok (option_map rekey)
       (fst (scan_candidates ratio partial_ratio article rd rt ra flag
               candidates w)),
     snd (scan_candidates ratio partial_ratio article rd rt ra flag
            candidates w)).
Proof.
  revert w. induction candidates as [|c l IH]; intros w; cbn; [done|].
  unfold bind, lift. destruct (find_author_field (author c)); [|done].
  destruct (py_is _ _); [apply IH|].
  destruct (citation_matching _ _ _ _ _ _ _ _ _ _) as [[[|]|e] w1];
    [done | apply IH | done].
Qed.

Lemma process_ref_rekey (articles : list Article) (article : Article)
    (flag : bool) (edges : list edge) (ref : biblStruct) (w : world) :
  process_ref ratio partial_ratio (map rekey articles) (rekey article) flag
    (map (rename_edge hk) edges) ref w
  = (on_ok (map (rename_edge hk))
       (fst (process_ref ratio partial_ratio articles article flag edges
               ref w)),
     snd (process_ref ratio partial_ratio articles article flag edges
            ref w)).
Proof.
  unfold process_ref, bind, lift.
  destruct (ref_title_of ref) as [rt|]; [|done].
  rewrite scan_candidates_rekey.
  destruct (scan_candidates _ _ article _ _ _ _ _ _) as [[[art|]|e] w1];
    cbn; [|done..].
  by rewrite map_app.
Qed.

Lemma process_refs_rekey (articles : list Article) (article : Article)
    (flag : bool) (edges : list edge) (refs : list biblStruct) (w : world) :
  process_refs ratio partial_ratio (map rekey articles) (rekey article) flag
    (map (rename_edge hk) edges) refs w
  = (on_ok (map (rename_edge hk))
       (fst (process_refs ratio partial_ratio articles article flag edges
               refs w)),
     snd (process_refs ratio partial_ratio articles article flag edges
            refs w)).
Proof.
  revert edges w. induction refs as [|ref refs IH]; intros edges w;
    cbn [process_refs]; [done|].
  unfold bind. rewrite process_ref_rekey.
  destruct (process_ref _ _ articles _ _ _ _ _) as [[edges'|e] w1]; cbn;
    [apply IH | done].
Qed.

Lemma process_article_rekey (tei : string) (articles : list Article)
    (flag : bool) (edges : list edge) (article : Article) (w : world) :
  process_article ratio partial_ratio files biblStructs tei
    (map rekey articles) flag (map (rename_edge hk) edges) (rekey article) w
  = (on_ok (map (rename_edge hk))
       (fst (process_article ratio partial_ratio files biblStructs tei
               articles flag edges article w)),
     snd (process_article ratio partial_ratio files biblStructs tei
            articles flag edges article w)).
Proof.
  unfold process_article.
  change (file (rekey article)) with (file article).
  change (title (rekey article)) with (title article).
  destruct (file article) as [f|]; [|done].
  destruct (files !! tei_path tei f) as [c|].
  - destruct (_ || _); [done|]. unfold bind, emit, lift. lazy beta iota.
    destruct (biblStructs c) as [refs|]; [|done].
    apply process_refs_rekey.
  - by destruct (tval (title article)).
Qed.

Lemma add_edges_rekey (tei : string) (articles todo : list Article)
    (flag : bool) (edges : list edge) (w : world) :
  add_edges ratio partial_ratio files biblStructs tei (map rekey articles)
    flag (map (rename_edge hk) edges) (map rekey todo) w
  = (on_ok (map (rename_edge hk))
       (fst (add_edges ratio partial_ratio files biblStructs tei articles
               flag edges todo w)),
     snd (add_edges ratio partial_ratio files biblStructs tei articles
            flag edges todo w)).
Proof.
  revert edges w. induction todo as [|a todo IH]; intros edges w;
    cbn [add_edges map]; [done|].
  unfold bind. rewrite process_article_rekey.
  destruct (process_article _ _ _ _ _ articles _ _ _ _) as [[edges'|e] w1];
    cbn; [apply IH | done].
Qed.

(** X21. Converting the keys only renames. The build with converted keys
    ends in the same world as the build with the original keys, raises the
    same exception if that one raises, and otherwise returns its graph with
    every key (in the year index, in the article entries and at both ends
    of every edge) passed through [key_to_md5]. *)
Theorem converted_keys_only_rename (bib : list Article) (tei : string)
    (flag : bool) (w w' : world) (r : res graph) :
  build_graph_model ratio partial_ratio md5_hexdigest files biblStructs
    bib tei true flag w = (r, w') ->
  build_graph_model ratio partial_ratio md5_hexdigest files biblStructs
    bib tei false flag w = (on_ok (rename_graph hk) r, w').
Proof.
  unfold build_graph_model, bind, emit, lift. cbn.
  rewrite convert_key_original, collect_years_rekey.
  destruct (collect_years bib) as [years|]; [|by intros [= <- <-]].
  rewrite build_year_arts_rekey.
  destruct (build_year_arts bib years) as [ya|]; cbn;
    [|by intros [= <- <-]].
  rewrite build_articles_rekey.
  destruct (build_articles bib) as [dicts|]; cbn; [|by intros [= <- <-]].
  rewrite (add_edges_rekey tei bib bib flag []).
  destruct (add_edges _ _ _ _ _ bib _ _ _ _) as [[edges|e] w1]; cbn;
    by intros [= <- <-].
Qed.

End KeyFacts.

(** * The theorems at work *)

(** ** The text functions on a few inputs *)

Example find_author_backtracks :
  find_author ",and   " = [" "] /\ find_author "and  ,x" = ["and  "]
  /\ find_author "Smith, Ferdinand and Lee, Al" = ["Smith"; "and Lee"]
  /\ find_author "van der Berg, John AND Mc-Doe, Jane" = ["van der Berg"; "Mc-Doe"].
Proof. repeat split; vm_compute; reflexivity. Qed.

Example find_doi_samples :
  find_doi (Some "https://doi.org/10.1234/abc.def rest") = Some "10.1234/abc.def"
  /\ find_doi (Some "1.1234/abc") = None
  /\ find_doi (Some "910.12/3/ 4") = Some "10.12/3/"
  /\ find_doi None = None.
Proof. repeat split; vm_compute; reflexivity. Qed.

Example int_of_string_samples :
  int_of_string " 20_17 " = Some 2017 /\ int_of_string "+2017" = Some 2017
  /\ int_of_string "-5" = Some (-5) /\ int_of_string "2017a" = None
  /\ int_of_string "" = None /\ int_of_string "1__0" = None
  /\ int_of_string "+ 1" = None /\ int_of_string "5 5" = None.
Proof. repeat split; vm_compute; reflexivity. Qed.

Example int_of_string_long :
  int_of_string (text (repeat "0"%char 4299 ++ ["7"%char])) = Some 7
  /\ int_of_string (text (repeat "0"%char 4300 ++ ["7"%char])) = None
  /\ int_of_string (text ("-"%char :: repeat "0"%char 4299 ++ chars "7 "))
     = Some (-7).
Proof. repeat split; vm_compute; reflexivity. Qed.

Example key_to_md5_samples :
  key_to_md5 (fun _ => "0cc175b9c0f1b6a831c399e269772661") "Saha2017" = "0cc175"
  /\ key_to_md5 (fun _ => "900150983cd24fb0d6963f7d28e17f72") "abc" = "900150a".
Proof. repeat split; vm_compute; reflexivity. Qed.

Example tei_path_samples :
  tei_path "tei" "pdfs/saha.pdf" = "tei/saha.tei.xml"
  /\ tei_path "tei/" "saha.pdf" = "tei/saha.tei.xml"
  /\ tei_path "" "a/b/c.pdf" = "c.tei.xml".
Proof. repeat split; vm_compute; reflexivity. Qed.

(** Equal author lists score 5 for the first author and 1 for the second.
    A surname without text raises when the scan comes to it, and only
    then. *)
Example find_matching_authors_sample :
  find_matching_authors Sample.ratio ["Smith"; "Lee"]
    [Some "Smith"; Some "Lee"] = Ok (6, 2)
  /\ find_matching_authors Sample.ratio [] [Some "Smith"] = Ok (0, 1)
  /\ find_matching_authors Sample.ratio ["Lee"; "Smith"]
       [Some "Smith"; Some "Lee"] = Ok (6, 2)
  /\ find_matching_authors Sample.ratio ["Smith"; "Lee"]
       [Some "Smith"; None] = Raise AttributeError
  /\ find_matching_authors Sample.ratio ["Smith"; "Lee"]
       [Some "Smith"; Some "Lee"; None] = Ok (6, 3)
  /\ find_matching_authors Sample.ratio ["Smith"] [None] = Raise AttributeError
  /\ find_matching_authors Sample.ratio [] [None] = Ok (0, 1).
Proof. repeat split; vm_compute; reflexivity. Qed.

Example sample_build :
  Sample.build Sample.bib true Sample.w0 = (Ok Sample.the_graph, Sample.the_world).
Proof. vm_compute. reflexivity. Qed.

(** ** Match decision *)

(** Equal DOIs decide, although the titles have nothing in common and the
    similarity functions say so. *)
Lemma doi_equality_decides_witness :
  citation_matching (fun _ _ => 0) (fun _ _ => 0)
    (Some "10.1234/abc") (Some "doi:10.1234/abc")
    (Some "Deep Learning for NLP") (Some "A Field Guide to Mosses")
    ["Smith"] [Some "Lee"] false Sample.w_yes
  = (Ok true, Sample.w_yes).
Proof.
  apply (doi_equality_decides (fun _ _ => 0) (fun _ _ => 0)
           (Some "10.1234/abc") (Some "doi:10.1234/abc") _ _ _ _ false
           Sample.w_yes "10.1234/abc"); vm_compute; reflexivity.
Defined.

(** Titles that match with an author score of 6, and titles that match
    with a surname without text in the way of the author matcher. *)
Lemma title_decision_table_witness :
  citation_matching Sample.ratio Sample.ratio None (Some "10.1234/abc")
    (Some "Deep {L}earning for NLP") (Some "DEEP LEARNING FOR NLP")
    ["Smith"; "Lee"] [Some "Smith"; Some "Lee"] false Sample.w_yes
  = (Ok true, Sample.w_yes)
  /\ citation_matching Sample.ratio Sample.ratio None (Some "10.1234/abc")
       (Some "Deep {L}earning for NLP") (Some "DEEP LEARNING FOR NLP")
       ["Lee"] [Some "Smith"; None] false Sample.w_yes
     = (Raise AttributeError, Sample.w_yes).
Proof.
  split.
  - apply (proj1 (title_decision_table Sample.ratio Sample.ratio None
                    (Some "10.1234/abc") "Deep {L}earning for NLP"
                    "DEEP LEARNING FOR NLP" ["Smith"; "Lee"]
                    [Some "Smith"; Some "Lee"] false Sample.w_yes
                    ltac:(vm_compute; reflexivity))
             ltac:(left; vm_compute; reflexivity) 6 2
             ltac:(vm_compute; reflexivity)).
    vm_compute. discriminate.
  - apply (proj1 (proj2 (proj2
             (title_decision_table Sample.ratio Sample.ratio None
                (Some "10.1234/abc") "Deep {L}earning for NLP"
                "DEEP LEARNING FOR NLP" ["Lee"] [Some "Smith"; None] false
                Sample.w_yes ltac:(vm_compute; reflexivity))))
             ltac:(left; vm_compute; reflexivity) AttributeError).
    vm_compute. reflexivity.
Defined.

(** ** The build *)

(** The years 2010 and 2013 only: the index has the four years 2010 to 2013,
    and 2011 and 2012 hold the empty list. *)
Lemma year_index_covers_range_witness :
  Sample.build Sample.bib true Sample.w0 = (Ok Sample.the_graph, Sample.the_world)
  /\ g_year_arts Sample.the_graph !! 2009 = None
  /\ g_year_arts Sample.the_graph !! 2010 = Some ["Madaan and Mittal (2010)"]
  /\ g_year_arts Sample.the_graph !! 2011 = Some []
  /\ g_year_arts Sample.the_graph !! 2012 = Some []
  /\ g_year_arts Sample.the_graph !! 2013 = Some ["Saha et al (2013)"]
  /\ g_year_arts Sample.the_graph !! 2014 = None.
Proof.
  assert (H : Sample.build Sample.bib true Sample.w0
              = (Ok Sample.the_graph, Sample.the_world))
    by (vm_compute; reflexivity).
  split; [exact H|].
  destruct (year_index_covers_range Sample.ratio Sample.ratio
              Sample.md5_hexdigest Sample.files Sample.biblStructs
              Sample.bib "tei" true true Sample.w0 Sample.the_world
              Sample.the_graph H)
    as (lo & hi & _ & [Hlo Hlo'] & [Hhi Hhi'] & Hdom & Hin & _).
  assert (Elo : lo = 2010).
  { specialize (Hlo' 2010 ltac:(right; left)).
    apply elem_of_cons in Hlo as [-> | Hlo]; [lia|].
    by apply list_elem_of_singleton in Hlo. }
  assert (Ehi : hi = 2013).
  { specialize (Hhi' 2013 ltac:(left)).
    apply elem_of_cons in Hhi as [-> | Hhi]; [done|].
    apply list_elem_of_singleton in Hhi. lia. }
  subst lo hi.
  assert (Hout : forall y, ~ (2010 <= y <= 2013) ->
            g_year_arts Sample.the_graph !! y = None).
  { intros y Hy. apply eq_None_not_Some. by rewrite Hdom. }
  repeat split;
    try (rewrite Hin by lia; reflexivity);
    apply Hout; lia.
Defined.

Lemma build_needs_every_year_witness :
  (Sample.bib <> [] /\ Forall year_converts Sample.bib)
  /\ (exists e,
        Sample.build [Sample.saha; Sample.undated] true Sample.w0
          = (Raise e, started Sample.w0)
        /\ (e = TypeError \/ e = ValueError))
  /\ Sample.build [Sample.undated] true Sample.w0
       = (Raise ValueError, started Sample.w0).
Proof.
  split; [|split].
  - apply (proj1 (build_needs_every_year Sample.ratio Sample.ratio
                    Sample.md5_hexdigest Sample.files Sample.biblStructs
                    Sample.bib "tei" true true Sample.w0)
             Sample.the_graph Sample.the_world).
    vm_compute. reflexivity.
  - apply (proj1 (proj2 (build_needs_every_year Sample.ratio Sample.ratio
                    Sample.md5_hexdigest Sample.files Sample.biblStructs
                    [Sample.saha; Sample.undated] "tei" true true Sample.w0))).
    apply Exists_cons_tl, Exists_cons_hd. reflexivity.
  - apply (proj2 (proj2 (build_needs_every_year Sample.ratio Sample.ratio
                    Sample.md5_hexdigest Sample.files Sample.biblStructs
                    [Sample.undated] "tei" true true Sample.w0))).
    repeat constructor.
Defined.

(** The one edge of the sample graph joins two articles, and its two keys
    differ. *)
Lemma no_edge_to_itself_witness :
  Sample.build Sample.bib true Sample.w0 = (Ok Sample.the_graph, Sample.the_world)
  /\ Forall (joins_two_articles Sample.bib) (g_edges Sample.the_graph)
  /\ Forall (fun e => e_from e <> e_to e) (g_edges Sample.the_graph).
Proof.
  assert (H : Sample.build Sample.bib true Sample.w0
              = (Ok Sample.the_graph, Sample.the_world))
    by (vm_compute; reflexivity).
  destruct (no_edge_to_itself Sample.ratio Sample.ratio Sample.md5_hexdigest
              Sample.files Sample.biblStructs Sample.bib "tei" true true
              Sample.w0 Sample.the_world Sample.the_graph H) as (_ & H1 & H2).
  split; [exact H|]. split; [exact H1|]. apply H2. cbn.
  repeat constructor; rewrite ?elem_of_cons, ?elem_of_nil; intros Hin;
    repeat destruct Hin as [Hin | Hin]; try discriminate Hin; done.
Defined.

(** The operator is asked about the second candidate and answers [y]: one
    edge, and the third candidate, a second entry for the same paper, is
    not looked at; the line [n] is left unread. *)
Lemma first_match_wins_witness :
  let bib := [Desk.review; Sample.madaan; Desk.twin] in
  let run :=
    build_graph_model Sample.ratio Sample.ratio Sample.md5_hexdigest
      Desk.files Desk.biblStructs bib "tei" true false Sample.w_yes in
  let adds :=
    article_adds Sample.ratio Sample.ratio Desk.files Desk.biblStructs
      "tei" bib false in
  exists g,
    run = (Ok g, snd run)
    /\ g_edges g = [Edge "Review (2014)" "Madaan and Mittal (2010)"]
    /\ stdin (snd run) = ["n"]
    /\ in_turn adds bib (started Sample.w_yes) (g_edges g) (snd run).
Proof.
  intros bib run adds.
  assert (H : exists g, run = (Ok g, snd run)
                        /\ g_edges g
                           = [Edge "Review (2014)"
                                "Madaan and Mittal (2010)"]).
  { eexists. split; vm_compute; reflexivity. }
  destruct H as (g & H & He). exists g.
  split; [exact H|]. split; [exact He|].
  split; [vm_compute; reflexivity|].
  exact (proj1 (first_match_wins Sample.ratio Sample.ratio
                  Sample.md5_hexdigest Desk.files Desk.biblStructs bib
                  "tei" true false Sample.w_yes (snd run) g H)).
Defined.

(** The operator answers [y] to a question; then the console is written
    to and a whole interactive build runs, in which another question is
    asked and answered [n]; the first question is then answered from the
    list. *)
Lemma answered_question_is_not_asked_again_witness :
  let q : question := ("A", "B", ["Smith"], [Some "Smyth"; None]) in
  let w1 := World [(q, true)] ["n"] (prompt_events q) in
  let w2 := snd (Desk.build false (wrote (EvPrint "") w1)) in
  ask_user false "A" "B" ["Smith"] [Some "Smyth"; None] Sample.w_yes
  = (Ok true, w1)
  /\ (map snd (user_answers w2) = [true; false] /\ stdin w2 = [])
  /\ ask_user false "A" "B" ["Smith"] [Some "Smyth"; None] w2 = (Ok true, w2).
Proof.
  intros q w1 w2.
  assert (H1 : ask_user false "A" "B" ["Smith"] [Some "Smyth"; None]
                 Sample.w_yes = (Ok true, w1)) by (vm_compute; reflexivity).
  split; [exact H1|]. split; [split; vm_compute; reflexivity|].
  apply (answered_question_is_not_asked_again Sample.ratio Sample.ratio
           Sample.md5_hexdigest Desk.files Desk.biblStructs
           "A" "B" ["Smith"] [Some "Smyth"; None] true Sample.w_yes w1 w2 H1).
  apply later_write with (EvPrint "").
  eapply later_build; [|apply later_now].
  exact (surjective_pairing (Desk.build false (wrote (EvPrint "") w1))).
Defined.

(** The three ways in which an article is passed over. *)
Lemma skipped_article_adds_nothing_witness :
  let one := process_article Sample.ratio Sample.ratio Sample.files
               Sample.biblStructs "tei" Sample.bib true [] in
  one Sample.madaan Sample.w0 = (Ok [], Sample.w0)
  /\ one Sample.lost Sample.w0
     = (Ok [], World [] [] [EvFail "tei-file not found for A Lost Paper" (Some "")])
  /\ one Sample.blank Sample.w0
     = (Ok [], World [] [] [EvFail "tei-file is empty for" (Some "A Blank Paper")]).
Proof.
  intros one.
  pose proof (skipped_article_adds_nothing Sample.ratio Sample.ratio
                Sample.files Sample.biblStructs "tei" Sample.bib [] true [])
    as H.
  split; [|split].
  - destruct (H Sample.madaan Sample.w0) as (Ha & _).
    refine (proj1 (Ha _)). reflexivity.
  - destruct (H Sample.lost Sample.w0) as (_ & Hb & _).
    refine (proj1 (Hb "pdfs/lost.pdf" "A Lost Paper" _ _ _));
      vm_compute; reflexivity.
  - destruct (H Sample.blank Sample.w0) as (_ & _ & Hc).
    refine (proj1 (Hc "pdfs/blank.pdf" no_blocks _ _ _));
      [reflexivity | vm_compute; reflexivity | by left].
Defined.

(** C9 as it was stated does not hold: an article without a file field is
    passed over without any warning, so the build of a bibliography of such
    articles ends with no [msg.fail] record at all, not with one per
    article. *)
Lemma absent_file_field_gives_no_warning :
  file Sample.madaan = None
  /\ exists g w',
       Sample.build [Sample.madaan] true Sample.w0 = (Ok g, w')
       /\ g_edges g = []
       /\ warnings (console w') = []
       /\ length (warnings (console w')) <> 1%nat.
Proof.
  split; [reflexivity|].
  eexists _, _. split; [vm_compute; reflexivity|].
  split; [reflexivity|]. split; [reflexivity | discriminate].
Qed.

(** ** Author fields *)

Lemma separator_is_case_sensitive_witness :
  find_author (join_names "Smith" [("and", "Jones"); ("AND", "Mc-Lee")])
  = ["Smith"; "Jones"; "Mc-Lee"]
  /\ find_author ("Smith" +:+ " " +:+ "And" +:+ " " +:+ "Jones") = ["Jones"]
  /\ find_author
       (join_entries "van der Berg" "John"
          [("AND", ("Doe", "Jane")); ("and", ("Roe", "R."))])
     = ["van der Berg"; "Doe"; "Roe"]
  /\ find_author ("Smith" +:+ "," +:+ " John And Doe, Jane") = ["Smith"].
Proof.
  destruct separator_is_case_sensitive as (H1 & H2 & H3 & H4).
  split; [|split; [|split]].
  - apply (H1 "Smith" [("and", "Jones"); ("AND", "Mc-Lee")]); reflexivity.
  - apply (H2 "Smith" "And" "Jones"); reflexivity.
  - apply (H3 "van der Berg" "John"
             [("AND", ("Doe", "Jane")); ("and", ("Roe", "R."))]); reflexivity.
  - apply (H4 "Smith" " John And Doe, Jane"); reflexivity.
Defined.

(** ** Further properties at work *)

Lemma find_doi_sound_witness :
  find_doi (Some "see https://doi.org/10.1000/saha now") = Some "10.1000/saha"
  /\ exists pre post,
       chars "see https://doi.org/10.1000/saha now"
       = pre ++ chars "10.1000/saha" ++ post
       /\ doi_shaped (chars "10.1000/saha") /\ blank_next post
       /\ (6 <= length (chars "10.1000/saha"))%nat
       /\ forallb is_nonspace (chars "10.1000/saha") = true.
Proof.
  assert (H : find_doi (Some "see https://doi.org/10.1000/saha now")
              = Some "10.1000/saha") by (vm_compute; reflexivity).
  split; [exact H|].
  exact (find_doi_sound "see https://doi.org/10.1000/saha now"
           "10.1000/saha" H).
Defined.

Lemma find_doi_ignores_context_witness :
  find_doi (Some ("https://doi.org/" +:+ "10.1000/saha" +:+ " (open access)"))
  = Some "10.1000/saha".
Proof.
  apply (find_doi_ignores_context "https://doi.org/" "10.1000/saha"
           " (open access)"); vm_compute; reflexivity.
Defined.

Lemma find_author_names_are_words_witness :
  find_author "Saha, Swarnadeep and Pal, Harinder" = ["Saha"; "Pal"]
  /\ "Pal" <> ""
  /\ forallb (if contains_char "," "Saha, Swarnadeep and Pal, Harinder"
              then is_name_or_blank else is_name_char) (chars "Pal") = true
  /\ contains_char "," "Pal" = false.
Proof.
  assert (H : find_author "Saha, Swarnadeep and Pal, Harinder"
              = ["Saha"; "Pal"]) by (vm_compute; reflexivity).
  split; [exact H|].
  apply (find_author_names_are_words "Saha, Swarnadeep and Pal, Harinder"
           "Pal").
  rewrite H. right. left.
Defined.

Lemma find_matching_authors_bounds_witness :
  (0 <= 2 + 3 - 3 <= 2 /\ 2 + 3 - 3 <= 6 <= 5 * (2 + 3 - 3))
  /\ find_matching_authors Sample.ratio ["Saha"; "Pal"] [] = Ok (0, 2 + 0)
  /\ None ∈ [Some "Saha"; None].
Proof.
  pose proof (find_matching_authors_bounds Sample.ratio ["Saha"; "Pal"]
                [Some "Saha"; Some "Pal"; None]) as (H1 & _).
  pose proof (find_matching_authors_bounds Sample.ratio ["Saha"; "Pal"] [])
    as (_ & H2 & _).
  pose proof (find_matching_authors_bounds Sample.ratio ["Saha"; "Pal"]
                [Some "Saha"; None]) as (_ & _ & H3 & _).
  split; [|split].
  - apply (H1 6 3). vm_compute. reflexivity.
  - apply H2. by right.
  - apply (H3 AttributeError). vm_compute. reflexivity.
Defined.

(** The first authors agree: a match with one author on the side of the
    article, although the reference has a surname without text. *)
Lemma same_first_author_settles_witness :
  citation_matching Sample.ratio Sample.ratio (Some "10.1000/saha")
    (Some "10.2000/other") (Some "A {Survey}") (Some "a survey")
    ("Saha" :: ["Pal"]) (Some "Saha" :: [Some "Roe"]) false Sample.w_yes
  = (Ok true, Sample.w_yes)
  /\ citation_matching Sample.ratio Sample.ratio None None
       (Some "A {Survey}") (Some "a survey")
       ("Saha" :: []) (Some "Saha" :: [None]) false Sample.w_yes
     = (Ok true, Sample.w_yes).
Proof.
  split.
  - apply (same_first_author_settles Sample.ratio Sample.ratio
             (Some "10.1000/saha") (Some "10.2000/other") "A {Survey}"
             "a survey" "Saha" ["Pal"] [Some "Roe"] false Sample.w_yes
             ltac:(vm_compute; reflexivity)).
    left. intros H. repeat (apply elem_of_cons in H as [H|H]; [done|]).
    by apply elem_of_nil in H.
  - apply (same_first_author_settles Sample.ratio Sample.ratio
             None None "A {Survey}" "a survey" "Saha" [] [None] false
             Sample.w_yes ltac:(vm_compute; reflexivity)).
    by right.
Defined.

Lemma doi_fields_match_in_context_witness :
  citation_matching Sample.ratio Sample.ratio
    (Some ("https://doi.org/" +:+ "10.1000/saha" +:+ ""))
    (Some ("doi: " +:+ "10.1000/saha" +:+ " (open access)"))
    (Some "A Survey") None ["Saha"] [Some "Pal"; None] false Sample.w_yes
  = (Ok true, Sample.w_yes).
Proof.
  apply (doi_fields_match_in_context Sample.ratio Sample.ratio
           "https://doi.org/" "" "doi: " " (open access)" "10.1000/saha");
    vm_compute; (reflexivity || exact I).
Defined.

(** The automated build of the second sample leaves the two lines of input
    unread. *)
Lemma automated_build_leaves_session_witness :
  let run := Desk.build true Sample.w_yes in
  user_answers (snd run) = user_answers Sample.w_yes
  /\ stdin (snd run) = stdin Sample.w_yes
  /\ exists out, console (snd run) = console Sample.w_yes ++ out.
Proof.
  intros run.
  apply (automated_build_leaves_session Sample.ratio Sample.ratio
           Sample.md5_hexdigest Desk.files Desk.biblStructs Desk.bib "tei"
           true Sample.w_yes (snd run) (fst run)).
  vm_compute. reflexivity.
Defined.

(** The interactive build of the second sample asks one question, reads the
    line [y] for it and records the answer [True]; the line [n] is left. *)
Lemma build_accounts_for_input_witness :
  let run := Desk.build false Sample.w_yes in
  (map snd (user_answers (snd run)) = [true] /\ stdin (snd run) = ["n"])
  /\ exists asked lines out,
       user_answers (snd run) = user_answers Sample.w_yes ++ asked
       /\ stdin Sample.w_yes = lines ++ stdin (snd run)
       /\ map snd asked = map (fun l => String.eqb l "y") lines
       /\ console (snd run) = console Sample.w_yes ++ out.
Proof.
  intros run. split; [split; vm_compute; reflexivity|].
  apply (build_accounts_for_input Sample.ratio Sample.ratio
           Sample.md5_hexdigest Desk.files Desk.biblStructs Desk.bib "tei"
           true false Sample.w_yes (snd run) (fst run)).
  vm_compute. reflexivity.
Defined.

Lemma recorded_questions_stay_distinct_witness :
  NoDup (map fst (user_answers (snd (Desk.build false Sample.w_yes)))).
Proof.
  apply (proj2 (recorded_questions_stay_distinct Sample.ratio Sample.ratio
                  Sample.md5_hexdigest Desk.files Desk.biblStructs
                  Sample.w_yes ltac:(vm_compute; constructor))
           Desk.bib "tei" true false
           (fst (Desk.build false Sample.w_yes))
           (snd (Desk.build false Sample.w_yes))).
  vm_compute. reflexivity.
Defined.

Lemma graph_mirrors_bibliography_witness :
  Forall2
    (fun a d =>
       a_key d = bibtex_key a
       /\ a_title d = tval (title a) /\ a_year d = year a
       /\ exists s, author a = Some s /\ a_author d = find_author s)
    Sample.bib (g_articles Sample.the_graph)
  /\ Forall2 (fun a z => py_int (year a) = Ok z) Sample.bib
       (g_years Sample.the_graph).
Proof.
  apply (graph_mirrors_bibliography Sample.ratio Sample.ratio
           Sample.md5_hexdigest Sample.files Sample.biblStructs Sample.bib
           "tei" true true Sample.w0 Sample.the_world Sample.the_graph).
  vm_compute. reflexivity.
Defined.

Lemma graph_is_consistent_witness :
  (forall d, d ∈ g_articles Sample.the_graph ->
     exists y ks,
       py_int (a_year d) = Ok y /\ y ∈ g_years Sample.the_graph
       /\ g_year_arts Sample.the_graph !! y = Some ks /\ a_key d ∈ ks)
  /\ (forall e, e ∈ g_edges Sample.the_graph ->
        e_from e ∈ map a_key (g_articles Sample.the_graph)
        /\ e_to e ∈ map a_key (g_articles Sample.the_graph)).
Proof.
  apply (graph_is_consistent Sample.ratio Sample.ratio
           Sample.md5_hexdigest Sample.files Sample.biblStructs Sample.bib
           "tei" true true Sample.w0 Sample.the_world Sample.the_graph).
  vm_compute. reflexivity.
Defined.

Lemma edges_come_from_documents_witness :
  (length (g_edges Sample.the_graph)
   <= sum_list
        (map (fun a =>
                length (references_of Sample.files Sample.biblStructs "tei" a))
           (map (convert_key Sample.md5_hexdigest true) Sample.bib)))%nat
  /\ forall e, e ∈ g_edges Sample.the_graph ->
       exists a,
         a ∈ map (convert_key Sample.md5_hexdigest true) Sample.bib
         /\ e_from e = bibtex_key a
         /\ references_of Sample.files Sample.biblStructs "tei" a <> [].
Proof.
  apply (edges_come_from_documents Sample.ratio Sample.ratio
           Sample.md5_hexdigest Sample.files Sample.biblStructs Sample.bib
           "tei" true true Sample.w0 Sample.the_world Sample.the_graph).
  vm_compute. reflexivity.
Defined.

Lemma build_needs_documents_witness :
  Forall (fun a => author a <> None
                   /\ document_ok Sample.files Sample.biblStructs "tei" a)
    Sample.bib.
Proof.
  apply (build_needs_documents Sample.ratio Sample.ratio
           Sample.md5_hexdigest Sample.files Sample.biblStructs Sample.bib
           "tei" true true Sample.w0 Sample.the_world Sample.the_graph).
  vm_compute. reflexivity.
Defined.

Lemma reference_without_title_and_doi_is_skipped_witness :
  process_ref Sample.ratio Sample.ratio Desk.bib Desk.review false []
    Desk.untitled_ref Sample.w_yes
  = (Ok [], Sample.w_yes).
Proof.
  apply (reference_without_title_and_doi_is_skipped Sample.ratio Sample.ratio
           Desk.bib Desk.review false [] Desk.untitled_ref Sample.w_yes);
    [reflexivity | reflexivity | repeat constructor; discriminate].
Defined.

Lemma automated_build_completes_graph_witness :
  exists g w', Desk.build true Sample.w0 = (Ok g, w').
Proof.
  apply (automated_build_completes_graph Sample.ratio Sample.ratio
           Sample.md5_hexdigest Desk.files Desk.biblStructs Desk.bib "tei"
           true Sample.w0); [discriminate|].
  assert (Hreview : Desk.files !! tei_path "tei" "pdfs/review.pdf"
                    = Some Desk.review_tei) by (vm_compute; reflexivity).
  assert (Hblank : Desk.files !! tei_path "tei" "pdfs/blank.pdf"
                   = Some no_blocks) by (vm_compute; reflexivity).
  assert (Hsur : forall a, a ∈ Desk.bib ->
            surnames_ok Desk.files Desk.biblStructs "tei" a).
  { intros a Ha. unfold surnames_ok.
    repeat (apply elem_of_cons in Ha as [-> | Ha]);
      [| | |by apply elem_of_nil in Ha]; vm_compute;
      repeat constructor; intros H;
      repeat (apply elem_of_cons in H as [H|H]; [done|]);
      by apply elem_of_nil in H. }
  repeat (apply Forall_cons_2 || apply Forall_nil_2);
    (split; [by eexists | split; [discriminate|]]);
    (split; [|apply Hsur; set_solver]); intros f [= <-].
  - rewrite Hreview. right. right.
    exists [Desk.untitled_ref; Desk.doubtful_ref].
    split; [reflexivity | repeat constructor; discriminate].
  - rewrite Hblank. by left.
Defined.


Lemma automated_match_needs_no_question_witness :
  citation_matching Sample.ratio Sample.ratio None None (Some "A {Survey}")
    (Some "a survey") ["Saha"; "Pal"] [Some "Pal"; Some "Saha"] false
    Sample.w_yes
  = (Ok true, Sample.w_yes).
Proof.
  apply (automated_match_needs_no_question Sample.ratio Sample.ratio None
           None (Some "A {Survey}") (Some "a survey") ["Saha"; "Pal"]
           [Some "Pal"; Some "Saha"] Sample.w0 Sample.w0).
  vm_compute. reflexivity.
Defined.

(** The operator answers [y] to a question about equal titles with
    different authors. *)
Lemma interactive_match_is_backed_by_answer_witness :
  let q : question := ("A SURVEY", "A SURVEY", ["Saha"], [Some "Pal"]) in
  let w' := World [(q, true)] ["n"] (prompt_events q) in
  exists ta' tr',
    Some "A {Survey}" = Some ta' /\ Some "a survey" = Some tr'
    /\ lookup_answer (clean_title ta', clean_title tr', ["Saha"], [Some "Pal"])
         (user_answers w') = Some true.
Proof.
  intros q w'.
  apply (interactive_match_is_backed_by_answer Sample.ratio Sample.ratio
           None None (Some "A {Survey}") (Some "a survey") ["Saha"]
           [Some "Pal"] Sample.w_yes w'); vm_compute; reflexivity.
Defined.

Lemma converted_keys_only_rename_witness :
  build_graph_model Sample.ratio Sample.ratio Sample.md5_hexdigest
    Sample.files Sample.biblStructs Sample.bib "tei" false true Sample.w0
  = (on_ok (rename_graph (key_to_md5 Sample.md5_hexdigest))
       (Ok Sample.the_graph), Sample.the_world).
Proof.
  apply (converted_keys_only_rename Sample.ratio Sample.ratio
           Sample.md5_hexdigest Sample.files Sample.biblStructs Sample.bib
           "tei" true Sample.w0 Sample.the_world (Ok Sample.the_graph)).
  vm_compute. reflexivity.
Defined.

(** A digest that starts with six digits, and one that does not. *)
Lemma key_to_md5_is_not_a_number_witness :
  key_to_md5 (fun _ => "900150983cd24fb0d6963f7d28e17f72") "abc" = "900150a"
  /\ key_to_md5 Sample.md5_hexdigest "abc" = "0cc175".
Proof.
  split.
  - apply (proj1 (key_to_md5_is_not_a_number
                    (fun _ => "900150983cd24fb0d6963f7d28e17f72") "abc")).
    reflexivity.
  - apply (proj1 (proj2 (key_to_md5_is_not_a_number Sample.md5_hexdigest
                           "abc"))).
    reflexivity.
Defined.
